(** * Media relay between a telephony stream and a voice agent

    A shallow embedding of the per-call relay of [src/inbound-calls.js]
    (queue, pacer, readiness gate, the two socket handlers) and of the audio
    helpers [parseWavAndExtractData] and [ensureRawUlawBase64] of the
    variant of that file kept in [src/unnamed/part_000].

    JavaScript values are a small inductive type, a [Buffer] is a list of
    bytes, the closure variables of the [/media-stream] handler are a record,
    and every callback is a function on that record in a state-and-exception
    monad: a [throw] keeps the mutations done before it, as in the source. *)

From Equations Require Import Equations.
From Stdlib Require Import ZArith NArith List String Ascii Bool Lia.
From Stdlib.Strings Require Import Byte.
Import ListNotations.
Open Scope Z_scope.

Set Warnings "-register-all".

(** ** JavaScript values, as [JSON.parse] produces them *)

(** A number is kept as an integer: the handlers only observe whether a
    number is zero, and never compute with one taken from a message. *)
Inductive jsval : Type :=
| JUndefined
| JNull
| JBool (b : bool)
| JNum (n : Z)
| JStr (s : string)
| JArr (items : list jsval)
| JObj (props : list (string * jsval)).

Inductive exn : Type :=
| TypeError (msg : string)
| RangeError (msg : string)
| SyntaxError (msg : string)
| Error (msg : string).

Inductive outcome (A : Type) : Type :=
| Return (a : A)
| Throw (e : exn).
Arguments Return {A} a.
Arguments Throw {A} e.

Definition obind {A B} (m : outcome A) (k : A -> outcome B) : outcome B :=
  match m with
  | Return a => k a
  | Throw e => Throw e
  end.

Declare Scope outcome_scope.
Delimit Scope outcome_scope with outcome.
Notation "'let?' x ':=' m 'in' k" := (obind m (fun x => k))
  (at level 10, x name, m at level 100, k at level 200) : outcome_scope.

(** [!v] is [negb (truthy v)]. *)
Definition truthy (v : jsval) : bool :=
  match v with
  | JUndefined | JNull => false
  | JBool b => b
  | JNum n => negb (n =? 0)
  | JStr s => negb (String.eqb s "")
  | JArr _ | JObj _ => true
  end.

(** [a || b] *)
Definition js_or (a b : jsval) : jsval := if truthy a then a else b.

(** [v === "lit"] *)
Definition is_str (v : jsval) (lit : string) : bool :=
  match v with
  | JStr s => String.eqb s lit
  | _ => false
  end.

(** Own property of a parsed object; when a name is repeated in the text,
    [JSON.parse] keeps the last value. *)
Fixpoint own_prop (props : list (string * jsval)) (k : string) : option jsval :=
  match props with
  | [] => None
  | (k', v) :: rest =>
      match own_prop rest k with
      | Some v' => Some v'
      | None => if String.eqb k' k then Some v else None
      end
  end.

(** [v.k], for the property names the handlers read: none of them is a
    property of a prototype, so a primitive or an array yields [undefined];
    reading a property of [null] or [undefined] throws. *)
Definition get (v : jsval) (k : string) : outcome jsval :=
  match v with
  | JUndefined | JNull => Throw (TypeError "Cannot read properties of null or undefined")
  | JObj props =>
      match own_prop props k with
      | Some x => Return x
      | None => Return JUndefined
      end
  | _ => Return JUndefined
  end.

(** [v?.k] *)
Definition get_opt (v : jsval) (k : string) : outcome jsval :=
  match v with
  | JUndefined | JNull => Return JUndefined
  | _ => get v k
  end.

(** Whether [`${v}`] yields a string.  An object is converted through its
    [toString] and [valueOf]: a parsed object that has an own [toString]
    property holds a value there, not a function, and [valueOf] then gives
    the object back, so the conversion throws a [TypeError].  An array is
    joined, converting each item other than [null]. *)
Fixpoint renders (v : jsval) : bool :=
  match v with
  | JObj props =>
      match own_prop props "toString" with
      | Some _ => false
      | None => true
      end
  | JArr items => forallb renders items
  | _ => true
  end.

(** ** Buffers *)

Definition Buffer : Type := list byte.

Definition blen (b : Buffer) : Z := Z.of_nat (List.length b).

(** An index of [slice]/[subarray]: a negative one counts from the end, and
    the result is clamped to the buffer. *)
Definition norm_index (b : Buffer) (i : Z) : nat :=
  Z.to_nat (if i <? 0 then Z.max 0 (blen b + i) else Z.min i (blen b)).

(** [b.subarray(s, e)] and [b.slice(s, e)] *)
Definition subarray (b : Buffer) (s e : Z) : Buffer :=
  firstn (norm_index b e - norm_index b s) (skipn (norm_index b s) b).

(** [b.subarray(s)] *)
Definition subarray_from (b : Buffer) (s : Z) : Buffer :=
  subarray b s (blen b).

(** [b[i]] *)
Definition byte_at (b : Buffer) (i : Z) : option byte :=
  if i <? 0 then None else nth_error b (Z.to_nat i).

Fixpoint bytes_eqb (a b : Buffer) : bool :=
  match a, b with
  | [], [] => true
  | x :: a', y :: b' => Byte.eqb x y && bytes_eqb a' b'
  | _, _ => false
  end.

(** [b.toString() === lit] for an ASCII literal: decoding bytes as UTF-8
    gives an ASCII string only from those very bytes. *)
Definition is_ascii (b : Buffer) (lit : string) : bool :=
  bytes_eqb b (list_byte_of_string lit).

(** [b[i] === n] and [(b[i] & mask) === n]; [undefined] makes both false. *)
Definition byte_is (b : Buffer) (i : Z) (n : N) : bool :=
  match byte_at b i with
  | Some x => N.eqb (Byte.to_N x) n
  | None => false
  end.

Definition byte_and_is (b : Buffer) (i : Z) (mask n : N) : bool :=
  match byte_at b i with
  | Some x => N.eqb (N.land (Byte.to_N x) mask) n
  | None => false
  end.

(** The byte of value [n mod 256]. *)
Definition byte_of_N (n : N) : byte :=
  match Byte.of_N (n mod 256) with
  | Some b => b
  | None => x00
  end.

(** Little-endian value of a run of bytes. *)
Fixpoint le_value (bs : Buffer) : N :=
  match bs with
  | [] => 0%N
  | x :: rest => (Byte.to_N x + 256 * le_value rest)%N
  end.

(** [b.readUIntLE(off, n)]: a [RangeError] when the [n] bytes do not lie in
    the buffer. *)
Definition readUIntLE (b : Buffer) (off : Z) (n : nat) : outcome N :=
  if (0 <=? off) && (off + Z.of_nat n <=? blen b)
  then Return (le_value (firstn n (skipn (Z.to_nat off) b)))
  else Throw (RangeError "The value of offset is out of range").

Definition readUInt16LE (b : Buffer) (off : Z) : outcome N := readUIntLE b off 2.
Definition readUInt32LE (b : Buffer) (off : Z) : outcome N := readUIntLE b off 4.

Fixpoint is_prefix (p b : Buffer) : bool :=
  match p, b with
  | [], _ => true
  | x :: p', y :: b' => Byte.eqb x y && is_prefix p' b'
  | _ :: _, [] => false
  end.

(** [b.indexOf(needle)] from position [i] of the original buffer; [-1] when
    absent. *)
Fixpoint indexOf_from (needle b : Buffer) (i : Z) : Z :=
  match b with
  | [] => if is_prefix needle [] then i else -1
  | _ :: rest => if is_prefix needle b then i else indexOf_from needle rest (i + 1)
  end.

Definition indexOf (b needle : Buffer) : Z := indexOf_from needle b 0.

(** ** Frame packetizer *)

Definition FRAME_BYTES : Z := 160.
Definition FRAME_INTERVAL_MS : Z := 20.

(** The slicing loop of [enqueueELBase64] (and of the [audio] case of the
    older handler), from index [i] on:
    [for (; i < buf.length; i += FRAME_BYTES)
       push(buf.subarray(i, Math.min(i + FRAME_BYTES, buf.length)))]. *)
Equations? frames_from (buf : Buffer) (i : Z) : list Buffer
  by wf (Z.to_nat (blen buf - i)) lt :=
  frames_from buf i with Z_lt_dec i (blen buf) => {
    | left _ =>
        subarray buf i (Z.min (i + FRAME_BYTES) (blen buf))
          :: frames_from buf (i + FRAME_BYTES)
    | right _ => [] }.
Proof. unfold FRAME_BYTES. lia. Qed.

Definition packetize (buf : Buffer) : list Buffer := frames_from buf 0.

(** ** Base64, the standard alphabet

    A concrete codec, used to run the relay on concrete messages.  The relay
    itself is stated over any pair of functions standing for
    [Buffer.from(s, "base64")] and [buf.toString("base64")]. *)
Module Base64.

Definition alphabet : list ascii :=
  list_ascii_of_string
    "ABCDEFGHIJKLMNOPQRSTUVWXYZabcdefghijklmnopqrstuvwxyz0123456789+/".

Definition digit (n : N) : ascii := nth (N.to_nat n) alphabet "="%char.

Fixpoint encode (bs : Buffer) : string :=
  match bs with
  | [] => EmptyString
  | [a] =>
      let x := Byte.to_N a in
      String (digit (x / 4)) (String (digit ((x mod 4) * 16)) "==")
  | [a; b] =>
      let x := Byte.to_N a in
      let y := Byte.to_N b in
      String (digit (x / 4))
        (String (digit ((x mod 4) * 16 + y / 16))
           (String (digit ((y mod 16) * 4)) "="))
  | a :: b :: c :: rest =>
      let x := Byte.to_N a in
      let y := Byte.to_N b in
      let z := Byte.to_N c in
      String (digit (x / 4))
        (String (digit ((x mod 4) * 16 + y / 16))
           (String (digit ((y mod 16) * 4 + z / 64))
              (String (digit (z mod 64)) (encode rest))))
  end%N.

Fixpoint index_of (c : ascii) (l : list ascii) (i : N) : option N :=
  match l with
  | [] => None
  | d :: rest => if Ascii.eqb c d then Some i else index_of c rest (i + 1)%N
  end.

(** The URL-safe digits are accepted as well. *)
Definition value (c : ascii) : option N :=
  if Ascii.eqb c "-" then Some 62%N
  else if Ascii.eqb c "_" then Some 63%N
  else index_of c alphabet 0%N.

(** The digits up to the first padding character; any other character is
    skipped. *)
Fixpoint sextets (s : string) : list N :=
  match s with
  | EmptyString => []
  | String c rest =>
      if Ascii.eqb c "=" then []
      else match value c with
           | Some n => n :: sextets rest
           | None => sextets rest
           end
  end.

Fixpoint unpack (l : list N) : Buffer :=
  match l with
  | a :: b :: c :: d :: rest =>
      byte_of_N (a * 4 + b / 16)
        :: byte_of_N ((b mod 16) * 16 + c / 4)
        :: byte_of_N ((c mod 4) * 64 + d)
        :: unpack rest
  | [a; b; c] =>
      [byte_of_N (a * 4 + b / 16); byte_of_N ((b mod 16) * 16 + c / 4)]
  | [a; b] => [byte_of_N (a * 4 + b / 16)]
  | _ => []
  end%N.

Definition decode (s : string) : Buffer := unpack (sextets s).

End Base64.

(** ** WAV parsing ([parseWavAndExtractData]) *)

(** The local variables of the chunk walk; [None] is [null]. *)
Record WavScan : Type := mkWavScan {
  scan_audioFormat : option N;
  scan_numChannels : option N;
  scan_sampleRate : option N;
  scan_bitsPerSample : option N;
  scan_dataStart : option Z;
  scan_dataSize : option N
}.

Definition scan_init : WavScan := mkWavScan None None None None None None.

(** The body of the walk for one chunk: a ["fmt "] chunk sets the four format
    fields, a ["data"] chunk sets the data range. *)
Definition scan_chunk (wavBuf chunkId : Buffer) (chunkStart : Z) (chunkSize : N)
    (st : WavScan) : outcome WavScan :=
  if is_ascii chunkId "fmt " then
    (let? af := readUInt16LE wavBuf (chunkStart + 0) in
     let? nc := readUInt16LE wavBuf (chunkStart + 2) in
     let? sr := readUInt32LE wavBuf (chunkStart + 4) in
     let? bps := readUInt16LE wavBuf (chunkStart + 14) in
     Return (mkWavScan (Some af) (Some nc) (Some sr) (Some bps)
               (scan_dataStart st) (scan_dataSize st)))%outcome
  else if is_ascii chunkId "data" then
    Return (mkWavScan (scan_audioFormat st) (scan_numChannels st)
              (scan_sampleRate st) (scan_bitsPerSample st)
              (Some chunkStart) (Some chunkSize))
  else Return st.

(** [dataStart != null && audioFormat != null] *)
Definition scan_done (st : WavScan) : bool :=
  match scan_dataStart st, scan_audioFormat st with
  | Some _, Some _ => true
  | _, _ => false
  end.

(** [while (pos + 8 <= wavBuf.length) { ... }] *)
Equations? wav_loop (wavBuf : Buffer) (pos : Z) (st : WavScan) : outcome WavScan
  by wf (Z.to_nat (blen wavBuf - pos)) lt :=
  wav_loop wavBuf pos st with Z_le_dec (pos + 8) (blen wavBuf) => {
    | right _ => Return st
    | left _ with readUInt32LE wavBuf (pos + 4) => {
        | Throw e => Throw e
        | Return chunkSize
            with scan_chunk wavBuf (subarray wavBuf pos (pos + 4)) (pos + 8)
                   chunkSize st => {
            | Throw e => Throw e
            | Return st' with scan_done st' => {
                | true => Return st'
                | false =>
                    wav_loop wavBuf
                      (pos + 8 + Z.of_N chunkSize + Z.of_N (chunkSize mod 2)) st' } } } }.
Proof.
  pose proof (N2Z.is_nonneg chunkSize).
  pose proof (N2Z.is_nonneg (chunkSize mod 2)).
  generalize dependent (Z.of_N (chunkSize mod 2)).
  generalize dependent (Z.of_N chunkSize).
  intros. lia.
Qed.

(** [v === n] for a field that is a number or [null]. *)
Definition is_num (v : option N) (n : N) : bool :=
  match v with
  | Some x => N.eqb x n
  | None => false
  end.

Record WavInfo : Type := mkWavInfo {
  data : Buffer;
  audioFormat : option N;
  numChannels : option N;
  sampleRate : option N;
  bitsPerSample : option N
}.

Definition parseWavAndExtractData (wavBuf : Buffer) : outcome WavInfo :=
  if negb (is_ascii (subarray wavBuf 0 4) "RIFF")
     || negb (is_ascii (subarray wavBuf 8 12) "WAVE")
  then Throw (Error "Not a WAV container")
  else
    (let? st := wav_loop wavBuf 12 scan_init in
     match scan_dataStart st, scan_dataSize st with
     | Some dataStart, Some dataSize =>
         Return (mkWavInfo (subarray wavBuf dataStart (dataStart + Z.of_N dataSize))
                   (scan_audioFormat st) (scan_numChannels st)
                   (scan_sampleRate st) (scan_bitsPerSample st))
     | _, _ => Throw (Error "WAV has no data chunk")
     end)%outcome.

(** ** Container stripping of the relay ([stripWaveIfNeeded]) *)

Definition stripWaveIfNeeded (buf : Buffer) : Buffer :=
  if (12 <=? blen buf) && is_ascii (subarray buf 0 4) "RIFF" then
    let dataIdx := indexOf buf (list_byte_of_string "data") in
    if (0 <? dataIdx) && (dataIdx + 8 <=? blen buf)
    then subarray_from buf (dataIdx + 8)
    else buf
  else buf.

(** ** The relay, over the runtime's base64 codec *)

Inductive reason : Type :=
| ReasonEmpty                        (* "empty" *)
| ReasonWavNotUlaw (fmt : option N)  (* "wav-not-ulaw(fmt=...)" *)
| ReasonMp3Container                 (* "mp3-container" *)
| ReasonOggContainer.                (* "ogg-container" *)

Inductive note : Type :=
| NoteStrippedWav                    (* "stripped-wav" *)
| NoteRaw.                           (* "raw" *)

(** [{ ok: false, reason }] and [{ ok: true, b64, note }] *)
Inductive EnsureResult : Type :=
| EnsureFail (r : reason)
| EnsureOk (b64 : jsval) (n : note).

Inductive readyState : Type := CONNECTING | OPEN | CLOSING | CLOSED.

Definition is_open (r : readyState) : bool :=
  match r with
  | OPEN => true
  | _ => false
  end.

Record Stats : Type := mkStats {
  twilioMediaInFrames : Z;
  forwardedToELBytes : Z;
  elAudioFrames : Z;
  forwardedToTwilioBytes : Z
}.

(** The variables the callbacks of one [/media-stream] connection close
    over, the [readyState] of the two sockets, and what has been handed to
    each open socket so far (oldest first; every message is the object given
    to [JSON.stringify]). *)
Record Session : Type := mkSession {
  outQueue : list jsval;
  streamSid : jsval;
  elevenLabsWs : option readyState;      (* [null], or the agent socket *)
  stats : Stats;
  pacerTimer : bool;                     (* an interval is set *)
  convoReady : bool;
  elReadyFallbackTimer : bool;           (* the timeout is pending *)
  statsTimer : bool;
  connection : readyState;               (* the telephony socket *)
  DateVar : jsval;
  TimeVar : jsval;
  NameVar : jsval;
  ContactVar : jsval;
  toTwilio : list jsval;
  toAgent : list jsval;
  agentCloseCalls : nat
}.

Definition set_outQueue (q : list jsval) (s : Session) : Session :=
  mkSession q (streamSid s) (elevenLabsWs s) (stats s) (pacerTimer s)
    (convoReady s) (elReadyFallbackTimer s) (statsTimer s) (connection s)
    (DateVar s) (TimeVar s) (NameVar s) (ContactVar s)
    (toTwilio s) (toAgent s) (agentCloseCalls s).

Definition set_streamSid (v : jsval) (s : Session) : Session :=
  mkSession (outQueue s) v (elevenLabsWs s) (stats s) (pacerTimer s)
    (convoReady s) (elReadyFallbackTimer s) (statsTimer s) (connection s)
    (DateVar s) (TimeVar s) (NameVar s) (ContactVar s)
    (toTwilio s) (toAgent s) (agentCloseCalls s).

Definition set_elevenLabsWs (w : option readyState) (s : Session) : Session :=
  mkSession (outQueue s) (streamSid s) w (stats s) (pacerTimer s)
    (convoReady s) (elReadyFallbackTimer s) (statsTimer s) (connection s)
    (DateVar s) (TimeVar s) (NameVar s) (ContactVar s)
    (toTwilio s) (toAgent s) (agentCloseCalls s).

Definition set_stats (st : Stats) (s : Session) : Session :=
  mkSession (outQueue s) (streamSid s) (elevenLabsWs s) st (pacerTimer s)
    (convoReady s) (elReadyFallbackTimer s) (statsTimer s) (connection s)
    (DateVar s) (TimeVar s) (NameVar s) (ContactVar s)
    (toTwilio s) (toAgent s) (agentCloseCalls s).

Definition set_pacerTimer (b : bool) (s : Session) : Session :=
  mkSession (outQueue s) (streamSid s) (elevenLabsWs s) (stats s) b
    (convoReady s) (elReadyFallbackTimer s) (statsTimer s) (connection s)
    (DateVar s) (TimeVar s) (NameVar s) (ContactVar s)
    (toTwilio s) (toAgent s) (agentCloseCalls s).

Definition set_convoReady (b : bool) (s : Session) : Session :=
  mkSession (outQueue s) (streamSid s) (elevenLabsWs s) (stats s) (pacerTimer s)
    b (elReadyFallbackTimer s) (statsTimer s) (connection s)
    (DateVar s) (TimeVar s) (NameVar s) (ContactVar s)
    (toTwilio s) (toAgent s) (agentCloseCalls s).

Definition set_elReadyFallbackTimer (b : bool) (s : Session) : Session :=
  mkSession (outQueue s) (streamSid s) (elevenLabsWs s) (stats s) (pacerTimer s)
    (convoReady s) b (statsTimer s) (connection s)
    (DateVar s) (TimeVar s) (NameVar s) (ContactVar s)
    (toTwilio s) (toAgent s) (agentCloseCalls s).

Definition set_statsTimer (b : bool) (s : Session) : Session :=
  mkSession (outQueue s) (streamSid s) (elevenLabsWs s) (stats s) (pacerTimer s)
    (convoReady s) (elReadyFallbackTimer s) b (connection s)
    (DateVar s) (TimeVar s) (NameVar s) (ContactVar s)
    (toTwilio s) (toAgent s) (agentCloseCalls s).

Definition set_connection (r : readyState) (s : Session) : Session :=
  mkSession (outQueue s) (streamSid s) (elevenLabsWs s) (stats s) (pacerTimer s)
    (convoReady s) (elReadyFallbackTimer s) (statsTimer s) r
    (DateVar s) (TimeVar s) (NameVar s) (ContactVar s)
    (toTwilio s) (toAgent s) (agentCloseCalls s).

Definition set_toTwilio (l : list jsval) (s : Session) : Session :=
  mkSession (outQueue s) (streamSid s) (elevenLabsWs s) (stats s) (pacerTimer s)
    (convoReady s) (elReadyFallbackTimer s) (statsTimer s) (connection s)
    (DateVar s) (TimeVar s) (NameVar s) (ContactVar s)
    l (toAgent s) (agentCloseCalls s).

Definition set_toAgent (l : list jsval) (s : Session) : Session :=
  mkSession (outQueue s) (streamSid s) (elevenLabsWs s) (stats s) (pacerTimer s)
    (convoReady s) (elReadyFallbackTimer s) (statsTimer s) (connection s)
    (DateVar s) (TimeVar s) (NameVar s) (ContactVar s)
    (toTwilio s) l (agentCloseCalls s).

Definition set_agentCloseCalls (n : nat) (s : Session) : Session :=
  mkSession (outQueue s) (streamSid s) (elevenLabsWs s) (stats s) (pacerTimer s)
    (convoReady s) (elReadyFallbackTimer s) (statsTimer s) (connection s)
    (DateVar s) (TimeVar s) (NameVar s) (ContactVar s)
    (toTwilio s) (toAgent s) n.

(** The session as the handler leaves it once both sockets exist and every
    callback is registered. *)
Definition initial (date time name contact : jsval) : Session :=
  mkSession [] JNull (Some CONNECTING) (mkStats 0 0 0 0) false
    false true true OPEN date time name contact [] [] 0.

(** *** State and exceptions *)

Definition M (A : Type) : Type := Session -> Session * outcome A.

Definition ret {A} (a : A) : M A := fun s => (s, Return a).

Definition bind {A B} (m : M A) (k : A -> M B) : M B :=
  fun s =>
    match m s with
    | (s', Return a) => k a s'
    | (s', Throw e) => (s', Throw e)
    end.

Definition throw {A} (e : exn) : M A := fun s => (s, Throw e).

Definition lift {A} (o : outcome A) : M A := fun s => (s, o).

Definition gets {A} (f : Session -> A) : M A := fun s => (s, Return (f s)).

Definition modify (f : Session -> Session) : M unit := fun s => (f s, Return tt).

Definition when (b : bool) (m : M unit) : M unit := if b then m else ret tt.

(** [try { m } catch (e) { console.error(..., e) }] *)
Definition try_catch (m : M unit) : M unit := fun s => (fst (m s), Return tt).

Definition run (m : M unit) (s : Session) : Session := fst (m s).

Declare Scope relay_scope.
Delimit Scope relay_scope with relay.
Notation "x <- m ;; k" := (bind m (fun x => k))
  (at level 61, m at next level, right associativity) : relay_scope.
Notation "m ;; k" := (bind m (fun _ => k))
  (at level 61, right associativity) : relay_scope.
Open Scope relay_scope.

(** A [console] call whose argument interpolates [vs] into a template. *)
Definition log_template (vs : list jsval) : M unit :=
  if forallb renders vs then ret tt
  else throw (TypeError "Cannot convert object to primitive value").

(** The object a peer parses from [JSON.stringify({ k: v, ... })]: a
    property whose value is [undefined] is left out. *)
Definition wire (props : list (string * jsval)) : jsval :=
  JObj (filter (fun kv => match snd kv with JUndefined => false | _ => true end) props).

(** [connection.send(JSON.stringify(v))]: handed to the socket when it is
    open, discarded otherwise. *)
Definition twilio_send (v : jsval) : M unit :=
  modify (fun s => if is_open (connection s) then set_toTwilio (toTwilio s ++ [v]) s else s).

(** [elevenLabsWs.send(JSON.stringify(v))]: throws on [null] and on a socket
    that is still connecting. *)
Definition agent_send (v : jsval) : M unit :=
  w <- gets elevenLabsWs ;;
  match w with
  | None => throw (TypeError "Cannot read properties of null")
  | Some CONNECTING => throw (Error "WebSocket is not open: readyState 0 (CONNECTING)")
  | Some OPEN => modify (fun s => set_toAgent (toAgent s ++ [v]) s)
  | Some _ => ret tt
  end.

Definition media_message (sid payload : jsval) : jsval :=
  wire [("event", JStr "media"); ("streamSid", sid);
        ("media", wire [("payload", payload)])]%string.

Definition clear_message (sid : jsval) : jsval :=
  wire [("event", JStr "clear"); ("streamSid", sid)]%string.

Definition user_audio_message (chunk : string) : jsval :=
  wire [("user_audio_chunk", JStr chunk)]%string.

Definition bump_elAudioFrames (s : Session) : Session :=
  let t := stats s in
  set_stats (mkStats (twilioMediaInFrames t) (forwardedToELBytes t)
               (elAudioFrames t + 1) (forwardedToTwilioBytes t)) s.

Definition bump_twilioMediaInFrames (s : Session) : Session :=
  let t := stats s in
  set_stats (mkStats (twilioMediaInFrames t + 1) (forwardedToELBytes t)
               (elAudioFrames t) (forwardedToTwilioBytes t)) s.

Definition add_forwardedToELBytes (n : Z) (s : Session) : Session :=
  let t := stats s in
  set_stats (mkStats (twilioMediaInFrames t) (forwardedToELBytes t + n)
               (elAudioFrames t) (forwardedToTwilioBytes t)) s.

Definition add_forwardedToTwilioBytes (n : Z) (s : Session) : Session :=
  let t := stats s in
  set_stats (mkStats (twilioMediaInFrames t) (forwardedToELBytes t)
               (elAudioFrames t) (forwardedToTwilioBytes t + n)) s.

(** The events the runtime delivers to one session.  A message carries the
    result of [JSON.parse] on its text, [None] when the text does not
    parse.  The interval that prints the counters every five seconds changes
    nothing and has no event. *)
Inductive event : Type :=
| AgentOpen
| AgentMessage (parsed : option jsval)
| AgentReadyTimeout
| AgentError
| AgentClose
| AgentReadyState (r : readyState)
| TwilioMessage (parsed : option jsval)
| TwilioClose
| TwilioError
| TwilioReadyState (r : readyState)
| PacerTick.

(** ** Shapes of inputs and outputs, for the statements below *)

(** Every frame is full, except that the last one may be shorter (but is
    not empty). *)
Fixpoint frames_shape (l : list Buffer) : Prop :=
  match l with
  | [] => True
  | [x] => 1 <= blen x <= FRAME_BYTES
  | x :: (_ :: _) as rest => blen x = FRAME_BYTES /\ frames_shape rest
  end.

(** The [n] low bytes of a number, least significant first. *)
Fixpoint le_bytes (n : nat) (v : N) : Buffer :=
  match n with
  | O => []
  | S n' => byte_of_N v :: le_bytes n' (v / 256)
  end.

Definition size_of (body : Buffer) : N := N.of_nat (List.length body).

(** A RIFF chunk: identifier, 32-bit little-endian size, body, and one pad
    byte after a body of odd size. *)
Definition chunk_bytes (c : Buffer * Buffer) : Buffer :=
  fst c ++ le_bytes 4 (size_of (snd c)) ++ snd c
    ++ (if N.odd (size_of (snd c)) then [x00] else []).

Definition chunks_bytes (cs : list (Buffer * Buffer)) : Buffer :=
  flat_map chunk_bytes cs.

(** A chunk that is neither the format chunk nor the data chunk. *)
Definition other_chunk (c : Buffer * Buffer) : Prop :=
  List.length (fst c) = 4%nat
  /\ fst c <> list_byte_of_string "fmt "
  /\ fst c <> list_byte_of_string "data"
  /\ blen (snd c) < 2 ^ 32.

(** The encoding tag of a format chunk: its first 16-bit field. *)
Definition fmt_tag (fmt : Buffer) : N := le_value (firstn 2 fmt).

(** A RIFF/WAVE buffer: the 12-byte header with any size field [sz], some
    chunks, the format chunk, some chunks, then the header of the data
    chunk, its body [X] and whatever follows. *)
Definition wav_bytes (sz : Buffer) (pre : list (Buffer * Buffer)) (fmt : Buffer)
    (mid : list (Buffer * Buffer)) (X post : Buffer) : Buffer :=
  list_byte_of_string "RIFF" ++ sz ++ list_byte_of_string "WAVE"
    ++ chunks_bytes pre
    ++ chunk_bytes (list_byte_of_string "fmt ", fmt)
    ++ chunks_bytes mid
    ++ list_byte_of_string "data" ++ le_bytes 4 (size_of X) ++ X ++ post.

(** A RIFF/WAVE buffer without format and data chunks, ending in fewer
    bytes than a chunk header. *)
Definition wav_without_data (sz : Buffer) (cs : list (Buffer * Buffer))
    (tail : Buffer) : Buffer :=
  list_byte_of_string "RIFF" ++ sz ++ list_byte_of_string "WAVE"
    ++ chunks_bytes cs ++ tail.

Definition starts_with (sig b : Buffer) : Prop := exists rest, b = sig ++ rest.

(** An ID3 tag, or the frame sync of an MPEG audio frame: eleven set bits. *)
Definition mp3_signature (b : Buffer) : Prop :=
  starts_with (list_byte_of_string "ID3") b
  \/ exists b0 b1 rest,
       b = b0 :: b1 :: rest
       /\ Byte.to_N b0 = 255%N
       /\ N.land (Byte.to_N b1) 224 = 224%N.

Definition ogg_signature (b : Buffer) : Prop :=
  starts_with (list_byte_of_string "OggS") b.

(** [msg.k] of a message that is not [null]. *)
Definition field (msg : jsval) (k : string) : jsval :=
  match get msg k with
  | Return v => v
  | Throw _ => JUndefined
  end.

(** The shapes of an initiation-metadata message: the type tag, the event
    tag, or a metadata payload on the envelope under either name. *)
Definition initiation_shape (msg : jsval) : bool :=
  is_str (field msg "type") "conversation_initiation_metadata"
  || is_str (field msg "event") "conversation_initiation_metadata"
  || truthy (field msg "conversation_initiation_metadata")
  || truthy (field msg "conversation_initiation_metadata_event").

(** The two audio formats of the metadata of a message, which the callback
    writes to the log when one of them is present. *)
Definition logged_formats (msg : jsval) : list jsval :=
  let meta :=
    js_or (js_or (field msg "conversation_initiation_metadata")
                 (field msg "conversation_initiation_metadata_event"))
          (JObj []) in
  let f1 := field meta "agent_output_audio_format" in
  let f2 := field meta "user_input_audio_format" in
  if truthy f1 || truthy f2 then [f1; f2] else [].

Definition all_truthy (q : list jsval) : Prop :=
  Forall (fun v => truthy v = true) q.

Definition is_failure (r : outcome EnsureResult) : Prop :=
  r = Return (EnsureFail ReasonMp3Container)
  \/ r = Return (EnsureFail ReasonOggContainer).

(** A relation between the state before and the state after that a
    computation keeps, whatever it returns or throws. *)
Definition preserves {A} (R : Session -> Session -> Prop) (m : M A) : Prop :=
  forall s, R s (fst (m s)).

Record preorder (R : Session -> Session -> Prop) : Prop := mkPreorder {
  pre_refl : forall s, R s s;
  pre_trans : forall a b c, R a b -> R b c -> R a c
}.

(** The relations used below: the readiness flag is the same, the whole
    session is the same, a queue of frames stays a queue of frames, nothing
    more has gone to the telephony socket. *)
Definition ready_kept (s s' : Session) : Prop := convoReady s' = convoReady s.

Definition unchanged (s s' : Session) : Prop := s' = s.

Definition queue_kept (s s' : Session) : Prop :=
  all_truthy (outQueue s) -> all_truthy (outQueue s').

Definition twilio_kept (s s' : Session) : Prop := toTwilio s' = toTwilio s.

(** ** A concrete session *)

Module Demo.

(** [Buffer.from] is given no array and no object in the examples. *)
Definition no_array_like (v : jsval) : outcome Buffer :=
  Throw (TypeError "The first argument must be of type string or an instance of Buffer").

Definition frameA : jsval := JStr (Base64.encode (repeat x01 160)).
Definition frameB : jsval := JStr (Base64.encode (repeat x02 160)).
Definition frameC : jsval := JStr (Base64.encode (repeat x03 80)).

(** After [start] with [streamSid = "CA123"], both sockets open, the gate
    closed, three frames queued. *)
Definition streaming : Session :=
  set_outQueue [frameA; frameB; frameC]
    (set_pacerTimer true
       (set_streamSid (JStr "CA123")
          (set_elevenLabsWs (Some OPEN)
             (initial (JStr "2025-01-01") (JStr "10:00") (JStr "Caller") (JStr ""))))).

Definition ready : Session := set_convoReady true streaming.

(** [{"type":"interruption"}] *)
Definition interruption : jsval := JObj [("type", JStr "interruption")]%string.

(** [{"type":"conversation_initiation_metadata",
      "conversation_initiation_metadata_event":{"agent_output_audio_format":"ulaw_8000"}}] *)
Definition initiation : jsval :=
  JObj [("type", JStr "conversation_initiation_metadata");
        ("conversation_initiation_metadata_event",
          JObj [("agent_output_audio_format", JStr "ulaw_8000")])]%string.

(** [{"event":"media","media":{"payload":"AQID"}}] *)
Definition media : jsval :=
  JObj [("event", JStr "media");
        ("media", JObj [("payload", JStr "AQID")])]%string.

(** [{"event":"start","start":{"streamSid":"CA123",
      "mediaFormat":{"encoding":"audio/x-mulaw","sampleRate":8000,"channels":1}}}] *)
Definition start : jsval :=
  JObj [("event", JStr "start");
        ("start",
          JObj [("streamSid", JStr "CA123");
                ("mediaFormat",
                  JObj [("encoding", JStr "audio/x-mulaw");
                        ("sampleRate", JNum 8000);
                        ("channels", JNum 1)])])]%string.

(** An agent message that carries 400 raw bytes. *)
Definition audio400 : jsval :=
  JObj [("type", JStr "audio");
        ("audio_event",
          JObj [("audio_base_64", JStr (Base64.encode (repeat x55 400)))])]%string.

(** [{"event":"stop","streamSid":"CA123"}] *)
Definition stop : jsval :=
  JObj [("event", JStr "stop"); ("streamSid", JStr "CA123")]%string.

(** A format chunk: mu-law (7), one channel, 8000 Hz, 8 bits per sample. *)
Definition fmt_ulaw : Buffer :=
  [x07; x00; x01; x00; x40; x1f; x00; x00; x40; x1f; x00; x00; x01; x00; x08; x00].

(** The same with tag 1 (linear PCM). *)
Definition fmt_pcm : Buffer :=
  [x01; x00; x01; x00; x40; x1f; x00; x00; x40; x1f; x00; x00; x01; x00; x08; x00].

Definition fact : Buffer * Buffer :=
  (list_byte_of_string "fact", [x03; x00; x00; x00]).

Definition samples : Buffer := [x11; x22; x33].

Definition riff_size : Buffer := [x32; x00; x00; x00].

Definition wav_ulaw : Buffer := wav_bytes riff_size [] fmt_ulaw [fact] samples [x00].
Definition wav_pcm : Buffer := wav_bytes riff_size [] fmt_pcm [fact] samples [x00].

(** A RIFF/WAVE header followed by a [fact] chunk only. *)
Definition wav_headless : Buffer := wav_without_data riff_size [fact] [].

(** Two bytes, [ff e0]: eleven set bits and nothing more. *)
Definition sync_only : string := "/+A=".

(** [ff fb 90 00]: the start of an MPEG audio frame. *)
Definition mp3_frame : string := "//uQAA==".

End Demo.

(** ** The mu-law encoder of the beep generator ([src/index.js]) *)

Definition BIAS : Z := 132.
Definition CLIP : Z := 32635.

(** [for (let expMask = 0x4000; (sample & expMask) === 0 && exponent > 0;
         expMask >>= 1) exponent--;] *)
Fixpoint exponent_loop (exponent : nat) (expMask sample : Z) : nat :=
  match exponent with
  | O => O
  | S exponent' =>
      if Z.land sample expMask =? 0
      then exponent_loop exponent' (Z.shiftr expMask 1) sample
      else exponent
  end.

(** [linearToMuLawSample(sample)], for a sample read from an [Int16Array]. *)
Definition linearToMuLawSample (sample : Z) : Z :=
  let sign := Z.land (Z.shiftr sample 8) 128 in
  let sample := if sign =? 0 then sample else - sample in
  let sample := if sample >? CLIP then CLIP else sample in
  let sample := sample + BIAS in
  let exponent := Z.of_nat (exponent_loop 7 16384 sample) in
  let mantissa := Z.land (Z.shiftr sample (exponent + 3)) 15 in
  Z.land (Z.lnot (Z.lor (Z.lor sign (Z.shiftl exponent 4)) mantissa)) 255.

(** The integers [lo], [lo + 1], ..., [lo + n - 1]. *)
Fixpoint Zrange (lo : Z) (n : nat) : list Z :=
  match n with
  | O => []
  | S n' => lo :: Zrange (lo + 1) n'
  end.

(** The values an [Int16Array] holds. *)
Definition int16 (s : Z) : Prop := -32768 <= s <= 32767.

(** ** More shapes, for the statements about the rest of the code *)

(** The 12-byte header of a RIFF/WAVE buffer, with any size field. *)
Definition riff_wave (sz : Buffer) : Buffer :=
  list_byte_of_string "RIFF" ++ sz ++ list_byte_of_string "WAVE".

(** A RIFF/WAVE buffer whose data chunk comes before its format chunk. *)
Definition wav_data_first (sz : Buffer) (pre : list (Buffer * Buffer)) (X : Buffer)
    (mid : list (Buffer * Buffer)) (fmt post : Buffer) : Buffer :=
  riff_wave sz ++ chunks_bytes pre
    ++ chunk_bytes (list_byte_of_string "data", X)
    ++ chunks_bytes mid
    ++ list_byte_of_string "fmt " ++ le_bytes 4 (size_of fmt) ++ fmt ++ post.

(** A RIFF/WAVE buffer whose data header declares [n] bytes, whatever the
    number of bytes [rest] that follow it. *)
Definition wav_declared (sz : Buffer) (pre : list (Buffer * Buffer)) (fmt : Buffer)
    (mid : list (Buffer * Buffer)) (n : N) (rest : Buffer) : Buffer :=
  riff_wave sz ++ chunks_bytes pre
    ++ chunk_bytes (list_byte_of_string "fmt ", fmt)
    ++ chunks_bytes mid
    ++ list_byte_of_string "data" ++ le_bytes 4 n ++ rest.

(** A RIFF/WAVE buffer with a data chunk and no format chunk. *)
Definition wav_without_fmt (sz : Buffer) (pre : list (Buffer * Buffer)) (X : Buffer)
    (post : list (Buffer * Buffer)) (tail : Buffer) : Buffer :=
  riff_wave sz ++ chunks_bytes pre
    ++ chunk_bytes (list_byte_of_string "data", X)
    ++ chunks_bytes post ++ tail.

(** A RIFF/WAVE buffer that ends inside its format chunk: the header of the
    chunk declares [n] bytes and [body] is all that is left. *)
Definition wav_short_fmt (sz : Buffer) (pre : list (Buffer * Buffer)) (n : N)
    (body : Buffer) : Buffer :=
  riff_wave sz ++ chunks_bytes pre
    ++ list_byte_of_string "fmt " ++ le_bytes 4 n ++ body.

(** [needle] does not occur in [b] at any index below [k]. *)
Definition absent_before (needle b : Buffer) (k : nat) : Prop :=
  forall i, (i < k)%nat -> is_prefix needle (skipn i b) = false.

(** No counter has gone down. *)
Definition stats_le (a b : Stats) : Prop :=
  twilioMediaInFrames a <= twilioMediaInFrames b
  /\ forwardedToELBytes a <= forwardedToELBytes b
  /\ elAudioFrames a <= elAudioFrames b
  /\ forwardedToTwilioBytes a <= forwardedToTwilioBytes b.

Definition stats_grow (s s' : Session) : Prop := stats_le (stats s) (stats s').

(** Nothing more has gone to the agent socket. *)
Definition agent_kept (s s' : Session) : Prop := toAgent s' = toAgent s.

(** Only the readiness flag, the queue and the counters may differ. *)
Definition sockets_kept (s s' : Session) : Prop :=
  toTwilio s' = toTwilio s
  /\ toAgent s' = toAgent s
  /\ agentCloseCalls s' = agentCloseCalls s
  /\ streamSid s' = streamSid s
  /\ pacerTimer s' = pacerTimer s
  /\ elReadyFallbackTimer s' = elReadyFallbackTimer s
  /\ elevenLabsWs s' = elevenLabsWs s
  /\ connection s' = connection s.

(** ** More concrete messages *)

Module Sample.

(** [{"type":"ping","ping_event":{"event_id":7}}] *)
Definition ping : jsval :=
  JObj [("type", JStr "ping"); ("ping_event", JObj [("event_id", JNum 7)])]%string.

(** [{"event":"dtmf","dtmf":{"digit":"1"}}] *)
Definition dtmf : jsval :=
  JObj [("event", JStr "dtmf"); ("dtmf", JObj [("digit", JStr "1")])]%string.

(** [{"event":"start"}] *)
Definition start_without_body : jsval := JObj [("event", JStr "start")]%string.

(** [{"event":"media"}] *)
Definition media_without_body : jsval := JObj [("event", JStr "media")]%string.

(** [{"type":"audio","audio_event":{"audio_base_64": ...}}] *)
Definition audio (b64 : string) : jsval :=
  JObj [("type", JStr "audio");
        ("audio_event", JObj [("audio_base_64", JStr b64)])]%string.

(** A session in which the agent socket is still connecting. *)
Definition connecting : Session :=
  set_convoReady true
    (set_streamSid (JStr "CA123")
       (initial (JStr "2025-01-01") (JStr "10:00") (JStr "Caller") (JStr ""))).

(** A session whose telephony socket is closing, with frames left. *)
Definition closing : Session := set_connection CLOSING Demo.streaming.

(** The data chunk first, then the format chunk. *)
Definition wav_reordered : Buffer :=
  wav_data_first Demo.riff_size [] Demo.samples [Demo.fact] Demo.fmt_ulaw [].

(** A data header that declares [0xffffffff] bytes, as a streamed file does. *)
Definition wav_streamed : Buffer :=
  wav_declared Demo.riff_size [] Demo.fmt_ulaw [] 4294967295 Demo.samples.

Definition wav_fmtless : Buffer :=
  wav_without_fmt Demo.riff_size [] Demo.samples [Demo.fact] [].

(** A format chunk cut after its first fourteen bytes. *)
Definition wav_cut : Buffer :=
  wav_short_fmt Demo.riff_size [Demo.fact] 16 (firstn 14 Demo.fmt_ulaw).

End Sample.

Section Relay.

Set Default Proof Using "Type".

(** [Buffer.from(s, "base64")] and [buf.toString("base64")] on strings and
    buffers, and [Buffer.from(v, "base64")] on an array or an object. *)
Variable from_base64 : string -> Buffer.
Variable to_base64 : Buffer -> string.
Variable from_array_like : jsval -> outcome Buffer.

(** [Buffer.from(v, "base64")] *)
Definition Buffer_from (v : jsval) : outcome Buffer :=
  match v with
  | JStr s => Return (from_base64 s)
  | JArr _ | JObj _ => from_array_like v
  | _ => Throw (TypeError "The first argument must be of type string or an instance of Buffer")
  end.

(** *** [ensureRawUlawBase64] (the variant in [part_000]) *)

Definition ensureRawUlawBase64 (inB64 : jsval) : outcome EnsureResult :=
  if negb (truthy inB64) then Return (EnsureFail ReasonEmpty)
  else
    (let? buf := Buffer_from inB64 in
     if (12 <=? blen buf)
        && is_ascii (subarray buf 0 4) "RIFF"
        && is_ascii (subarray buf 8 12) "WAVE"
     then
       (let? info := parseWavAndExtractData buf in
        if negb (is_num (audioFormat info) 7)
        then Return (EnsureFail (ReasonWavNotUlaw (audioFormat info)))
        else Return (EnsureOk (JStr (to_base64 (data info))) NoteStrippedWav))
     else if (3 <=? blen buf)
             && (is_ascii (subarray buf 0 3) "ID3"
                 || (byte_is buf 0 255 && byte_and_is buf 1 224 224))
     then Return (EnsureFail ReasonMp3Container)
     else if (4 <=? blen buf) && is_ascii (subarray buf 0 4) "OggS"
     then Return (EnsureFail ReasonOggContainer)
     else Return (EnsureOk inB64 NoteRaw))%outcome.

(** *** Pacer *)

(** [outQueue.shift()] *)
Definition queue_shift : M jsval :=
  fun s =>
    match outQueue s with
    | [] => (s, Return JUndefined)
    | x :: rest => (set_outQueue rest s, Return x)
    end.

(** The callback of the interval set by [startPacer]. *)
Definition pacer_tick : M unit :=
  try_catch
    (c <- gets connection ;;
     if negb (is_open c) then ret tt
     else
       sid <- gets streamSid ;;
       if negb (truthy sid) then ret tt
       else
         b64 <- queue_shift ;;
         if negb (truthy b64) then ret tt
         else
           q' <- gets outQueue ;;
           log_template [sid; JNum (Z.of_nat (List.length q'))] ;;
           twilio_send (media_message sid b64) ;;
           buf <- lift (Buffer_from b64) ;;
           modify (add_forwardedToTwilioBytes (blen buf))).

Definition startPacer : M unit :=
  t <- gets pacerTimer ;;
  if t then ret tt else modify (set_pacerTimer true).

Definition stopPacer : M unit :=
  t <- gets pacerTimer ;;
  if negb t then ret tt else modify (set_pacerTimer false).

(** *** Agent audio into the queue *)

Definition enqueueELBase64 (elBase64 : jsval) : M unit :=
  buf <- lift (Buffer_from elBase64) ;;
  let buf := stripWaveIfNeeded buf in
  modify (fun s =>
    set_outQueue
      (outQueue s ++ map (fun frame => JStr (to_base64 frame)) (packetize buf)) s).

(** *** The agent socket *)

(** [elevenLabsWs.on("open", ...)] *)
Definition on_agent_open : M unit :=
  d <- gets DateVar ;; t <- gets TimeVar ;; n <- gets NameVar ;; c <- gets ContactVar ;;
  agent_send
    (wire [("type", JStr "conversation_initiation_client_data");
           ("dynamic_variables",
             wire [("Date", d); ("Time", t); ("Name", n); ("Contact_Details", c)])]%string).

(** The test of the first [if] of the message callback, after
    [!convoReady]. *)
Definition is_initiation_metadata (msg : jsval) : M bool :=
  t <- lift (get msg "type") ;;
  if is_str t "conversation_initiation_metadata" then ret true
  else
    e <- lift (get msg "event") ;;
    if is_str e "conversation_initiation_metadata" then ret true
    else
      m1 <- lift (get msg "conversation_initiation_metadata") ;;
      if truthy m1 then ret true
      else
        m2 <- lift (get msg "conversation_initiation_metadata_event") ;;
        ret (truthy m2).

(** The chain of tests that picks the audio payload of a message; [null]
    when there is none. *)
Definition pick_audio (msg : jsval) : M jsval :=
  t <- lift (get msg "type") ;;
  ae <- (if is_str t "audio" then lift (get msg "audio_event") else ret JUndefined) ;;
  a64 <- (if is_str t "audio" && truthy ae
          then lift (get ae "audio_base_64") else ret JUndefined) ;;
  if is_str t "audio" && truthy ae && truthy a64 then ret a64
  else
    chunk <- lift (get msg "agent_audio_chunk") ;;
    if truthy chunk then ret chunk
    else
      ab <- lift (get msg "audio_base64") ;;
      if truthy ab then ret ab
      else
        au <- lift (get msg "audio") ;;
        if negb (truthy au) then ret JNull
        else
          ch <- lift (get au "chunk") ;;
          b <- lift (get au "base64") ;;
          if truthy ch || truthy b then ret (js_or ch b) else ret JNull.

(** The result of [JSON.parse(text)], which throws on a text that does
    not parse. *)
Definition JSON_parse (parsed : option jsval) : M jsval :=
  match parsed with
  | Some v => ret v
  | None => throw (SyntaxError "Unexpected token in JSON")
  end.

(** Part 1 of the message callback: mark the conversation ready on
    initiation metadata. *)
Definition mark_ready_on_metadata (msg : jsval) : M unit :=
  ready <- gets convoReady ;;
  recognised <- (if ready then ret false else is_initiation_metadata msg) ;;
  when recognised
    (m1 <- lift (get msg "conversation_initiation_metadata") ;;
     m2 <- lift (get msg "conversation_initiation_metadata_event") ;;
     let meta := js_or (js_or m1 m2) (JObj []) in
     f1 <- lift (get meta "agent_output_audio_format") ;;
     f2 <- lift (get meta "user_input_audio_format") ;;
     when (truthy f1 || truthy f2) (log_template [f1; f2]) ;;
     modify (set_convoReady true)).

(** Part 2 of the message callback: extract the audio and enqueue it for
    the pacer. *)
Definition enqueue_agent_audio (msg : jsval) : M unit :=
  b64 <- pick_audio msg ;;
  when (truthy b64)
    (modify bump_elAudioFrames ;;
     enqueueELBase64 b64).

(** [elevenLabsWs.on("message", ...)] *)
Definition on_agent_message (parsed : option jsval) : M unit :=
  try_catch
    (msg <- JSON_parse parsed ;;
     mark_ready_on_metadata msg ;;
     enqueue_agent_audio msg).

(** The callback of [elReadyFallbackTimer]. *)
Definition on_ready_timeout : M unit :=
  ready <- gets convoReady ;;
  when (negb ready) (modify (set_convoReady true)).

(** [handleElevenLabsMessage]: defined in the handler, called by none of
    its callbacks. *)
Definition handleElevenLabsMessage (message : jsval) : M unit :=
  t <- lift (get message "type") ;;
  if is_str t "conversation_initiation_metadata" then
    m <- lift (get message "conversation_initiation_metadata_event") ;;
    let meta := js_or m (JObj []) in
    f1 <- lift (get meta "agent_output_audio_format") ;;
    f2 <- lift (get meta "user_input_audio_format") ;;
    log_template [f1; f2] ;;
    modify (set_convoReady true)
  else if is_str t "audio" then
    ae <- lift (get message "audio_event") ;;
    b64 <- lift (get_opt ae "audio_base_64") ;;
    if negb (truthy b64) then ret tt
    else
      modify bump_elAudioFrames ;;
      buf <- lift (Buffer_from b64) ;;
      modify (add_forwardedToTwilioBytes (blen buf)) ;;
      sid <- gets streamSid ;;
      if negb (truthy sid) then modify (fun s => set_outQueue (outQueue s ++ [b64]) s)
      else twilio_send (media_message sid b64)
  else if is_str t "interruption" then
    sid <- gets streamSid ;;
    twilio_send (clear_message sid)
  else if is_str t "ping" then
    pe <- lift (get message "ping_event") ;;
    id <- lift (get_opt pe "event_id") ;;
    when (truthy id)
      (agent_send (wire [("type", JStr "pong"); ("event_id", id)]%string))
  else ret tt.

(** *** The telephony socket *)

(** [convoReady && elevenLabsWs && elevenLabsWs.readyState === WebSocket.OPEN] *)
Definition gate_open (s : Session) : bool :=
  convoReady s &&
  match elevenLabsWs s with
  | Some r => is_open r
  | None => false
  end.

(** [case "media"] *)
Definition on_media (data : jsval) : M unit :=
  g1 <- gets gate_open ;;
  when g1
    (m <- lift (get data "media") ;;
     p <- lift (get m "payload") ;;
     buf <- lift (Buffer_from p) ;;
     agent_send (user_audio_message (to_base64 buf))) ;;
  g2 <- gets gate_open ;;
  when g2
    (modify bump_twilioMediaInFrames ;;
     m <- lift (get data "media") ;;
     p <- lift (get m "payload") ;;
     buf <- lift (Buffer_from p) ;;
     modify (add_forwardedToELBytes (blen buf)) ;;
     agent_send (user_audio_message (to_base64 buf))).

(** [case "start"] *)
Definition on_start (data : jsval) : M unit :=
  st <- lift (get data "start") ;;
  sid <- lift (get st "streamSid") ;;
  modify (set_streamSid sid) ;;
  st' <- lift (get data "start") ;;
  mf <- lift (get st' "mediaFormat") ;;
  let fmt := js_or mf (JObj []) in
  enc <- lift (get fmt "encoding") ;;
  rate <- lift (get fmt "sampleRate") ;;
  ch <- lift (get fmt "channels") ;;
  log_template [sid; enc; rate; ch] ;;
  startPacer.

(** [case "stop"] *)
Definition on_stop (data : jsval) : M unit :=
  stopPacer ;;
  sid <- lift (get data "streamSid") ;;
  log_template [sid].

(** [connection.on("message", ...)] *)
Definition on_twilio_message (parsed : option jsval) : M unit :=
  try_catch
    (data <- JSON_parse parsed ;;
     ev <- lift (get data "event") ;;
     if is_str ev "start" then on_start data
     else if is_str ev "media" then on_media data
     else if is_str ev "stop" then on_stop data
     else log_template [ev]).

(** The two [connection.on("close", ...)] callbacks. *)
Definition on_twilio_close : M unit :=
  modify (set_statsTimer false) ;;
  stopPacer.

(** [connection.on("error", ...)] *)
Definition on_twilio_error : M unit :=
  w <- gets elevenLabsWs ;;
  match w with
  | Some _ => modify (fun s => set_agentCloseCalls (S (agentCloseCalls s)) s)
  | None => ret tt
  end.

(** *** One event *)

(** A timer callback runs only while its timer is set. *)
Definition step (s : Session) (e : event) : Session :=
  match e with
  | AgentOpen => run on_agent_open s
  | AgentMessage parsed => run (on_agent_message parsed) s
  | AgentReadyTimeout =>
      if elReadyFallbackTimer s
      then run on_ready_timeout (set_elReadyFallbackTimer false s)
      else s
  | AgentError | AgentClose => set_elReadyFallbackTimer false s
  | AgentReadyState r =>
      match elevenLabsWs s with
      | Some _ => set_elevenLabsWs (Some r) s
      | None => s
      end
  | TwilioMessage parsed => run (on_twilio_message parsed) s
  | TwilioClose => run on_twilio_close s
  | TwilioError => run on_twilio_error s
  | TwilioReadyState r => set_connection r s
  | PacerTick => if pacerTimer s then run pacer_tick s else s
  end.

Definition steps (s : Session) (es : list event) : Session := fold_left step es s.

(** [n] consecutive runs of the pacer callback. *)
Fixpoint ticks (n : nat) (s : Session) : Session :=
  match n with
  | O => s
  | S n' => ticks n' (run pacer_tick s)
  end.

(** [Buffer.from(data.media.payload, "base64")], as both blocks of
    [case "media"] evaluate it. *)
Definition media_payload (data : jsval) : outcome Buffer :=
  (let? m := get data "media" in
   let? p := get m "payload" in
   Buffer_from p)%outcome.

(** *** The agent callback of the variant in [part_000] *)

(** [logFirstChunkInfo(b64)].  The module-level flag [__loggedFirstChunk] is
    the argument [logged]; the call leaves it set. *)
Definition logFirstChunkInfo (logged : bool) (b64 : jsval) : M unit :=
  if logged then ret tt
  else (buf <- lift (Buffer_from (js_or b64 (JStr EmptyString))) ;; ret tt).

(** The [connection.send] calls of a loop, one per message. *)
Fixpoint send_each (msgs : list jsval) : M unit :=
  match msgs with
  | [] => ret tt
  | m :: rest => twilio_send m ;; send_each rest
  end.

(** [handleElevenLabsMessage] of that variant: the normalizer, then one
    media message per 160-byte frame, sent at once. *)
Definition handleElevenLabsMessage_part000 (logged : bool) (message : jsval) : M unit :=
  t <- lift (get message "type") ;;
  if is_str t "conversation_initiation_metadata" then modify (set_convoReady true)
  else if is_str t "audio" then
    ae <- lift (get message "audio_event") ;;
    b64In <- lift (get_opt ae "audio_base_64") ;;
    if negb (truthy b64In) then ret tt
    else
      logFirstChunkInfo logged b64In ;;
      ensured <- lift (ensureRawUlawBase64 b64In) ;;
      match ensured with
      | EnsureFail _ => ret tt
      | EnsureOk b64 _ =>
          raw <- lift (Buffer_from b64) ;;
          sid <- gets streamSid ;;
          send_each
            (map (fun chunk => media_message sid (JStr (to_base64 chunk)))
               (packetize raw))
      end
  else ret tt.

(** [elevenLabsWs.on("message", ...)] of that variant. *)
Definition on_agent_message_part000 (logged : bool) (parsed : option jsval) : M unit :=
  try_catch
    (message <- JSON_parse parsed ;;
     handleElevenLabsMessage_part000 logged message).

(** *** What the pacer is given and what it sends *)

(** A queue entry made by the packetizer: the base64 text of a frame of 1 to
    [FRAME_BYTES] bytes. *)
Definition framed (v : jsval) : Prop :=
  exists f, v = JStr (to_base64 f) /\ 1 <= blen f <= FRAME_BYTES.

(** A media message that carries such a frame. *)
Definition framed_media (m : jsval) : Prop :=
  exists sid v, m = media_message sid v /\ framed v.

Definition paced (s : Session) : Prop :=
  Forall framed (outQueue s) /\ Forall framed_media (toTwilio s).

Definition paced_kept (s s' : Session) : Prop := paced s -> paced s'.

(** The readiness flag and its timer are as they were. *)
Definition gate_kept (s s' : Session) : Prop :=
  convoReady s' = convoReady s
  /\ elReadyFallbackTimer s' = elReadyFallbackTimer s.

(** * Properties *)

(** ** Buffers *)

Lemma blen_nonneg (b : Buffer) : 0 <= blen b.
Proof. unfold blen. lia. Qed.

Lemma blen_app (a b : Buffer) : blen (a ++ b) = blen a + blen b.
Proof. unfold blen. rewrite length_app. lia. Qed.

Lemma norm_index_nonneg (b : Buffer) (i : Z) :
  0 <= i -> norm_index b i = Z.to_nat (Z.min i (blen b)).
Proof.
  intros Hi. unfold norm_index.
  destruct (Z.ltb_spec i 0); [lia | reflexivity].
Qed.

Lemma subarray_nonneg (b : Buffer) (s e : Z) :
  0 <= s -> 0 <= e ->
  subarray b s e =
  firstn (Z.to_nat (Z.min e (blen b)) - Z.to_nat (Z.min s (blen b)))
    (skipn (Z.to_nat (Z.min s (blen b))) b).
Proof.
  intros Hs He. unfold subarray. now rewrite !norm_index_nonneg.
Qed.

(** The slice that covers exactly the middle part of a buffer. *)
Lemma subarray_middle (a x c : Buffer) (s e : Z) :
  s = blen a -> e = blen a + blen x -> subarray (a ++ x ++ c) s e = x.
Proof.
  intros -> ->. pose proof (blen_nonneg a). pose proof (blen_nonneg x).
  pose proof (blen_nonneg c).
  rewrite subarray_nonneg by lia. rewrite !blen_app.
  replace (Z.to_nat (Z.min (blen a) (blen a + (blen x + blen c))))
    with (List.length a) by (unfold blen in *; lia).
  replace (Z.to_nat (Z.min (blen a + blen x) (blen a + (blen x + blen c))) - List.length a)%nat
    with (List.length x) by (unfold blen in *; lia).
  rewrite skipn_app, skipn_all, Nat.sub_diag. simpl.
  rewrite firstn_app, firstn_all, Nat.sub_diag. simpl. apply app_nil_r.
Qed.

Lemma subarray_prefix (x c : Buffer) (e : Z) :
  e = blen x -> subarray (x ++ c) 0 e = x.
Proof.
  intros ->. apply (subarray_middle [] x c); reflexivity.
Qed.

Lemma bytes_eqb_eq (a b : Buffer) : bytes_eqb a b = true <-> a = b.
Proof.
  revert b. induction a as [|x a IH]; intros [|y b]; simpl; split; intros H;
    try reflexivity; try discriminate.
  - apply andb_true_iff in H as [Hx Hr].
    apply Byte.byte_dec_bl in Hx. apply IH in Hr. now subst.
  - injection H as -> ->. apply andb_true_iff. split.
    + now apply Byte.byte_dec_lb.
    + now apply IH.
Qed.

Lemma is_ascii_spec (b : Buffer) (lit : string) :
  is_ascii b lit = true <-> b = list_byte_of_string lit.
Proof. apply bytes_eqb_eq. Qed.

(** ** The packetizer *)

Lemma frames_from_past_end (buf : Buffer) (i : Z) :
  blen buf <= i -> frames_from buf i = [].
Proof.
  intros H. rewrite frames_from_equation_1.
  destruct (Z_lt_dec i (blen buf)); [lia | reflexivity].
Qed.

Lemma frames_from_step (buf : Buffer) (i : Z) :
  i < blen buf ->
  frames_from buf i =
  subarray buf i (Z.min (i + FRAME_BYTES) (blen buf))
    :: frames_from buf (i + FRAME_BYTES).
Proof.
  intros H. rewrite frames_from_equation_1 at 1.
  destruct (Z_lt_dec i (blen buf)); [reflexivity | lia].
Qed.

Lemma frame_at (buf : Buffer) (i : Z) :
  0 <= i < blen buf ->
  subarray buf i (Z.min (i + FRAME_BYTES) (blen buf)) =
  firstn (Z.to_nat (Z.min FRAME_BYTES (blen buf - i))) (skipn (Z.to_nat i) buf).
Proof.
  intros H. unfold FRAME_BYTES. rewrite subarray_nonneg by lia.
  f_equal; [lia | f_equal; lia].
Qed.

Lemma frame_at_length (buf : Buffer) (i : Z) :
  0 <= i < blen buf ->
  blen (subarray buf i (Z.min (i + FRAME_BYTES) (blen buf))) =
  Z.min FRAME_BYTES (blen buf - i).
Proof.
  intros H. rewrite frame_at by assumption. unfold blen in *.
  rewrite length_firstn, length_skipn. unfold FRAME_BYTES. lia.
Qed.

Lemma frames_from_concat (buf : Buffer) (i : Z) :
  0 <= i -> List.concat (frames_from buf i) = skipn (Z.to_nat i) buf.
Proof.
  funelim (frames_from buf i); intros Hi.
  - simpl.
    rewrite H by (unfold FRAME_BYTES; lia).
    rewrite frame_at by lia.
    destruct (Z_lt_dec (i + FRAME_BYTES) (blen buf)) as [Hlt|Hge].
    + replace (Z.to_nat (Z.min FRAME_BYTES (blen buf - i)))
        with (Z.to_nat FRAME_BYTES) by lia.
      replace (Z.to_nat (i + FRAME_BYTES))
        with (Z.to_nat FRAME_BYTES + Z.to_nat i)%nat by (unfold FRAME_BYTES; lia).
      rewrite <- skipn_skipn. apply firstn_skipn.
    + rewrite (@skipn_all2 _ (Z.to_nat (i + FRAME_BYTES)) buf)
        by (unfold blen, FRAME_BYTES in *; lia).
      rewrite app_nil_r. apply firstn_all2.
      rewrite length_skipn. unfold blen, FRAME_BYTES in *. lia.
  - simpl. symmetry. apply skipn_all2. unfold blen in *. lia.
Qed.

Lemma frames_from_length (buf : Buffer) (i : Z) :
  0 <= i ->
  Z.of_nat (List.length (frames_from buf i)) =
  (Z.max 0 (blen buf - i) + FRAME_BYTES - 1) / FRAME_BYTES.
Proof.
  clear to_base64 from_base64.
  funelim (frames_from buf i); intros Hi.
  - simpl List.length.
    rewrite Nat2Z.inj_succ, H by (unfold FRAME_BYTES; lia).
    unfold FRAME_BYTES. Z.div_mod_to_equations. lia.
  - simpl.
    unfold FRAME_BYTES. Z.div_mod_to_equations. lia.
Qed.

Lemma frames_from_shape (buf : Buffer) (i : Z) :
  0 <= i -> frames_shape (frames_from buf i).
Proof.
  funelim (frames_from buf i); intros Hi.
  - assert (IH : frames_shape (frames_from buf (i + FRAME_BYTES)))
      by (apply H; unfold FRAME_BYTES; lia).
    destruct (Z_lt_dec (i + FRAME_BYTES) (blen buf)) as [Hlt|Hge].
    + rewrite (frames_from_step buf (i + FRAME_BYTES)) in IH |- * by assumption.
      split; [| exact IH].
      rewrite frame_at_length by lia. lia.
    + rewrite frames_from_past_end by lia. simpl.
      rewrite frame_at_length by lia. unfold FRAME_BYTES in *. lia.
  - exact I.
Qed.

Lemma frames_shape_nth (l : list Buffer) (k : nat) :
  frames_shape l -> (S k < List.length l)%nat -> blen (nth k l []) = FRAME_BYTES.
Proof.
  revert k. induction l as [|x [|y rest] IH]; intros k Hs Hk; simpl in Hk; try lia.
  destruct Hs as [Hx Hrest]. destruct k as [|k]; [exact Hx |].
  apply (IH k Hrest). simpl. lia.
Qed.

Lemma frames_shape_In (l : list Buffer) (f : Buffer) :
  frames_shape l -> In f l -> 1 <= blen f <= FRAME_BYTES.
Proof.
  induction l as [|x [|y rest] IH]; intros Hs Hin.
  - destruct Hin.
  - destruct Hin as [<- | []]. exact Hs.
  - destruct Hs as [Hx Hrest]. destruct Hin as [<- | Hin].
    + unfold FRAME_BYTES in *. lia.
    + now apply IH.
Qed.

Lemma packetize_In (buf f : Buffer) :
  In f (packetize buf) -> 1 <= blen f <= FRAME_BYTES.
Proof.
  apply frames_shape_In, frames_from_shape. lia.
Qed.

(** C2.  Slicing a buffer of length L into frames of FRAME_BYTES = 160
    bytes gives ceil(L / 160) frames, whose concatenation in order is the
    buffer; every frame before the last has 160 bytes, and every frame has
    between 1 and 160 bytes, so only the last one can be shorter. *)
Theorem packetize_frames (buf : Buffer) :
  Z.of_nat (List.length (packetize buf)) = (blen buf + FRAME_BYTES - 1) / FRAME_BYTES
  /\ List.concat (packetize buf) = buf
  /\ (forall k, (S k < List.length (packetize buf))%nat ->
        blen (nth k (packetize buf) []) = FRAME_BYTES)
  /\ (forall f, In f (packetize buf) -> 1 <= blen f <= FRAME_BYTES).
Proof.
  unfold packetize. repeat split.
  - rewrite frames_from_length by lia.
    pose proof (blen_nonneg buf). do 2 f_equal. lia.
  - now rewrite frames_from_concat by lia.
  - intros k. apply frames_shape_nth, frames_from_shape. lia.
  - now apply (packetize_In buf f).
  - now apply (packetize_In buf f).
Qed.

(** ** The WAV chunk walk *)

Lemma wav_loop_unfolded (wavBuf : Buffer) (pos : Z) (st : WavScan) :
  wav_loop wavBuf pos st =
  if Z_le_dec (pos + 8) (blen wavBuf) then
    match readUInt32LE wavBuf (pos + 4) with
    | Throw e => Throw e
    | Return chunkSize =>
        match scan_chunk wavBuf (subarray wavBuf pos (pos + 4)) (pos + 8) chunkSize st with
        | Throw e => Throw e
        | Return st' =>
            if scan_done st' then Return st'
            else wav_loop wavBuf
                   (pos + 8 + Z.of_N chunkSize + Z.of_N (chunkSize mod 2)) st'
        end
    end
  else Return st.
Proof.
  rewrite wav_loop_equation_1.
  destruct (Z_le_dec (pos + 8) (blen wavBuf)); [| reflexivity].
  cbn. destruct (readUInt32LE wavBuf (pos + 4)); [| reflexivity].
  cbn. destruct (scan_chunk _ _ _ _ _); [| reflexivity].
  cbn. destruct (scan_done _); reflexivity.
Qed.

Lemma to_N_byte_of_N (v : N) : Byte.to_N (byte_of_N v) = (v mod 256)%N.
Proof.
  unfold byte_of_N. destruct (Byte.of_N (v mod 256)) eqn:E.
  - now apply Byte.to_of_N.
  - apply Byte.of_N_None_iff in E.
    pose proof (N.mod_lt v 256 ltac:(discriminate)). lia.
Qed.

Lemma length_le_bytes (n : nat) (v : N) : List.length (le_bytes n v) = n.
Proof. revert v. induction n; intros v; simpl; [reflexivity | now rewrite IHn]. Qed.

Lemma le_value_le_bytes (n : nat) (v : N) :
  (v < 256 ^ N.of_nat n)%N -> le_value (le_bytes n v) = v.
Proof.
  revert v. induction n as [|n IH]; intros v Hv.
  - simpl in *. lia.
  - cbn [le_bytes le_value]. rewrite to_N_byte_of_N, IH.
    + pose proof (N.div_mod v 256 ltac:(discriminate)). lia.
    + apply N.Div0.div_lt_upper_bound.
      rewrite Nat2N.inj_succ, N.pow_succ_r' in Hv. exact Hv.
Qed.

Lemma blen_le_bytes (n : nat) (v : N) : blen (le_bytes n v) = Z.of_nat n.
Proof. unfold blen. now rewrite length_le_bytes. Qed.

Lemma size_of_blen (b : Buffer) : Z.of_N (size_of b) = blen b.
Proof. unfold size_of, blen. lia. Qed.

Lemma le_value_size (body : Buffer) :
  blen body < 2 ^ 32 -> le_value (le_bytes 4 (size_of body)) = size_of body.
Proof.
  intros H. apply le_value_le_bytes. rewrite <- size_of_blen in H.
  change (256 ^ N.of_nat 4)%N with 4294967296%N.
  change (2 ^ 32) with 4294967296 in H. lia.
Qed.

(** Reading the [n] bytes [x] that sit right after [a]. *)
Lemma readUIntLE_middle (a x c : Buffer) (off : Z) (n : nat) :
  off = blen a -> List.length x = n ->
  readUIntLE (a ++ x ++ c) off n = Return (le_value x).
Proof.
  intros -> Hn. unfold readUIntLE. pose proof (blen_nonneg a).
  rewrite !blen_app.
  replace ((0 <=? blen a) && (blen a + Z.of_nat n <=? blen a + (blen x + blen c)))
    with true
    by (symmetry; apply andb_true_iff; split; apply Z.leb_le;
        pose proof (blen_nonneg c); unfold blen in *; lia).
  replace (Z.to_nat (blen a)) with (List.length a) by (unfold blen; lia).
  rewrite skipn_app, skipn_all, Nat.sub_diag. simpl.
  rewrite firstn_app, <- Hn, firstn_all, Nat.sub_diag. simpl.
  now rewrite app_nil_r.
Qed.

(** Reading [n] bytes at offset [k] of the part [body] that follows [a]. *)
Lemma readUIntLE_inside (a body c : Buffer) (off : Z) (k n : nat) :
  off = blen a + Z.of_nat k -> (k + n <= List.length body)%nat ->
  readUIntLE (a ++ body ++ c) off n = Return (le_value (firstn n (skipn k body))).
Proof.
  intros -> Hk.
  rewrite <- (firstn_skipn k body) at 1.
  rewrite <- (firstn_skipn n (skipn k body)) at 1.
  rewrite <- !app_assoc.
  rewrite (app_assoc a (firstn k body)).
  apply readUIntLE_middle.
  - rewrite blen_app. unfold blen. rewrite length_firstn. lia.
  - rewrite length_firstn, length_skipn. lia.
Qed.

(** One turn of the walk on a chunk header [id], size, and body. *)
Lemma wav_loop_header (buf a id body c : Buffer) (st : WavScan) :
  buf = a ++ id ++ le_bytes 4 (size_of body) ++ body ++ c ->
  List.length id = 4%nat -> blen body < 2 ^ 32 ->
  wav_loop buf (blen a) st =
  match scan_chunk buf id (blen a + 8) (size_of body) st with
  | Throw e => Throw e
  | Return st' =>
      if scan_done st' then Return st'
      else wav_loop buf
             (blen a + 8 + Z.of_N (size_of body) + Z.of_N (size_of body mod 2)) st'
  end.
Proof.
  intros Hbuf Hid Hsize. rewrite wav_loop_unfolded.
  assert (Hid' : blen id = 4) by (unfold blen; lia).
  destruct (Z_le_dec (blen a + 8) (blen buf)) as [_|Hn].
  2:{ exfalso. apply Hn. subst buf. rewrite !blen_app, blen_le_bytes.
      pose proof (blen_nonneg body). pose proof (blen_nonneg c). lia. }
  replace (readUInt32LE buf (blen a + 4)) with (Return (A := N) (size_of body)).
  2:{ subst buf. rewrite (app_assoc a id). unfold readUInt32LE.
      rewrite (readUIntLE_middle (a ++ id) (le_bytes 4 (size_of body)) (body ++ c)).
      - now rewrite le_value_size.
      - rewrite blen_app. lia.
      - apply length_le_bytes. }
  replace (subarray buf (blen a) (blen a + 4)) with id.
  2:{ subst buf. symmetry. apply subarray_middle; [reflexivity | lia]. }
  reflexivity.
Qed.

Lemma blen_chunk_bytes (c : Buffer * Buffer) :
  blen (chunk_bytes c) =
  blen (fst c) + 4 + blen (snd c) + Z.of_N (size_of (snd c) mod 2).
Proof.
  unfold chunk_bytes. rewrite !blen_app, blen_le_bytes.
  pose proof (N.bit0_mod (size_of (snd c))) as Hm.
  rewrite N.bit0_odd in Hm. rewrite <- Hm.
  destruct (N.odd (size_of (snd c))); cbn [N.b2n Z.of_N];
    change (blen []) with 0; change (blen [x00]) with 1; lia.
Qed.

Lemma scan_chunk_other (buf id : Buffer) (start : Z) (size : N) (st : WavScan) :
  id <> list_byte_of_string "fmt " -> id <> list_byte_of_string "data" ->
  scan_chunk buf id start size st = Return st.
Proof.
  intros Hf Hd. unfold scan_chunk.
  destruct (is_ascii id "fmt ") eqn:E1; [apply is_ascii_spec in E1; contradiction |].
  destruct (is_ascii id "data") eqn:E2; [apply is_ascii_spec in E2; contradiction |].
  reflexivity.
Qed.

(** The walk passes over chunks that are neither format nor data. *)
Lemma wav_loop_skip (cs : list (Buffer * Buffer)) :
  forall (a rest : Buffer) (st : WavScan),
    Forall other_chunk cs -> scan_done st = false ->
    wav_loop (a ++ chunks_bytes cs ++ rest) (blen a) st =
    wav_loop (a ++ chunks_bytes cs ++ rest) (blen a + blen (chunks_bytes cs)) st.
Proof.
  induction cs as [|c cs IH]; intros a rest st Hcs Hst.
  - simpl. now rewrite Z.add_0_r.
  - inversion Hcs as [|? ? (Hlen & Hfmt & Hdata & Hsize) Hcs']; subst.
    assert (Hid : blen (fst c) = 4) by (unfold blen; lia).
    change (chunks_bytes (c :: cs)) with (chunk_bytes c ++ chunks_bytes cs).
    rewrite (wav_loop_header _ a (fst c) (snd c)
               ((if N.odd (size_of (snd c)) then [x00] else [])
                  ++ chunks_bytes cs ++ rest) st);
      [| unfold chunk_bytes; now rewrite <- !app_assoc | assumption | assumption].
    rewrite scan_chunk_other by assumption. rewrite Hst.
    replace (a ++ (chunk_bytes c ++ chunks_bytes cs) ++ rest)
      with ((a ++ chunk_bytes c) ++ chunks_bytes cs ++ rest)
      by (now rewrite <- !app_assoc).
    replace (blen a + 8 + Z.of_N (size_of (snd c)) + Z.of_N (size_of (snd c) mod 2))
      with (blen (a ++ chunk_bytes c))
      by (rewrite blen_app, blen_chunk_bytes, size_of_blen; lia).
    rewrite IH by assumption.
    f_equal. rewrite !blen_app. lia.
Qed.

(** The walk stops where fewer than eight bytes are left. *)
Lemma wav_loop_end (a tail : Buffer) (st : WavScan) :
  blen tail < 8 -> wav_loop (a ++ tail) (blen a) st = Return st.
Proof.
  intros H. rewrite wav_loop_unfolded.
  destruct (Z_le_dec (blen a + 8) (blen (a ++ tail))) as [Hle|]; [| reflexivity].
  rewrite blen_app in Hle. lia.
Qed.

Lemma scan_chunk_fmt (a fmt c : Buffer) (start : Z) (size : N) (st : WavScan) :
  start = blen a -> 16 <= blen fmt ->
  scan_chunk (a ++ fmt ++ c) (list_byte_of_string "fmt ") start size st =
  Return (mkWavScan (Some (fmt_tag fmt))
            (Some (le_value (firstn 2 (skipn 2 fmt))))
            (Some (le_value (firstn 4 (skipn 4 fmt))))
            (Some (le_value (firstn 2 (skipn 14 fmt))))
            (scan_dataStart st) (scan_dataSize st)).
Proof.
  intros -> Hlen. unfold scan_chunk, readUInt16LE, readUInt32LE, fmt_tag.
  change (is_ascii (list_byte_of_string "fmt ") "fmt ") with true. cbv iota.
  assert (Hn : (16 <= List.length fmt)%nat) by (unfold blen in Hlen; lia).
  rewrite (readUIntLE_inside a fmt c _ 0 2) by lia.
  rewrite (readUIntLE_inside a fmt c _ 2 2) by lia.
  rewrite (readUIntLE_inside a fmt c _ 4 4) by lia.
  rewrite (readUIntLE_inside a fmt c _ 14 2) by lia.
  reflexivity.
Qed.

Lemma riff_header (sz rest : Buffer) :
  List.length sz = 4%nat ->
  let buf := list_byte_of_string "RIFF" ++ sz ++ list_byte_of_string "WAVE" ++ rest in
  12 <= blen buf
  /\ is_ascii (subarray buf 0 4) "RIFF" = true
  /\ is_ascii (subarray buf 8 12) "WAVE" = true
  /\ exists hdr, blen hdr = 12 /\ buf = hdr ++ rest.
Proof.
  intros Hsz buf. assert (Hsz' : blen sz = 4) by (unfold blen; lia).
  repeat split.
  - subst buf. rewrite !blen_app. pose proof (blen_nonneg rest).
    change (blen (list_byte_of_string "RIFF")) with 4.
    change (blen (list_byte_of_string "WAVE")) with 4. lia.
  - apply is_ascii_spec. apply subarray_prefix. reflexivity.
  - apply is_ascii_spec. subst buf.
    rewrite (app_assoc (list_byte_of_string "RIFF") sz).
    apply subarray_middle.
    + rewrite blen_app. change (blen (list_byte_of_string "RIFF")) with 4. lia.
    + rewrite blen_app. change (blen (list_byte_of_string "RIFF")) with 4.
      change (blen (list_byte_of_string "WAVE")) with 4. lia.
  - exists (list_byte_of_string "RIFF" ++ sz ++ list_byte_of_string "WAVE"). split.
    + rewrite !blen_app. change (blen (list_byte_of_string "RIFF")) with 4.
      change (blen (list_byte_of_string "WAVE")) with 4. lia.
    + subst buf. now rewrite <- !app_assoc.
Qed.

(** The parser on a buffer laid out as [wav_bytes]: the data chunk comes
    back as it is, with the four fields of the format chunk. *)
Lemma parseWavAndExtractData_wav (sz : Buffer) (pre mid : list (Buffer * Buffer))
    (fmt X post : Buffer) :
  List.length sz = 4%nat ->
  Forall other_chunk pre -> Forall other_chunk mid ->
  16 <= blen fmt < 2 ^ 32 -> blen X < 2 ^ 32 ->
  parseWavAndExtractData (wav_bytes sz pre fmt mid X post) =
  Return (mkWavInfo X (Some (fmt_tag fmt))
            (Some (le_value (firstn 2 (skipn 2 fmt))))
            (Some (le_value (firstn 4 (skipn 4 fmt))))
            (Some (le_value (firstn 2 (skipn 14 fmt))))).
Proof.
  intros Hsz Hpre Hmid Hfmt HX.
  set (fmtc := (list_byte_of_string "fmt ", fmt)).
  set (tailX := list_byte_of_string "data" ++ le_bytes 4 (size_of X) ++ X ++ post).
  destruct (riff_header sz
              (chunks_bytes pre ++ chunk_bytes fmtc ++ chunks_bytes mid ++ tailX) Hsz)
    as (_ & Hriff & Hwave & hdr & Hhdr & Hbuf).
  unfold parseWavAndExtractData. fold fmtc tailX in Hriff, Hwave, Hbuf.
  unfold wav_bytes. fold fmtc tailX. rewrite Hriff, Hwave. cbn [negb orb].
  rewrite Hbuf. clear Hriff Hwave Hbuf.
  (* the chunks before the format chunk *)
  replace 12 with (blen hdr) by assumption.
  rewrite wav_loop_skip by (assumption || reflexivity).
  (* the format chunk *)
  set (buf := hdr ++ chunks_bytes pre ++ chunk_bytes fmtc ++ chunks_bytes mid ++ tailX).
  set (a1 := hdr ++ chunks_bytes pre).
  replace (blen hdr + blen (chunks_bytes pre)) with (blen a1)
    by (unfold a1; now rewrite blen_app).
  rewrite (wav_loop_header buf a1 (fst fmtc) (snd fmtc)
             ((if N.odd (size_of fmt) then [x00] else []) ++ chunks_bytes mid ++ tailX));
    [| unfold buf, a1, chunk_bytes; cbn [fst snd fmtc]; now rewrite <- !app_assoc
     | reflexivity | cbn [snd fmtc]; lia].
  cbn [fst snd fmtc].
  set (a1' := a1 ++ list_byte_of_string "fmt " ++ le_bytes 4 (size_of fmt)).
  replace buf with (a1' ++ fmt ++
                    ((if N.odd (size_of fmt) then [x00] else [])
                       ++ chunks_bytes mid ++ tailX)) at 1
    by (unfold buf, a1', a1, chunk_bytes; cbn [fst snd fmtc]; now rewrite <- !app_assoc).
  rewrite scan_chunk_fmt;
    [| unfold a1'; rewrite !blen_app, blen_le_bytes;
       change (blen (list_byte_of_string "fmt ")) with 4; lia
     | lia].
  cbn [scan_done scan_dataStart scan_audioFormat scan_dataSize scan_init].
  (* the chunks between the format chunk and the data chunk *)
  set (st1 := mkWavScan _ _ _ _ None None).
  set (a2 := a1 ++ chunk_bytes fmtc).
  replace (blen a1 + 8 + Z.of_N (size_of fmt) + Z.of_N (size_of fmt mod 2))
    with (blen a2)
    by (unfold a2; rewrite blen_app, blen_chunk_bytes; cbn [fst snd fmtc];
        rewrite size_of_blen; change (blen (list_byte_of_string "fmt ")) with 4; lia).
  replace buf with (a2 ++ chunks_bytes mid ++ tailX)
    by (unfold buf, a2, a1; now rewrite <- !app_assoc).
  rewrite wav_loop_skip by (assumption || reflexivity).
  (* the data chunk *)
  set (a3 := a2 ++ chunks_bytes mid).
  replace (blen a2 + blen (chunks_bytes mid)) with (blen a3)
    by (unfold a3; now rewrite blen_app).
  rewrite (wav_loop_header _ a3 (list_byte_of_string "data") X post);
    [| unfold a3, tailX; now rewrite <- !app_assoc | reflexivity | lia].
  unfold scan_chunk.
  change (is_ascii (list_byte_of_string "data") "fmt ") with false.
  change (is_ascii (list_byte_of_string "data") "data") with true.
  cbv iota. unfold st1.
  cbn [scan_done scan_dataStart scan_audioFormat scan_dataSize scan_numChannels
       scan_sampleRate scan_bitsPerSample obind].
  do 2 f_equal.
  replace (a2 ++ chunks_bytes mid ++ tailX)
    with ((a3 ++ list_byte_of_string "data" ++ le_bytes 4 (size_of X)) ++ X ++ post)
    by (unfold a3, tailX; now rewrite <- !app_assoc).
  apply subarray_middle.
  - rewrite !blen_app, blen_le_bytes.
    change (blen (list_byte_of_string "data")) with 4. lia.
  - rewrite !blen_app, blen_le_bytes, size_of_blen.
    change (blen (list_byte_of_string "data")) with 4. lia.
Qed.

(** The parser on a RIFF/WAVE buffer that has no data chunk. *)
Lemma parseWavAndExtractData_no_data (sz : Buffer) (cs : list (Buffer * Buffer))
    (tail : Buffer) :
  List.length sz = 4%nat -> Forall other_chunk cs -> blen tail < 8 ->
  parseWavAndExtractData (wav_without_data sz cs tail) =
  Throw (Error "WAV has no data chunk").
Proof.
  intros Hsz Hcs Htail.
  destruct (riff_header sz (chunks_bytes cs ++ tail) Hsz)
    as (_ & Hriff & Hwave & hdr & Hhdr & Hbuf).
  unfold parseWavAndExtractData, wav_without_data.
  rewrite Hriff, Hwave. cbn [negb orb]. rewrite Hbuf.
  replace 12 with (blen hdr) by assumption.
  rewrite wav_loop_skip by (assumption || reflexivity).
  replace (hdr ++ chunks_bytes cs ++ tail) with ((hdr ++ chunks_bytes cs) ++ tail)
    by (now rewrite <- app_assoc).
  rewrite <- blen_app, wav_loop_end by assumption.
  reflexivity.
Qed.

(** ** The normalizer [ensureRawUlawBase64] *)

Lemma truthy_JStr (s : string) : s <> EmptyString -> truthy (JStr s) = true.
Proof.
  intros H. simpl. destruct (String.eqb_spec s ""); [contradiction | reflexivity].
Qed.

Lemma subarray_0 (b : Buffer) (e : Z) :
  0 <= e -> subarray b 0 e = firstn (Z.to_nat e) b.
Proof.
  intros He. rewrite subarray_nonneg by lia. pose proof (blen_nonneg b).
  replace (Z.to_nat (Z.min 0 (blen b))) with 0%nat by lia.
  rewrite Nat.sub_0_r. simpl skipn.
  destruct (Z_le_dec e (blen b)).
  - f_equal. lia.
  - rewrite !firstn_all2; [reflexivity | |]; unfold blen in *; lia.
Qed.

(** A slice from index 0 that reads as a literal starts with the literal's
    first byte. *)
Lemma is_ascii_head (b0 : byte) (rest : Buffer) (e : Z) (c : ascii) (lit : string) :
  0 < e -> is_ascii (subarray (b0 :: rest) 0 e) (String c lit) = true ->
  b0 = byte_of_ascii c.
Proof.
  intros He H. rewrite subarray_0 in H by lia.
  destruct (Z.to_nat e) as [|n] eqn:En; [lia |].
  unfold is_ascii in H. cbn [firstn list_byte_of_string bytes_eqb] in H.
  change (list_byte_of_string (String c lit))
    with (byte_of_ascii c :: list_byte_of_string lit) in H.
  cbn [bytes_eqb] in H. apply andb_true_iff in H as [H _].
  now apply Byte.byte_dec_bl.
Qed.

(** C5.  A buffer that begins with the RIFF/WAVE signature, holds a format
    chunk and then a data chunk whose bytes are X (other chunks may stand
    before and between them): when the encoding tag of the format chunk is
    7, the normalizer succeeds and returns X itself, base64-encoded; for any
    other tag it returns the failure [wav-not-ulaw], and no bytes. *)
Theorem ensureRawUlawBase64_wav (s : string) (sz : Buffer)
    (pre mid : list (Buffer * Buffer)) (fmt X post : Buffer) :
  s <> EmptyString ->
  from_base64 s = wav_bytes sz pre fmt mid X post ->
  List.length sz = 4%nat ->
  Forall other_chunk pre -> Forall other_chunk mid ->
  16 <= blen fmt < 2 ^ 32 -> blen X < 2 ^ 32 ->
  (fmt_tag fmt = 7%N ->
     ensureRawUlawBase64 (JStr s) =
     Return (EnsureOk (JStr (to_base64 X)) NoteStrippedWav))
  /\ (fmt_tag fmt <> 7%N ->
       ensureRawUlawBase64 (JStr s) =
       Return (EnsureFail (ReasonWavNotUlaw (Some (fmt_tag fmt))))).
Proof.
  intros Hs Hbuf Hsz Hpre Hmid Hfmt HX.
  assert (Hsig : (12 <=? blen (from_base64 s))
                 && is_ascii (subarray (from_base64 s) 0 4) "RIFF"
                 && is_ascii (subarray (from_base64 s) 8 12) "WAVE" = true).
  { rewrite Hbuf. unfold wav_bytes.
    destruct (riff_header sz
                (chunks_bytes pre ++ chunk_bytes (list_byte_of_string "fmt ", fmt)
                   ++ chunks_bytes mid ++ list_byte_of_string "data"
                   ++ le_bytes 4 (size_of X) ++ X ++ post) Hsz)
      as (H12 & Hriff & Hwave & _).
    rewrite Hriff, Hwave. apply Z.leb_le in H12. now rewrite H12. }
  unfold ensureRawUlawBase64. rewrite truthy_JStr by assumption.
  cbn [negb Buffer_from obind]. rewrite Hsig. rewrite Hbuf.
  rewrite parseWavAndExtractData_wav by assumption.
  cbn [obind audioFormat data is_num]. split; intros Htag.
  - rewrite Htag. reflexivity.
  - apply N.eqb_neq in Htag. now rewrite Htag.
Qed.

(** C10.  A buffer that begins with the RIFF/WAVE signature and holds no
    data chunk makes the normalizer raise the parser's exception: no
    [{ ok: false }] value comes back. *)
Theorem ensureRawUlawBase64_raises (s : string) (sz : Buffer)
    (cs : list (Buffer * Buffer)) (tail : Buffer) :
  s <> EmptyString ->
  from_base64 s = wav_without_data sz cs tail ->
  List.length sz = 4%nat -> Forall other_chunk cs -> blen tail < 8 ->
  ensureRawUlawBase64 (JStr s) = Throw (Error "WAV has no data chunk").
Proof.
  intros Hs Hbuf Hsz Hcs Htail.
  assert (Hsig : (12 <=? blen (from_base64 s))
                 && is_ascii (subarray (from_base64 s) 0 4) "RIFF"
                 && is_ascii (subarray (from_base64 s) 8 12) "WAVE" = true).
  { rewrite Hbuf. unfold wav_without_data.
    destruct (riff_header sz (chunks_bytes cs ++ tail) Hsz)
      as (H12 & Hriff & Hwave & _).
    rewrite Hriff, Hwave. apply Z.leb_le in H12. now rewrite H12. }
  unfold ensureRawUlawBase64. rewrite truthy_JStr by assumption.
  cbn [negb Buffer_from obind]. rewrite Hsig, Hbuf.
  now rewrite parseWavAndExtractData_no_data by assumption.
Qed.

(** C6, as the code has it.  A buffer of at least three bytes whose first
    bytes are an ID3 tag, an MPEG frame sync or the Ogg capture pattern is
    refused as [mp3-container] or [ogg-container]; no bytes come back. *)
Theorem ensureRawUlawBase64_refuses (s : string) :
  s <> EmptyString ->
  3 <= blen (from_base64 s) ->
  mp3_signature (from_base64 s) \/ ogg_signature (from_base64 s) ->
  is_failure (ensureRawUlawBase64 (JStr s)).
Proof.
  intros Hs Hlen Hsig.
  unfold ensureRawUlawBase64. rewrite truthy_JStr by assumption.
  cbn [negb Buffer_from obind].
  set (buf := from_base64 s) in *.
  apply Z.leb_le in Hlen.
  destruct Hsig as [[[rest Hb] | (b0 & b1 & rest & Hb & H0 & H1)] | [rest Hb]].
  - (* ID3 *)
    assert (Hriff : is_ascii (subarray buf 0 4) "RIFF" = false).
    { destruct (is_ascii (subarray buf 0 4) "RIFF") eqn:E; [| reflexivity].
      rewrite Hb in E. apply is_ascii_head in E; [discriminate | lia]. }
    assert (Hid3 : is_ascii (subarray buf 0 3) "ID3" = true).
    { apply is_ascii_spec. rewrite Hb. now apply subarray_prefix. }
    rewrite Hriff, andb_false_r, Hlen, Hid3. left. reflexivity.
  - (* frame sync *)
    assert (Hriff : is_ascii (subarray buf 0 4) "RIFF" = false).
    { destruct (is_ascii (subarray buf 0 4) "RIFF") eqn:E; [| reflexivity].
      rewrite Hb in E. apply is_ascii_head in E; [| lia].
      subst b0. discriminate. }
    assert (Hsync : byte_is buf 0 255 && byte_and_is buf 1 224 224 = true).
    { rewrite Hb. unfold byte_is, byte_and_is.
      change (byte_at (b0 :: b1 :: rest) 0) with (Some b0).
      change (byte_at (b0 :: b1 :: rest) 1) with (Some b1).
      cbv beta iota. rewrite H0, H1. reflexivity. }
    rewrite Hriff, andb_false_r, Hlen, Hsync, orb_true_r. left. reflexivity.
  - (* OggS *)
    assert (Hriff : is_ascii (subarray buf 0 4) "RIFF" = false).
    { destruct (is_ascii (subarray buf 0 4) "RIFF") eqn:E; [| reflexivity].
      rewrite Hb in E. apply is_ascii_head in E; [discriminate | lia]. }
    assert (Hid3 : is_ascii (subarray buf 0 3) "ID3" = false).
    { destruct (is_ascii (subarray buf 0 3) "ID3") eqn:E; [| reflexivity].
      rewrite Hb in E. apply is_ascii_head in E; [discriminate | lia]. }
    assert (Hsync : byte_is buf 0 255 = false) by (now rewrite Hb).
    assert (Hogg : is_ascii (subarray buf 0 4) "OggS" = true).
    { apply is_ascii_spec. rewrite Hb. now apply subarray_prefix. }
    assert (H4 : (4 <=? blen buf) = true).
    { apply Z.leb_le. rewrite Hb, blen_app. pose proof (blen_nonneg rest).
      change (blen (list_byte_of_string "OggS")) with 4. lia. }
    rewrite Hriff, andb_false_r, Hlen, Hid3, Hsync, H4, Hogg.
    right. reflexivity.
Qed.

(** ** Relations kept by every step of a computation *)

Section Preserves.

Variable R : Session -> Session -> Prop.
Hypothesis HR : preorder R.

Lemma preserves_ret {A} (a : A) : preserves R (ret a).
Proof using HR. intros s. apply (pre_refl R HR). Qed.

Lemma preserves_throw {A} (e : exn) : preserves R (throw (A := A) e).
Proof using HR. intros s. apply (pre_refl R HR). Qed.

Lemma preserves_lift {A} (o : outcome A) : preserves R (lift o).
Proof using HR. intros s. apply (pre_refl R HR). Qed.

Lemma preserves_gets {A} (f : Session -> A) : preserves R (gets f).
Proof using HR. intros s. apply (pre_refl R HR). Qed.

Lemma preserves_modify (f : Session -> Session) :
  (forall s, R s (f s)) -> preserves R (modify f).
Proof using HR. intros H s. apply H. Qed.

Lemma preserves_bind {A B} (m : M A) (k : A -> M B) :
  preserves R m -> (forall a, preserves R (k a)) -> preserves R (bind m k).
Proof using HR.
  intros Hm Hk s. unfold bind. specialize (Hm s).
  destruct (m s) as [s' [a|e]]; simpl in *.
  - apply (pre_trans R HR _ s'); [assumption | apply Hk].
  - assumption.
Qed.

Lemma preserves_when (b : bool) (m : M unit) :
  preserves R m -> preserves R (when b m).
Proof using HR. intros Hm. destruct b; [assumption | apply preserves_ret]. Qed.

Lemma preserves_try_catch (m : M unit) :
  preserves R m -> preserves R (try_catch m).
Proof using HR. intros Hm s. apply Hm. Qed.

Lemma preserves_queue_shift :
  (forall q s, R s (set_outQueue q s)) -> preserves R queue_shift.
Proof using HR.
  intros H s. unfold queue_shift.
  destruct (outQueue s); cbn [fst]; [apply (pre_refl R HR) | apply H].
Qed.

Lemma preserves_JSON_parse (parsed : option jsval) : preserves R (JSON_parse parsed).
Proof using HR. destruct parsed; [apply preserves_ret | apply preserves_throw]. Qed.

Lemma preserves_log_template (vs : list jsval) : preserves R (log_template vs).
Proof using HR.
  unfold log_template. destruct (forallb renders vs);
    [apply preserves_ret | apply preserves_throw].
Qed.

End Preserves.

(** Walks a computation, leaving for [fin] the goals about the functions
    given to [modify]. *)
Ltac frame HR fin :=
  repeat match goal with
    | |- preserves _ (ret _) => apply (preserves_ret _ HR)
    | |- preserves _ (throw _) => apply (preserves_throw _ HR)
    | |- preserves _ (lift _) => apply (preserves_lift _ HR)
    | |- preserves _ (gets _) => apply (preserves_gets _ HR)
    | |- preserves _ (JSON_parse _) => apply (preserves_JSON_parse _ HR)
    | |- preserves _ (log_template _) => apply (preserves_log_template _ HR)
    | |- preserves _ (try_catch _) => apply (preserves_try_catch _ HR)
    | |- preserves _ (when _ _) => apply (preserves_when _ HR)
    | |- preserves _ (bind _ _) => apply (preserves_bind _ HR); [| intros ?]
    | |- preserves _ (if ?b then _ else _) => destruct b
    | |- preserves _ (match ?x with _ => _ end) => destruct x
    | |- preserves _ (modify _) => apply (preserves_modify _ HR); intros ?; fin
    | |- preserves _ queue_shift =>
        apply (preserves_queue_shift _ HR); intros ? ?; fin
    end.

(** ** The readiness flag *)

Lemma ready_kept_preorder : preorder ready_kept.
Proof.
  split; unfold ready_kept; [reflexivity | intros a b c H1 H2; congruence].
Qed.

Ltac ready_kept_fin :=
  unfold ready_kept; cbn;
  repeat match goal with |- context [if ?b then _ else _] => destruct b end;
  reflexivity.

Lemma enqueueELBase64_ready (v : jsval) : preserves ready_kept (enqueueELBase64 v).
Proof. unfold enqueueELBase64. frame ready_kept_preorder ready_kept_fin. Qed.

Lemma pick_audio_ready (msg : jsval) : preserves ready_kept (pick_audio msg).
Proof. unfold pick_audio. frame ready_kept_preorder ready_kept_fin. Qed.

Lemma enqueue_agent_audio_ready (msg : jsval) :
  preserves ready_kept (enqueue_agent_audio msg).
Proof.
  unfold enqueue_agent_audio.
  apply (preserves_bind _ ready_kept_preorder); [apply pick_audio_ready | intros b64].
  apply (preserves_when _ ready_kept_preorder).
  apply (preserves_bind _ ready_kept_preorder); [| intros _; apply enqueueELBase64_ready].
  apply (preserves_modify _ ready_kept_preorder). intros s. reflexivity.
Qed.

Lemma pacer_tick_ready : preserves ready_kept pacer_tick.
Proof.
  unfold pacer_tick, twilio_send. frame ready_kept_preorder ready_kept_fin.
Qed.

Lemma on_agent_open_ready : preserves ready_kept on_agent_open.
Proof.
  unfold on_agent_open, agent_send. frame ready_kept_preorder ready_kept_fin.
Qed.

Lemma on_twilio_message_ready (parsed : option jsval) :
  preserves ready_kept (on_twilio_message parsed).
Proof.
  unfold on_twilio_message, on_start, on_media, on_stop, startPacer, stopPacer,
    agent_send.
  frame ready_kept_preorder ready_kept_fin.
Qed.

Lemma on_twilio_close_ready : preserves ready_kept on_twilio_close.
Proof.
  unfold on_twilio_close, stopPacer. frame ready_kept_preorder ready_kept_fin.
Qed.

Lemma on_twilio_error_ready : preserves ready_kept on_twilio_error.
Proof.
  unfold on_twilio_error. frame ready_kept_preorder ready_kept_fin.
Qed.

Lemma get_field (msg : jsval) (k : string) :
  msg <> JNull -> msg <> JUndefined -> get msg k = Return (field msg k).
Proof.
  intros H1 H2. unfold field.
  destruct msg; try contradiction; simpl; try reflexivity.
  now destruct (own_prop props k).
Qed.

Lemma field_nullish (msg : jsval) (k : string) :
  msg = JNull \/ msg = JUndefined -> field msg k = JUndefined.
Proof. intros [-> | ->]; reflexivity. Qed.

Lemma truthy_not_nullish (v : jsval) :
  truthy v = true -> v <> JNull /\ v <> JUndefined.
Proof. destruct v; simpl; intros H; split; congruence. Qed.

Lemma get_or_object (v : jsval) (k : string) :
  get (js_or v (JObj [])) k = Return (field (js_or v (JObj [])) k).
Proof.
  unfold js_or. destruct (truthy v) eqn:E.
  - apply truthy_not_nullish in E as [H1 H2]. now apply get_field.
  - reflexivity.
Qed.

(** What the test of the first [if] evaluates to. *)
Lemma is_initiation_metadata_eval (msg : jsval) (s : Session) :
  msg <> JNull -> msg <> JUndefined ->
  is_initiation_metadata msg s = (s, Return (initiation_shape msg)).
Proof.
  intros H1 H2. unfold is_initiation_metadata, initiation_shape, bind, lift, ret.
  rewrite !get_field by assumption.
  destruct (is_str (field msg "type") _); [reflexivity |].
  destruct (is_str (field msg "event") _); [reflexivity |].
  destruct (truthy (field msg "conversation_initiation_metadata")); reflexivity.
Qed.

Lemma is_initiation_metadata_nullish (msg : jsval) (s : Session) :
  msg = JNull \/ msg = JUndefined ->
  exists e, is_initiation_metadata msg s = (s, Throw e).
Proof. intros [-> | ->]; eexists; reflexivity. Qed.

(** The state after part 1 of the message callback. *)
Lemma mark_ready_on_metadata_state (msg : jsval) (s : Session) :
  fst (mark_ready_on_metadata msg s) =
  if negb (convoReady s) && initiation_shape msg
     && forallb renders (logged_formats msg)
  then set_convoReady true s else s.
Proof.
  unfold mark_ready_on_metadata. unfold bind at 1. unfold gets at 1.
  destruct (convoReady s) eqn:Hready; [reflexivity |].
  cbn [negb andb]. unfold bind at 1.
  assert (Hn : (msg = JNull \/ msg = JUndefined) \/ (msg <> JNull /\ msg <> JUndefined)).
  { destruct msg; auto; right; split; discriminate. }
  destruct Hn as [Hn | [H1 H2]].
  - destruct (is_initiation_metadata_nullish msg s Hn) as [e ->].
    unfold initiation_shape. rewrite !field_nullish by assumption. reflexivity.
  - rewrite is_initiation_metadata_eval by assumption.
    destruct (initiation_shape msg); [| reflexivity].
    unfold when at 1. unfold bind, lift. rewrite !get_field by assumption.
    rewrite !get_or_object. unfold logged_formats.
    set (meta := js_or (js_or _ _) (JObj [])).
    destruct (truthy (field meta "agent_output_audio_format")
              || truthy (field meta "user_input_audio_format")); cbn [when].
    + unfold log_template.
      destruct (forallb renders _); reflexivity.
    + reflexivity.
Qed.

Lemma mark_ready_on_metadata_ready (msg : jsval) (s : Session) :
  convoReady (fst (mark_ready_on_metadata msg s)) =
  convoReady s
  || (initiation_shape msg && forallb renders (logged_formats msg)).
Proof.
  rewrite mark_ready_on_metadata_state.
  destruct (convoReady s) eqn:E; cbn [negb andb orb]; [assumption |].
  destruct (initiation_shape msg && forallb renders (logged_formats msg));
    [reflexivity | assumption].
Qed.

(** The flag after a message of the agent: what it was, or set by a message
    of one of the recognised shapes whose log line can be written. *)
Lemma agent_message_ready (msg : jsval) (s : Session) :
  convoReady (step s (AgentMessage (Some msg))) =
  convoReady s
  || (initiation_shape msg && forallb renders (logged_formats msg)).
Proof.
  unfold step, run, on_agent_message, try_catch. cbn [fst JSON_parse].
  unfold bind at 1. cbn [ret]. unfold bind at 1.
  pose proof (mark_ready_on_metadata_ready msg s) as H.
  destruct (mark_ready_on_metadata msg s) as [s1 [[]|e]]; cbn [fst] in *.
  - rewrite <- H. apply enqueue_agent_audio_ready.
  - exact H.
Qed.

Lemma step_ready_kept (s : Session) (e : event) :
  (forall msg, e <> AgentMessage (Some msg)) ->
  e <> AgentReadyTimeout \/ elReadyFallbackTimer s = false ->
  convoReady (step s e) = convoReady s.
Proof.
  intros Hmsg Htimer. destruct e; cbn [step].
  - apply on_agent_open_ready.
  - destruct parsed as [msg|]; [now destruct (Hmsg msg) | reflexivity].
  - destruct Htimer as [H | ->]; [contradiction | reflexivity].
  - reflexivity.
  - reflexivity.
  - now destruct (elevenLabsWs s).
  - apply on_twilio_message_ready.
  - apply on_twilio_close_ready.
  - apply on_twilio_error_ready.
  - reflexivity.
  - destruct (pacerTimer s); [apply pacer_tick_ready | reflexivity].
Qed.

Lemma ready_timeout_sets (s : Session) :
  elReadyFallbackTimer s = true -> convoReady (step s AgentReadyTimeout) = true.
Proof.
  intros H. cbn [step]. rewrite H.
  unfold run, on_ready_timeout, bind, gets, when, modify, ret.
  cbn. now destruct (convoReady s) eqn:E.
Qed.

Lemma set_elReadyFallbackTimer_same (s : Session) :
  elReadyFallbackTimer s = false -> set_elReadyFallbackTimer false s = s.
Proof. destruct s; cbn; intros ->; reflexivity. Qed.

(** C3.  The readiness flag is a one-way latch.  It starts false.  No
    event resets it.  It is set by a message of the agent that has one of
    the initiation-metadata shapes (type tag, event tag, or a metadata
    payload on the envelope) and whose audio formats, when it lists any, can
    be written to the log, and by the fallback timer when it fires; nothing
    else sets it.  Setting it again is a no-op: once it is set, the timer
    callback changes nothing but its own timer, and the part of the message
    callback that marks readiness changes nothing at all. *)
Theorem readiness_latch :
  (forall date time name contact,
      convoReady (initial date time name contact) = false)
  /\ (forall s e, convoReady s = true -> convoReady (step s e) = true)
  /\ (forall s msg,
        initiation_shape msg = true ->
        forallb renders (logged_formats msg) = true ->
        convoReady (step s (AgentMessage (Some msg))) = true)
  /\ (forall s,
        elReadyFallbackTimer s = true ->
        convoReady (step s AgentReadyTimeout) = true)
  /\ (forall s e,
        convoReady s = false -> convoReady (step s e) = true ->
        (e = AgentReadyTimeout /\ elReadyFallbackTimer s = true)
        \/ exists msg, e = AgentMessage (Some msg) /\ initiation_shape msg = true)
  /\ (forall s,
        convoReady s = true ->
        step s AgentReadyTimeout = set_elReadyFallbackTimer false s)
  /\ (forall s msg,
        convoReady s = true -> run (mark_ready_on_metadata msg) s = s).
Proof.
  split; [reflexivity |]. split; [| split; [| split; [| split; [| split]]]].
  - intros s e Hs.
    destruct e as [| [msg|] | | | | | | | | |];
      try (rewrite step_ready_kept;
           [assumption | intros msg'; discriminate | left; discriminate]).
    + rewrite agent_message_ready, Hs. reflexivity.
    + cbn [step]. destruct (elReadyFallbackTimer s) eqn:E; [| assumption].
      cbn [step] in *. unfold run, on_ready_timeout, bind, gets, when, modify, ret.
      cbn. now rewrite Hs.
  - intros s msg Hshape Hlog.
    rewrite agent_message_ready, Hshape, Hlog. apply orb_true_r.
  - apply ready_timeout_sets.
  - intros s e Hs Hs'.
    destruct e as [| [msg|] | | | | | | | | |];
      try (rewrite step_ready_kept in Hs';
           [congruence | intros msg'; discriminate | left; discriminate]).
    + right. exists msg. split; [reflexivity |].
      rewrite agent_message_ready, Hs in Hs'. cbn [orb] in Hs'.
      now apply andb_true_iff in Hs' as [H _].
    + left. split; [reflexivity |].
      destruct (elReadyFallbackTimer s) eqn:E; [reflexivity |].
      cbn [step] in Hs'. rewrite E in Hs'. congruence.
  - intros s Hs. cbn [step].
    destruct (elReadyFallbackTimer s) eqn:E.
    + unfold run, on_ready_timeout, bind, gets, when, modify, ret. cbn.
      now rewrite Hs.
    + symmetry. now apply set_elReadyFallbackTimer_same.
  - intros s msg Hs. unfold run. rewrite mark_ready_on_metadata_state, Hs.
    reflexivity.
Qed.

(** ** The telephony callback *)

Lemma on_twilio_message_dispatch (s : Session) (data : jsval) (ev : jsval) :
  get data "event" = Return ev ->
  step s (TwilioMessage (Some data)) =
  fst ((if is_str ev "start" then on_start data
        else if is_str ev "media" then on_media data
        else if is_str ev "stop" then on_stop data
        else log_template [ev]) s).
Proof.
  intros Hev. cbn [step]. unfold run, on_twilio_message, try_catch.
  cbn [fst JSON_parse]. unfold bind at 1. cbn [ret].
  unfold bind at 1. unfold lift at 1. rewrite Hev. reflexivity.
Qed.

(** C4.  A [media] event that arrives while the readiness flag is false
    changes nothing: nothing is handed to the agent socket, and nothing is
    put in a queue or kept for later. *)
Theorem media_before_ready_dropped (s : Session) (data : jsval) :
  convoReady s = false ->
  get data "event" = Return (JStr "media") ->
  step s (TwilioMessage (Some data)) = s.
Proof.
  intros Hready Hev. rewrite (on_twilio_message_dispatch s data _ Hev).
  cbn [is_str String.eqb Ascii.eqb Bool.eqb andb].
  unfold on_media, bind, gets, when, gate_open, ret. rewrite Hready.
  cbn [andb fst]. rewrite Hready. reflexivity.
Qed.

(** C9.  A [media] event whose payload is a string, arriving while the
    readiness flag is set and the agent socket is open, hands the same
    [user_audio_chunk] message to the agent socket twice. *)
Theorem media_forwarded_twice (s : Session) (data media : jsval) (payload : string) :
  convoReady s = true ->
  elevenLabsWs s = Some OPEN ->
  get data "event" = Return (JStr "media") ->
  get data "media" = Return media ->
  get media "payload" = Return (JStr payload) ->
  toAgent (step s (TwilioMessage (Some data))) =
  toAgent s ++ [user_audio_message (to_base64 (from_base64 payload));
                user_audio_message (to_base64 (from_base64 payload))].
Proof.
  intros Hready Hws Hev Hmedia Hpayload.
  rewrite (on_twilio_message_dispatch s data _ Hev).
  cbn [is_str String.eqb Ascii.eqb Bool.eqb andb].
  unfold on_media, agent_send, bind, gets, when, gate_open, lift, modify,
    Buffer_from.
  repeat (cbn; rewrite ?Hready, ?Hws, ?Hmedia, ?Hpayload).
  now rewrite <- app_assoc.
Qed.

Lemma set_pacerTimer_same (s : Session) :
  pacerTimer s = false -> set_pacerTimer false s = s.
Proof. destruct s; cbn; intros ->; reflexivity. Qed.

Lemma stopPacer_eval (s : Session) :
  stopPacer s = (set_pacerTimer false s, Return tt).
Proof.
  unfold stopPacer, bind, gets, modify, ret.
  destruct (pacerTimer s) eqn:E; cbn [negb]; [reflexivity |].
  now rewrite set_pacerTimer_same.
Qed.

Lemma unchanged_preorder : preorder unchanged.
Proof. split; unfold unchanged; [reflexivity | intros a b c H1 H2; congruence]. Qed.

(** C8.  A [stop] event clears the pacer's interval and changes nothing
    else: after it no timer tick runs the pacer callback, the agent socket
    has not been closed, and the telephony socket is as it was. *)
Theorem stop_only_stops_pacer (s : Session) (data : jsval) :
  get data "event" = Return (JStr "stop") ->
  let s' := step s (TwilioMessage (Some data)) in
  s' = set_pacerTimer false s
  /\ (forall n, steps s' (repeat PacerTick n) = s')
  /\ agentCloseCalls s' = agentCloseCalls s
  /\ elevenLabsWs s' = elevenLabsWs s
  /\ connection s' = connection s.
Proof.
  intros Hev s'.
  assert (Hs' : s' = set_pacerTimer false s).
  { unfold s'. rewrite (on_twilio_message_dispatch s data _ Hev).
    cbn [is_str String.eqb Ascii.eqb Bool.eqb andb].
    unfold on_stop. unfold bind at 1. rewrite stopPacer_eval.
    assert (H : preserves unchanged
                  (sid <- lift (get data "streamSid") ;; log_template [sid]))
      by frame unchanged_preorder idtac.
    apply H. }
  split; [exact Hs' |]. rewrite Hs'. repeat split.
  induction n as [|n IH]; [reflexivity |]. cbn [repeat steps fold_left step].
  cbn [set_pacerTimer pacerTimer]. exact IH.
Qed.

(** ** The pacer *)

Lemma set_stats_same (s : Session) : set_stats (stats s) s = s.
Proof. now destruct s. Qed.

(** The pacer callback never lets an exception out. *)
Lemma pacer_tick_returns (s : Session) : snd (pacer_tick s) = Return tt.
Proof. reflexivity. Qed.

Lemma pacer_tick_idle (s : Session) :
  truthy (streamSid s) = false \/ outQueue s = [] -> run pacer_tick s = s.
Proof.
  intros H. unfold run, pacer_tick, try_catch, queue_shift, bind, gets, modify, ret.
  cbn [fst]. destruct (is_open (connection s)); cbn [negb]; [| reflexivity].
  destruct (truthy (streamSid s)) eqn:Hsid; cbn [negb]; [| reflexivity].
  destruct H as [H | H]; [discriminate |]. rewrite H. reflexivity.
Qed.

(** One tick with a frame to send: the frame leaves the queue and goes to
    the telephony socket; only the byte counter may change besides. *)
Lemma pacer_tick_sends (s : Session) (frame : jsval) (rest : list jsval) :
  connection s = OPEN ->
  renders (streamSid s) = true ->
  truthy (streamSid s) = true ->
  truthy frame = true ->
  outQueue s = frame :: rest ->
  exists st,
    run pacer_tick s =
    set_stats st
      (set_toTwilio (toTwilio s ++ [media_message (streamSid s) frame])
         (set_outQueue rest s)).
Proof.
  intros Hopen Hrend Hsid Hframe Hq.
  unfold run, pacer_tick, try_catch, queue_shift, twilio_send, log_template,
    bind, gets, modify, ret, lift.
  cbn [fst]. rewrite Hopen. cbn [is_open negb]. rewrite Hsid. cbn [negb].
  rewrite Hq. cbn [fst snd]. rewrite Hframe. cbn [negb].
  cbn [forallb renders andb]. rewrite Hrend. cbn [andb].
  cbn [connection set_outQueue]. rewrite Hopen. cbn [is_open].
  destruct (Buffer_from frame) as [buf|e].
  - eexists. unfold add_forwardedToTwilioBytes. cbn. reflexivity.
  - exists (stats s). cbn. reflexivity.
Qed.

Lemma ticks_fifo (n : nat) :
  forall s,
    connection s = OPEN ->
    renders (streamSid s) = true ->
    truthy (streamSid s) = true ->
    all_truthy (outQueue s) ->
    toTwilio (ticks n s) =
    toTwilio s ++ map (media_message (streamSid s)) (firstn n (outQueue s))
    /\ outQueue (ticks n s) = skipn n (outQueue s).
Proof.
  induction n as [|n IH]; intros s Hopen Hrend Hsid Hq.
  - cbn. now rewrite app_nil_r.
  - cbn [ticks]. destruct (outQueue s) as [|frame rest] eqn:Eq.
    + rewrite pacer_tick_idle by (now right). rewrite <- Eq in Hq.
      destruct (IH s Hopen Hrend Hsid Hq) as [H1 H2].
      rewrite Eq in H1, H2. rewrite firstn_nil in H1. rewrite skipn_nil in H2.
      now split.
    + inversion Hq as [|? ? Hframe Hrest]; subst.
      destruct (pacer_tick_sends s frame rest Hopen Hrend Hsid Hframe Eq) as [st ->].
      set (s1 := set_stats st _).
      destruct (IH s1 Hopen Hrend Hsid Hrest) as [H1 H2].
      cbn [firstn skipn map]. rewrite H1, H2. unfold s1. cbn.
      now rewrite <- app_assoc.
Qed.

(** C1.  A tick of the pacer while the telephony socket is open, in a
    session whose stream identifier can be written to the log and whose
    queue holds frames (values that are not falsy): no exception leaves the
    callback; when the stream identifier is unset or the queue is empty the
    tick changes nothing; otherwise the first frame of the queue is removed
    and handed to the socket as one media message for the current stream
    identifier, and nothing else is sent.  Hence [n] ticks send the first
    [n] queued frames, in the order of the queue. *)
Theorem pacer_one_frame_per_tick (s : Session) :
  connection s = OPEN ->
  renders (streamSid s) = true ->
  all_truthy (outQueue s) ->
  snd (pacer_tick s) = Return tt
  /\ (truthy (streamSid s) = false \/ outQueue s = [] -> run pacer_tick s = s)
  /\ (truthy (streamSid s) = true ->
      forall frame rest,
        outQueue s = frame :: rest ->
        outQueue (run pacer_tick s) = rest
        /\ toTwilio (run pacer_tick s) =
           toTwilio s ++ [media_message (streamSid s) frame])
  /\ (truthy (streamSid s) = true ->
      forall n,
        toTwilio (ticks n s) =
        toTwilio s ++ map (media_message (streamSid s)) (firstn n (outQueue s))
        /\ outQueue (ticks n s) = skipn n (outQueue s)).
Proof.
  intros Hopen Hrend Hq. split; [reflexivity |]. split; [apply pacer_tick_idle |].
  split.
  - intros Hsid frame rest Eq.
    assert (Hframe : truthy frame = true).
    { unfold all_truthy in Hq. rewrite Eq in Hq. now inversion Hq. }
    destruct (pacer_tick_sends s frame rest Hopen Hrend Hsid Hframe Eq) as [st ->].
    split; reflexivity.
  - intros Hsid n. now apply ticks_fifo.
Qed.

(** *** The queue holds frames *)

Section QueueInvariant.

(** The encoding of a buffer that is not empty is not the empty string. *)
Hypothesis to_base64_nonempty :
  forall b : Buffer, b <> [] -> to_base64 b <> EmptyString.

Lemma queue_kept_preorder : preorder queue_kept.
Proof. split; unfold queue_kept; auto. Qed.

Ltac queue_kept_fin :=
  unfold queue_kept; cbn;
  repeat match goal with |- context [if ?b then _ else _] => destruct b end;
  solve [auto].

Lemma frames_truthy (q : list jsval) (buf : Buffer) :
  all_truthy q ->
  all_truthy (q ++ map (fun frame => JStr (to_base64 frame)) (packetize buf)).
Proof using to_base64_nonempty.
  intros Hq. unfold all_truthy in *.
  apply Forall_app. split; [assumption |].
  apply Forall_forall. intros v' Hin. apply in_map_iff in Hin as [f [<- Hf]].
  apply truthy_JStr, to_base64_nonempty.
  pose proof (packetize_In buf f Hf) as Hlen.
  intros ->. change (blen []) with 0 in Hlen. lia.
Qed.

Lemma queue_shift_queue : preserves queue_kept queue_shift.
Proof.
  intros s Hq. unfold queue_shift. unfold all_truthy in *.
  destruct (outQueue s) as [|x rest] eqn:E; cbn; [now rewrite E |].
  now inversion Hq.
Qed.

Lemma step_queue (s : Session) (e : event) : queue_kept s (step s e).
Proof using to_base64_nonempty.
  destruct e; cbn [step].
  - unfold run, on_agent_open, agent_send.
    match goal with |- queue_kept s (fst (?m s)) => cut (preserves queue_kept m) end;
      [intros H; apply H | frame queue_kept_preorder queue_kept_fin].
  - unfold run, on_agent_message, mark_ready_on_metadata, is_initiation_metadata,
      enqueue_agent_audio, pick_audio, enqueueELBase64.
    match goal with |- queue_kept s (fst (?m s)) => cut (preserves queue_kept m) end;
      [intros H; apply H |].
    frame queue_kept_preorder queue_kept_fin.
    apply (preserves_modify _ queue_kept_preorder). intros s0 Hq.
    now apply frames_truthy.
  - destruct (elReadyFallbackTimer s); [| now intros H].
    unfold run, on_ready_timeout, bind, gets, when, modify, ret.
    cbn. destruct (convoReady s); cbn; now intros H.
  - now intros H.
  - now intros H.
  - destruct (elevenLabsWs s); now intros H.
  - unfold run, on_twilio_message, on_start, on_media, on_stop, startPacer,
      stopPacer, agent_send.
    match goal with |- queue_kept s (fst (?m s)) => cut (preserves queue_kept m) end;
      [intros H; apply H | frame queue_kept_preorder queue_kept_fin].
  - unfold run, on_twilio_close, stopPacer.
    match goal with |- queue_kept s (fst (?m s)) => cut (preserves queue_kept m) end;
      [intros H; apply H | frame queue_kept_preorder queue_kept_fin].
  - unfold run, on_twilio_error.
    match goal with |- queue_kept s (fst (?m s)) => cut (preserves queue_kept m) end;
      [intros H; apply H | frame queue_kept_preorder queue_kept_fin].
  - now intros H.
  - destruct (pacerTimer s); [| now intros H].
    unfold run, pacer_tick, twilio_send.
    match goal with |- queue_kept s (fst (?m s)) => cut (preserves queue_kept m) end;
      [intros H; apply H |].
    frame queue_kept_preorder queue_kept_fin.
    apply queue_shift_queue.
Qed.

(** In every run of the relay the queue holds only frames produced by
    the packetizer, none of which is falsy. *)
Lemma reachable_queue (date time name contact : jsval) (es : list event) :
  all_truthy (outQueue (steps (initial date time name contact) es)).
Proof using to_base64_nonempty.
  unfold steps. rewrite <- fold_left_rev_right.
  induction (rev es) as [|e es' IH]; cbn [fold_right].
  - constructor.
  - now apply step_queue.
Qed.

End QueueInvariant.

(** ** Interruption *)

Lemma twilio_kept_preorder : preorder twilio_kept.
Proof. split; unfold twilio_kept; [reflexivity | intros a b c H1 H2; congruence]. Qed.

Ltac twilio_kept_fin :=
  unfold twilio_kept; cbn;
  repeat match goal with |- context [if ?b then _ else _] => destruct b end;
  reflexivity.

(** The message callback of the agent socket hands nothing to the
    telephony socket, whatever the message. *)
Lemma agent_message_sends_nothing (s : Session) (parsed : option jsval) :
  toTwilio (step s (AgentMessage parsed)) = toTwilio s.
Proof.
  cbn [step]. unfold run.
  match goal with |- toTwilio (fst (?m s)) = _ => cut (preserves twilio_kept m) end;
    [intros H; apply H |].
  unfold on_agent_message, mark_ready_on_metadata, is_initiation_metadata,
    enqueue_agent_audio, pick_audio, enqueueELBase64.
  frame twilio_kept_preorder twilio_kept_fin.
Qed.

(** [handleElevenLabsMessage], were it called on an interruption message,
    would send one [clear] for the current stream identifier. *)
Lemma handleElevenLabsMessage_interruption (s : Session) (msg : jsval) :
  get msg "type" = Return (JStr "interruption") ->
  connection s = OPEN ->
  run (handleElevenLabsMessage msg) s =
  set_toTwilio (toTwilio s ++ [clear_message (streamSid s)]) s.
Proof.
  intros Htype Hopen.
  unfold run, handleElevenLabsMessage, twilio_send, bind, lift, gets, modify.
  rewrite Htype. cbn. now rewrite Hopen.
Qed.

(** * The rest of the code *)

(** ** More of the WAV parser *)

(** One turn of the walk on a chunk header that declares [n] bytes, whatever
    follows it. *)
Lemma wav_loop_declared (buf a id c : Buffer) (n : N) (st : WavScan) :
  buf = a ++ id ++ le_bytes 4 n ++ c ->
  List.length id = 4%nat -> (n < 4294967296)%N ->
  wav_loop buf (blen a) st =
  match scan_chunk buf id (blen a + 8) n st with
  | Throw e => Throw e
  | Return st' =>
      if scan_done st' then Return st'
      else wav_loop buf (blen a + 8 + Z.of_N n + Z.of_N (n mod 2)) st'
  end.
Proof.
  intros Hbuf Hid Hn. rewrite wav_loop_unfolded.
  assert (Hid' : blen id = 4) by (unfold blen; lia).
  destruct (Z_le_dec (blen a + 8) (blen buf)) as [_|Hne].
  2:{ exfalso. apply Hne. subst buf. rewrite !blen_app, blen_le_bytes.
      pose proof (blen_nonneg c). lia. }
  replace (readUInt32LE buf (blen a + 4)) with (Return (A := N) n).
  2:{ subst buf. rewrite (app_assoc a id). unfold readUInt32LE.
      rewrite (readUIntLE_middle (a ++ id) (le_bytes 4 n) c).
      - now rewrite le_value_le_bytes.
      - rewrite blen_app. lia.
      - apply length_le_bytes. }
  replace (subarray buf (blen a) (blen a + 4)) with id.
  2:{ subst buf. symmetry. apply subarray_middle; [reflexivity | lia]. }
  reflexivity.
Qed.

Lemma subarray_tail (a rest : Buffer) (s e : Z) :
  s = blen a -> 0 <= e -> subarray (a ++ rest) s (s + e) = subarray rest 0 e.
Proof.
  intros -> He. pose proof (blen_nonneg a). pose proof (blen_nonneg rest).
  rewrite !subarray_nonneg by lia. rewrite blen_app.
  replace (Z.to_nat (Z.min (blen a) (blen a + blen rest))) with (List.length a)
    by (unfold blen in *; lia).
  rewrite skipn_app, skipn_all, Nat.sub_diag. cbn [skipn app].
  replace (Z.to_nat (Z.min 0 (blen rest))) with 0%nat by lia. cbn [skipn].
  f_equal. unfold blen in *. lia.
Qed.

Lemma riff_wave_header (sz rest : Buffer) :
  List.length sz = 4%nat ->
  12 <= blen (riff_wave sz ++ rest)
  /\ is_ascii (subarray (riff_wave sz ++ rest) 0 4) "RIFF" = true
  /\ is_ascii (subarray (riff_wave sz ++ rest) 8 12) "WAVE" = true
  /\ blen (riff_wave sz) = 12.
Proof.
  intros Hsz. destruct (riff_header sz rest Hsz) as (H12 & Hriff & Hwave & _).
  unfold riff_wave. rewrite <- !app_assoc. repeat split; try assumption.
  rewrite !app_assoc, !blen_app.
  change (blen (list_byte_of_string "RIFF")) with 4.
  change (blen (list_byte_of_string "WAVE")) with 4. unfold blen. lia.
Qed.

(** The walk from the first chunk of a RIFF/WAVE buffer. *)
Lemma parseWavAndExtractData_walk (sz rest : Buffer) :
  List.length sz = 4%nat ->
  parseWavAndExtractData (riff_wave sz ++ rest) =
  (let? st := wav_loop (riff_wave sz ++ rest) (blen (riff_wave sz)) scan_init in
   match scan_dataStart st, scan_dataSize st with
   | Some dataStart, Some dataSize =>
       Return (mkWavInfo
                 (subarray (riff_wave sz ++ rest) dataStart (dataStart + Z.of_N dataSize))
                 (scan_audioFormat st) (scan_numChannels st)
                 (scan_sampleRate st) (scan_bitsPerSample st))
   | _, _ => Throw (Error "WAV has no data chunk")
   end)%outcome.
Proof.
  intros Hsz. destruct (riff_wave_header sz rest Hsz) as (_ & Hriff & Hwave & H12).
  unfold parseWavAndExtractData. rewrite Hriff, Hwave, H12. reflexivity.
Qed.

(** The normalizer on a string that decodes to a RIFF/WAVE buffer. *)
Lemma ensureRawUlawBase64_on_wav (s : string) (sz rest : Buffer) :
  s <> EmptyString -> from_base64 s = riff_wave sz ++ rest ->
  List.length sz = 4%nat ->
  ensureRawUlawBase64 (JStr s) =
  (let? info := parseWavAndExtractData (riff_wave sz ++ rest) in
   if negb (is_num (audioFormat info) 7)
   then Return (EnsureFail (ReasonWavNotUlaw (audioFormat info)))
   else Return (EnsureOk (JStr (to_base64 (data info))) NoteStrippedWav))%outcome.
Proof.
  intros Hs Hbuf Hsz.
  destruct (riff_wave_header sz rest Hsz) as (H12 & Hriff & Hwave & _).
  unfold ensureRawUlawBase64. rewrite truthy_JStr by assumption.
  cbn [negb Buffer_from obind]. rewrite Hbuf, Hriff, Hwave.
  apply Z.leb_le in H12. now rewrite H12.
Qed.

Lemma scan_chunk_data (buf : Buffer) (start : Z) (size : N) (st : WavScan) :
  scan_chunk buf (list_byte_of_string "data") start size st =
  Return (mkWavScan (scan_audioFormat st) (scan_numChannels st)
            (scan_sampleRate st) (scan_bitsPerSample st) (Some start) (Some size)).
Proof. reflexivity. Qed.

Lemma size_of_bound (b : Buffer) : blen b < 2 ^ 32 -> (size_of b < 4294967296)%N.
Proof.
  intros H. rewrite <- size_of_blen in H. change (2 ^ 32) with 4294967296 in H. lia.
Qed.

(** The parser on a buffer laid out as [wav_data_first]. *)
Lemma parseWavAndExtractData_data_first (sz : Buffer) (pre mid : list (Buffer * Buffer))
    (X fmt post : Buffer) :
  List.length sz = 4%nat ->
  Forall other_chunk pre -> Forall other_chunk mid ->
  blen X < 2 ^ 32 -> 16 <= blen fmt < 2 ^ 32 ->
  parseWavAndExtractData (wav_data_first sz pre X mid fmt post) =
  Return (mkWavInfo X (Some (fmt_tag fmt))
            (Some (le_value (firstn 2 (skipn 2 fmt))))
            (Some (le_value (firstn 4 (skipn 4 fmt))))
            (Some (le_value (firstn 2 (skipn 14 fmt))))).
Proof.
  intros Hsz Hpre Hmid HX Hfmt.
  set (datac := (list_byte_of_string "data", X)).
  set (tailF := list_byte_of_string "fmt " ++ le_bytes 4 (size_of fmt) ++ fmt ++ post).
  set (hdr := riff_wave sz).
  unfold wav_data_first. fold datac tailF hdr.
  unfold hdr at 1. rewrite parseWavAndExtractData_walk by assumption. fold hdr.
  rewrite wav_loop_skip by (assumption || reflexivity).
  set (buf := hdr ++ chunks_bytes pre ++ chunk_bytes datac ++ chunks_bytes mid ++ tailF).
  set (a1 := hdr ++ chunks_bytes pre).
  replace (blen hdr + blen (chunks_bytes pre)) with (blen a1)
    by (unfold a1; now rewrite blen_app).
  set (padX := if N.odd (size_of X) then [x00] else []).
  rewrite (wav_loop_header buf a1 (fst datac) (snd datac)
             (padX ++ chunks_bytes mid ++ tailF));
    [| unfold buf, a1, chunk_bytes, padX; cbn [fst snd datac]; now rewrite <- !app_assoc
     | reflexivity | cbn [snd datac]; lia].
  cbn [fst snd datac]. rewrite scan_chunk_data.
  cbn [scan_done scan_dataStart scan_audioFormat scan_dataSize scan_init
       scan_numChannels scan_sampleRate scan_bitsPerSample].
  set (st1 := mkWavScan None None None None _ _).
  set (a2 := a1 ++ chunk_bytes datac).
  replace (blen a1 + 8 + Z.of_N (size_of X) + Z.of_N (size_of X mod 2))
    with (blen a2)
    by (unfold a2; rewrite blen_app, blen_chunk_bytes; cbn [fst snd datac];
        rewrite size_of_blen; change (blen (list_byte_of_string "data")) with 4; lia).
  replace buf with (a2 ++ chunks_bytes mid ++ tailF)
    by (unfold buf, a2, a1; now rewrite <- !app_assoc).
  rewrite wav_loop_skip by (assumption || reflexivity).
  set (a3 := a2 ++ chunks_bytes mid).
  replace (blen a2 + blen (chunks_bytes mid)) with (blen a3)
    by (unfold a3; now rewrite blen_app).
  rewrite (wav_loop_header _ a3 (list_byte_of_string "fmt ") fmt post);
    [| unfold a3, tailF; now rewrite <- !app_assoc | reflexivity | lia].
  set (a3' := a3 ++ list_byte_of_string "fmt " ++ le_bytes 4 (size_of fmt)).
  replace (a2 ++ chunks_bytes mid ++ tailF) with (a3' ++ fmt ++ post) at 1
    by (unfold a3', a3, tailF; now rewrite <- !app_assoc).
  rewrite scan_chunk_fmt;
    [| unfold a3'; rewrite !blen_app, blen_le_bytes;
       change (blen (list_byte_of_string "fmt ")) with 4; lia
     | lia].
  unfold st1.
  cbn [scan_done scan_dataStart scan_audioFormat scan_dataSize scan_numChannels
       scan_sampleRate scan_bitsPerSample obind].
  do 2 f_equal.
  replace (a2 ++ chunks_bytes mid ++ tailF)
    with ((a1 ++ list_byte_of_string "data" ++ le_bytes 4 (size_of X))
            ++ X ++ (padX ++ chunks_bytes mid ++ tailF))
    by (unfold a2, chunk_bytes, padX; cbn [fst snd datac]; now rewrite <- !app_assoc).
  apply subarray_middle.
  - rewrite !blen_app, blen_le_bytes.
    change (blen (list_byte_of_string "data")) with 4. lia.
  - rewrite !blen_app, blen_le_bytes, size_of_blen.
    change (blen (list_byte_of_string "data")) with 4. lia.
Qed.

(** X1.  The order of the two chunks does not matter to the normalizer: a
    mu-law WAV whose data chunk comes before its format chunk is stripped to
    its data bytes as well. *)
Theorem ensureRawUlawBase64_data_first (s : string) (sz : Buffer)
    (pre mid : list (Buffer * Buffer)) (X fmt post : Buffer) :
  s <> EmptyString ->
  from_base64 s = wav_data_first sz pre X mid fmt post ->
  List.length sz = 4%nat ->
  Forall other_chunk pre -> Forall other_chunk mid ->
  blen X < 2 ^ 32 -> 16 <= blen fmt < 2 ^ 32 ->
  fmt_tag fmt = 7%N ->
  ensureRawUlawBase64 (JStr s) =
  Return (EnsureOk (JStr (to_base64 X)) NoteStrippedWav).
Proof.
  intros Hs Hbuf Hsz Hpre Hmid HX Hfmt Htag.
  rewrite (ensureRawUlawBase64_on_wav s sz _ Hs Hbuf Hsz).
  change (riff_wave sz ++ _) with (wav_data_first sz pre X mid fmt post).
  rewrite parseWavAndExtractData_data_first by assumption.
  cbn [obind audioFormat data is_num]. rewrite Htag. reflexivity.
Qed.

(** The walk up to the data header of a buffer laid out as [wav_declared]. *)
Lemma parseWavAndExtractData_declared (sz : Buffer) (pre mid : list (Buffer * Buffer))
    (fmt rest : Buffer) (n : N) :
  List.length sz = 4%nat ->
  Forall other_chunk pre -> Forall other_chunk mid ->
  16 <= blen fmt < 2 ^ 32 -> (n < 4294967296)%N ->
  parseWavAndExtractData (wav_declared sz pre fmt mid n rest) =
  Return (mkWavInfo (subarray rest 0 (Z.of_N n)) (Some (fmt_tag fmt))
            (Some (le_value (firstn 2 (skipn 2 fmt))))
            (Some (le_value (firstn 4 (skipn 4 fmt))))
            (Some (le_value (firstn 2 (skipn 14 fmt))))).
Proof.
  intros Hsz Hpre Hmid Hfmt Hn.
  set (fmtc := (list_byte_of_string "fmt ", fmt)).
  set (tailX := list_byte_of_string "data" ++ le_bytes 4 n ++ rest).
  set (hdr := riff_wave sz).
  unfold wav_declared. fold fmtc tailX hdr.
  unfold hdr at 1. rewrite parseWavAndExtractData_walk by assumption. fold hdr.
  rewrite wav_loop_skip by (assumption || reflexivity).
  set (buf := hdr ++ chunks_bytes pre ++ chunk_bytes fmtc ++ chunks_bytes mid ++ tailX).
  set (a1 := hdr ++ chunks_bytes pre).
  replace (blen hdr + blen (chunks_bytes pre)) with (blen a1)
    by (unfold a1; now rewrite blen_app).
  set (padF := if N.odd (size_of fmt) then [x00] else []).
  rewrite (wav_loop_header buf a1 (fst fmtc) (snd fmtc)
             (padF ++ chunks_bytes mid ++ tailX));
    [| unfold buf, a1, chunk_bytes, padF; cbn [fst snd fmtc]; now rewrite <- !app_assoc
     | reflexivity | cbn [snd fmtc]; lia].
  cbn [fst snd fmtc].
  set (a1' := a1 ++ list_byte_of_string "fmt " ++ le_bytes 4 (size_of fmt)).
  replace buf with (a1' ++ fmt ++ (padF ++ chunks_bytes mid ++ tailX)) at 1
    by (unfold buf, a1', a1, chunk_bytes, padF; cbn [fst snd fmtc];
        now rewrite <- !app_assoc).
  rewrite scan_chunk_fmt;
    [| unfold a1'; rewrite !blen_app, blen_le_bytes;
       change (blen (list_byte_of_string "fmt ")) with 4; lia
     | lia].
  cbn [scan_done scan_dataStart scan_audioFormat scan_dataSize scan_init].
  set (st1 := mkWavScan _ _ _ _ None None).
  set (a2 := a1 ++ chunk_bytes fmtc).
  replace (blen a1 + 8 + Z.of_N (size_of fmt) + Z.of_N (size_of fmt mod 2))
    with (blen a2)
    by (unfold a2; rewrite blen_app, blen_chunk_bytes; cbn [fst snd fmtc];
        rewrite size_of_blen; change (blen (list_byte_of_string "fmt ")) with 4; lia).
  replace buf with (a2 ++ chunks_bytes mid ++ tailX)
    by (unfold buf, a2, a1; now rewrite <- !app_assoc).
  rewrite wav_loop_skip by (assumption || reflexivity).
  set (a3 := a2 ++ chunks_bytes mid).
  replace (blen a2 + blen (chunks_bytes mid)) with (blen a3)
    by (unfold a3; now rewrite blen_app).
  rewrite (wav_loop_declared _ a3 (list_byte_of_string "data") rest n);
    [| unfold a3, tailX; now rewrite <- !app_assoc | reflexivity | assumption].
  rewrite scan_chunk_data. unfold st1.
  cbn [scan_done scan_dataStart scan_audioFormat scan_dataSize scan_numChannels
       scan_sampleRate scan_bitsPerSample obind].
  do 2 f_equal.
  replace (a2 ++ chunks_bytes mid ++ tailX)
    with ((a3 ++ list_byte_of_string "data" ++ le_bytes 4 n) ++ rest)
    by (unfold a3, tailX; now rewrite <- !app_assoc).
  apply subarray_tail; [| lia].
  rewrite !blen_app, blen_le_bytes.
  change (blen (list_byte_of_string "data")) with 4. lia.
Qed.

(** X2.  The size that the data header declares is not checked against the
    buffer: the normalizer returns the first [n] bytes that follow the header,
    or all of them when fewer than [n] are left (a streamed file that declares
    [0xffffffff] comes back whole, one that declares 0 comes back empty). *)
Theorem ensureRawUlawBase64_declared_size (s : string) (sz : Buffer)
    (pre mid : list (Buffer * Buffer)) (fmt rest : Buffer) (n : N) :
  s <> EmptyString ->
  from_base64 s = wav_declared sz pre fmt mid n rest ->
  List.length sz = 4%nat ->
  Forall other_chunk pre -> Forall other_chunk mid ->
  16 <= blen fmt < 2 ^ 32 -> (n < 4294967296)%N ->
  fmt_tag fmt = 7%N ->
  ensureRawUlawBase64 (JStr s) =
  Return (EnsureOk (JStr (to_base64 (subarray rest 0 (Z.of_N n)))) NoteStrippedWav).
Proof.
  intros Hs Hbuf Hsz Hpre Hmid Hfmt Hn Htag.
  rewrite (ensureRawUlawBase64_on_wav s sz _ Hs Hbuf Hsz).
  change (riff_wave sz ++ _) with (wav_declared sz pre fmt mid n rest).
  rewrite parseWavAndExtractData_declared by assumption.
  cbn [obind audioFormat data is_num]. rewrite Htag. reflexivity.
Qed.

(** X3.  A RIFF/WAVE buffer that has a data chunk and no format chunk is
    refused with the reason [wav-not-ulaw(fmt=null)]; the parser itself
    returns the data with a [null] format. *)
Theorem ensureRawUlawBase64_without_fmt (s : string) (sz : Buffer)
    (pre post : list (Buffer * Buffer)) (X tail : Buffer) :
  s <> EmptyString ->
  from_base64 s = wav_without_fmt sz pre X post tail ->
  List.length sz = 4%nat ->
  Forall other_chunk pre -> Forall other_chunk post ->
  blen X < 2 ^ 32 -> blen tail < 8 ->
  parseWavAndExtractData (from_base64 s) = Return (mkWavInfo X None None None None)
  /\ ensureRawUlawBase64 (JStr s) = Return (EnsureFail (ReasonWavNotUlaw None)).
Proof.
  intros Hs Hbuf Hsz Hpre Hpost HX Htail.
  assert (Hparse : parseWavAndExtractData (wav_without_fmt sz pre X post tail) =
                   Return (mkWavInfo X None None None None)).
  { set (datac := (list_byte_of_string "data", X)).
    set (hdr := riff_wave sz).
    unfold wav_without_fmt. fold datac hdr.
    unfold hdr at 1. rewrite parseWavAndExtractData_walk by assumption. fold hdr.
    rewrite wav_loop_skip by (assumption || reflexivity).
    set (buf := hdr ++ chunks_bytes pre ++ chunk_bytes datac ++ chunks_bytes post ++ tail).
    set (a1 := hdr ++ chunks_bytes pre).
    replace (blen hdr + blen (chunks_bytes pre)) with (blen a1)
      by (unfold a1; now rewrite blen_app).
    set (padX := if N.odd (size_of X) then [x00] else []).
    rewrite (wav_loop_header buf a1 (fst datac) (snd datac)
               (padX ++ chunks_bytes post ++ tail));
      [| unfold buf, a1, chunk_bytes, padX; cbn [fst snd datac];
         now rewrite <- !app_assoc
       | reflexivity | cbn [snd datac]; lia].
    cbn [fst snd datac]. rewrite scan_chunk_data.
    cbn [scan_done scan_dataStart scan_audioFormat scan_dataSize scan_init
         scan_numChannels scan_sampleRate scan_bitsPerSample].
    set (st1 := mkWavScan None None None None _ _).
    set (a2 := a1 ++ chunk_bytes datac).
    replace (blen a1 + 8 + Z.of_N (size_of X) + Z.of_N (size_of X mod 2))
      with (blen a2)
      by (unfold a2; rewrite blen_app, blen_chunk_bytes; cbn [fst snd datac];
          rewrite size_of_blen; change (blen (list_byte_of_string "data")) with 4; lia).
    replace buf with (a2 ++ chunks_bytes post ++ tail)
      by (unfold buf, a2, a1; now rewrite <- !app_assoc).
    rewrite wav_loop_skip by (assumption || reflexivity).
    replace (a2 ++ chunks_bytes post ++ tail) with ((a2 ++ chunks_bytes post) ++ tail)
      by (now rewrite <- app_assoc).
    rewrite <- blen_app, wav_loop_end by assumption.
    unfold st1.
    cbn [scan_dataStart scan_audioFormat scan_dataSize scan_numChannels
         scan_sampleRate scan_bitsPerSample obind].
    do 2 f_equal.
    replace ((a2 ++ chunks_bytes post) ++ tail)
      with ((a1 ++ list_byte_of_string "data" ++ le_bytes 4 (size_of X))
              ++ X ++ (padX ++ chunks_bytes post ++ tail))
      by (unfold a2, chunk_bytes, padX; cbn [fst snd datac]; now rewrite <- !app_assoc).
    apply subarray_middle.
    - rewrite !blen_app, blen_le_bytes.
      change (blen (list_byte_of_string "data")) with 4. lia.
    - rewrite !blen_app, blen_le_bytes, size_of_blen.
      change (blen (list_byte_of_string "data")) with 4. lia. }
  split; [now rewrite Hbuf |].
  rewrite (ensureRawUlawBase64_on_wav s sz _ Hs Hbuf Hsz).
  change (riff_wave sz ++ _) with (wav_without_fmt sz pre X post tail).
  rewrite Hparse. reflexivity.
Qed.

Lemma readUIntLE_cases (b : Buffer) (off : Z) (n : nat) :
  (exists v, readUIntLE b off n = Return v)
  \/ readUIntLE b off n = Throw (RangeError "The value of offset is out of range").
Proof.
  unfold readUIntLE. destruct ((0 <=? off) && (off + Z.of_nat n <=? blen b));
    [left; eexists; reflexivity | right; reflexivity].
Qed.

Lemma readUIntLE_out_of_range (b : Buffer) (off : Z) (n : nat) :
  blen b < off + Z.of_nat n ->
  readUIntLE b off n = Throw (RangeError "The value of offset is out of range").
Proof.
  intros H. unfold readUIntLE.
  replace (off + Z.of_nat n <=? blen b) with false by (symmetry; apply Z.leb_gt; lia).
  now rewrite andb_false_r.
Qed.

(** X4.  A RIFF/WAVE buffer that ends less than 16 bytes into its format
    chunk makes the parser, and with it the normalizer, raise a
    [RangeError]: the four fields are read without a test of the chunk's
    size. *)
Theorem ensureRawUlawBase64_short_fmt (s : string) (sz : Buffer)
    (pre : list (Buffer * Buffer)) (n : N) (body : Buffer) :
  s <> EmptyString ->
  from_base64 s = wav_short_fmt sz pre n body ->
  List.length sz = 4%nat ->
  Forall other_chunk pre -> (n < 4294967296)%N -> blen body < 16 ->
  exists msg, ensureRawUlawBase64 (JStr s) = Throw (RangeError msg).
Proof.
  intros Hs Hbuf Hsz Hpre Hn Hbody.
  rewrite (ensureRawUlawBase64_on_wav s sz _ Hs Hbuf Hsz).
  set (hdr := riff_wave sz).
  set (tailF := list_byte_of_string "fmt " ++ le_bytes 4 n ++ body).
  unfold hdr at 1. rewrite parseWavAndExtractData_walk by assumption. fold hdr.
  rewrite wav_loop_skip by (assumption || reflexivity).
  set (buf := hdr ++ chunks_bytes pre ++ tailF).
  set (a1 := hdr ++ chunks_bytes pre).
  replace (blen hdr + blen (chunks_bytes pre)) with (blen a1)
    by (unfold a1; now rewrite blen_app).
  rewrite (wav_loop_declared buf a1 (list_byte_of_string "fmt ") body n);
    [| unfold buf, a1, tailF; now rewrite <- !app_assoc | reflexivity | assumption].
  assert (Hlen : blen buf = blen a1 + 8 + blen body).
  { unfold buf, a1, tailF. rewrite !blen_app, blen_le_bytes.
    change (blen (list_byte_of_string "fmt ")) with 4. lia. }
  unfold scan_chunk.
  change (is_ascii (list_byte_of_string "fmt ") "fmt ") with true. cbv iota.
  unfold readUInt16LE, readUInt32LE.
  rewrite (readUIntLE_out_of_range buf (blen a1 + 8 + 14) 2) by lia.
  exists "The value of offset is out of range"%string.
  destruct (readUIntLE_cases buf (blen a1 + 8 + 0) 2) as [[v0 ->] | ->]; [| reflexivity].
  destruct (readUIntLE_cases buf (blen a1 + 8 + 2) 2) as [[v1 ->] | ->]; [| reflexivity].
  destruct (readUIntLE_cases buf (blen a1 + 8 + 4) 4) as [[v2 ->] | ->]; reflexivity.
Qed.

Lemma riff_start (buf : Buffer) :
  is_ascii (subarray buf 0 4) "RIFF" = true ->
  starts_with (list_byte_of_string "RIFF") buf.
Proof.
  intros H. apply is_ascii_spec in H. rewrite subarray_0 in H by lia.
  exists (skipn 4 buf). rewrite <- H. symmetry. apply firstn_skipn.
Qed.

(** X5.  On a string whose bytes do not begin with [RIFF] the normalizer
    never raises and never alters the audio: it refuses the input as an MP3
    or Ogg container, or returns the very string it was given, marked raw. *)
Theorem ensureRawUlawBase64_not_riff (s : string) :
  s <> EmptyString ->
  ~ starts_with (list_byte_of_string "RIFF") (from_base64 s) ->
  ensureRawUlawBase64 (JStr s) = Return (EnsureFail ReasonMp3Container)
  \/ ensureRawUlawBase64 (JStr s) = Return (EnsureFail ReasonOggContainer)
  \/ ensureRawUlawBase64 (JStr s) = Return (EnsureOk (JStr s) NoteRaw).
Proof.
  intros Hs Hriff.
  unfold ensureRawUlawBase64. rewrite truthy_JStr by assumption.
  cbn [negb Buffer_from obind].
  destruct (is_ascii (subarray (from_base64 s) 0 4) "RIFF") eqn:E.
  - apply riff_start in E. contradiction.
  - rewrite andb_false_r. cbn [andb].
    destruct ((3 <=? blen (from_base64 s)) && _); [now left |].
    destruct ((4 <=? blen (from_base64 s)) && _); [right; now left |].
    right; now right.
Qed.

(** ** The container stripping of the relay *)

Lemma indexOf_from_found (needle : Buffer) (k : nat) :
  forall (b : Buffer) (j : Z),
    absent_before needle b k ->
    is_prefix needle (skipn k b) = true ->
    (k <= List.length b)%nat ->
    indexOf_from needle b j = j + Z.of_nat k.
Proof.
  induction k as [|k IH]; intros b j Habs Hat Hlen.
  - cbn [skipn] in Hat. destruct b; cbn [indexOf_from]; rewrite Hat; lia.
  - destruct b as [|x rest]; [cbn in Hlen; lia |].
    cbn [indexOf_from]. pose proof (Habs 0%nat ltac:(lia)) as H0.
    cbn [skipn] in H0. rewrite H0.
    rewrite (IH rest (j + 1)).
    + lia.
    + intros i Hi. apply (Habs (S i)). lia.
    + exact Hat.
    + cbn in Hlen. lia.
Qed.

Lemma subarray_from_skipn (b : Buffer) (p : Z) :
  0 <= p <= blen b -> subarray_from b p = skipn (Z.to_nat p) b.
Proof.
  intros Hp. unfold subarray_from. rewrite subarray_nonneg by lia.
  replace (Z.to_nat (Z.min p (blen b))) with (Z.to_nat p) by lia.
  apply firstn_all2. rewrite length_skipn. unfold blen in *. lia.
Qed.

Lemma is_prefix_app (needle rest : Buffer) : is_prefix needle (needle ++ rest) = true.
Proof.
  induction needle as [|x needle IH]; [reflexivity |].
  assert (Hx : Byte.eqb x x = true) by (now apply Byte.byte_dec_lb).
  cbn [app is_prefix]. now rewrite Hx, IH.
Qed.

(** X6.  [stripWaveIfNeeded] never alters a byte: what it returns is its
    input with some bytes cut off the front, and it is the input itself for a
    buffer shorter than 12 bytes or one that does not begin with [RIFF]. *)
Theorem stripWaveIfNeeded_suffix (buf : Buffer) :
  (exists cut, buf = cut ++ stripWaveIfNeeded buf)
  /\ (blen buf < 12 \/ ~ starts_with (list_byte_of_string "RIFF") buf ->
      stripWaveIfNeeded buf = buf).
Proof.
  split.
  - unfold stripWaveIfNeeded.
    destruct ((12 <=? blen buf) && is_ascii (subarray buf 0 4) "RIFF");
      [| exists []; reflexivity].
    destruct ((0 <? indexOf buf (list_byte_of_string "data"))
              && (indexOf buf (list_byte_of_string "data") + 8 <=? blen buf)) eqn:E;
      [| exists []; reflexivity].
    apply andb_true_iff in E as [E1 E2]. apply Z.ltb_lt in E1. apply Z.leb_le in E2.
    rewrite subarray_from_skipn by lia.
    eexists. symmetry. apply firstn_skipn.
  - intros H. unfold stripWaveIfNeeded.
    destruct (Z.leb_spec 12 (blen buf)) as [H12|H12]; [| reflexivity].
    destruct (is_ascii (subarray buf 0 4) "RIFF") eqn:E; [| reflexivity].
    apply riff_start in E. destruct H as [H | H]; [lia | contradiction].
Qed.

(** X7.  On a buffer of at least 12 bytes that begins with [RIFF],
    [stripWaveIfNeeded] returns all that follows the first occurrence of the
    bytes [data] and the four bytes after it: the format chunk is not looked
    at, and the size field, a pad byte and later chunks are not either. *)
Theorem stripWaveIfNeeded_cuts (upto sz rest : Buffer) :
  let buf := upto ++ list_byte_of_string "data" ++ sz ++ rest in
  starts_with (list_byte_of_string "RIFF") buf ->
  12 <= blen buf ->
  List.length sz = 4%nat ->
  absent_before (list_byte_of_string "data") buf (List.length upto) ->
  stripWaveIfNeeded buf = rest.
Proof.
  intros buf [r Hr] H12 Hsz Habs.
  assert (Hidx : indexOf buf (list_byte_of_string "data") = blen upto).
  { unfold indexOf. rewrite (indexOf_from_found _ (List.length upto)); try assumption.
    - reflexivity.
    - unfold buf. rewrite skipn_app, skipn_all, Nat.sub_diag. cbn [skipn app].
      apply is_prefix_app.
    - unfold buf. rewrite length_app. lia. }
  assert (Hpos : 0 < blen upto).
  { destruct upto as [|x upto']; [| unfold blen; cbn; lia].
    unfold buf in Hr. cbn in Hr. discriminate Hr. }
  assert (Hriff : is_ascii (subarray buf 0 4) "RIFF" = true).
  { apply is_ascii_spec. rewrite Hr. now apply subarray_prefix. }
  assert (Hlen : blen buf = blen upto + 8 + blen rest).
  { unfold buf. rewrite !blen_app.
    change (blen (list_byte_of_string "data")) with 4. unfold blen. lia. }
  unfold stripWaveIfNeeded. rewrite Hriff, Hidx.
  apply Z.leb_le in H12. rewrite H12. cbn [andb].
  pose proof (blen_nonneg rest).
  replace (0 <? blen upto) with true by (symmetry; apply Z.ltb_lt; lia).
  replace (blen upto + 8 <=? blen buf) with true by (symmetry; apply Z.leb_le; lia).
  cbn [andb]. unfold subarray_from.
  replace buf with ((upto ++ list_byte_of_string "data" ++ sz) ++ rest ++ [])
    by (unfold buf; now rewrite app_nil_r, <- !app_assoc).
  apply subarray_middle.
  - rewrite !blen_app. change (blen (list_byte_of_string "data")) with 4.
    unfold blen. lia.
  - rewrite !blen_app. change (blen (list_byte_of_string "data")) with 4.
    change (blen []) with 0. unfold blen. lia.
Qed.

(** ** Agent audio into the queue *)

Lemma packetize_length (buf : Buffer) :
  Z.of_nat (List.length (packetize buf)) = (blen buf + FRAME_BYTES - 1) / FRAME_BYTES.
Proof.
  unfold packetize. rewrite frames_from_length by lia.
  pose proof (blen_nonneg buf). do 2 f_equal. lia.
Qed.

(** X8.  [enqueueELBase64] on a value that [Buffer.from] decodes to [buf]
    adds to the end of the queue, behind what is there, the base64 of the
    frames of the stripped buffer: ceil(L / 160) entries, none of them empty,
    whose bytes in order are the stripped buffer; nothing else in the session
    changes and nothing is sent. *)
Theorem enqueueELBase64_appends (v : jsval) (buf : Buffer) (s : Session) :
  Buffer_from v = Return buf ->
  exists frames,
    enqueueELBase64 v s =
      (set_outQueue (outQueue s ++ map (fun f => JStr (to_base64 f)) frames) s,
       Return tt)
    /\ List.concat frames = stripWaveIfNeeded buf
    /\ Z.of_nat (List.length frames) =
       (blen (stripWaveIfNeeded buf) + FRAME_BYTES - 1) / FRAME_BYTES
    /\ (forall f, In f frames -> 1 <= blen f <= FRAME_BYTES).
Proof.
  intros Hbuf. exists (packetize (stripWaveIfNeeded buf)). split; [| split; [| split]].
  - unfold enqueueELBase64, bind, lift, modify. now rewrite Hbuf.
  - unfold packetize. now rewrite frames_from_concat by lia.
  - apply packetize_length.
  - intros f. apply packetize_In.
Qed.

(** ** What the callbacks never do *)

Lemma sockets_kept_preorder : preorder sockets_kept.
Proof.
  split; unfold sockets_kept.
  - intros s. repeat split.
  - intros a b c (H1 & H2 & H3 & H4 & H5 & H6 & H7 & H8)
             (K1 & K2 & K3 & K4 & K5 & K6 & K7 & K8).
    repeat split; congruence.
Qed.

Ltac sockets_kept_fin :=
  unfold sockets_kept; cbn;
  repeat match goal with |- context [if ?b then _ else _] => destruct b end;
  repeat split.

(** X9.  The message callback of the agent socket touches nothing but the
    readiness flag, the queue and the counters, whatever the message: it
    sends nothing on either socket (no [pong] answers a [ping], no [clear]
    answers an interruption), closes no socket, and leaves the stream
    identifier and the timers alone. *)
Theorem agent_message_keeps_sockets (s : Session) (parsed : option jsval) :
  sockets_kept s (step s (AgentMessage parsed)).
Proof.
  cbn [step]. unfold run.
  match goal with |- sockets_kept s (fst (?m s)) => cut (preserves sockets_kept m) end;
    [intros H; apply H |].
  unfold on_agent_message, mark_ready_on_metadata, is_initiation_metadata,
    enqueue_agent_audio, pick_audio, enqueueELBase64.
  frame sockets_kept_preorder sockets_kept_fin.
Qed.

Lemma stats_grow_preorder : preorder stats_grow.
Proof.
  split; unfold stats_grow, stats_le.
  - intros s. lia.
  - intros a b c H1 H2. lia.
Qed.

Ltac stats_grow_fin :=
  unfold stats_grow, stats_le, add_forwardedToTwilioBytes, add_forwardedToELBytes,
    bump_elAudioFrames, bump_twilioMediaInFrames;
  cbn;
  repeat match goal with |- context [if ?b then _ else _] => destruct b end;
  repeat match goal with |- context [blen ?b] =>
    lazymatch goal with
    | _ : 0 <= blen b |- _ => fail
    | _ => pose proof (blen_nonneg b)
    end
  end;
  cbn; lia.

(** X10.  The four diagnostic counters never go down, whatever event the
    session handles. *)
Theorem step_stats_grow (s : Session) (e : event) : stats_grow s (step s e).
Proof.
  destruct e; cbn [step];
    try (apply (pre_refl _ stats_grow_preorder));
    try (unfold stats_grow, stats_le; cbn; lia).
  - unfold run, on_agent_open, agent_send.
    match goal with |- stats_grow s (fst (?m s)) => cut (preserves stats_grow m) end;
      [intros H; apply H | frame stats_grow_preorder stats_grow_fin].
  - unfold run, on_agent_message, mark_ready_on_metadata, is_initiation_metadata,
      enqueue_agent_audio, pick_audio, enqueueELBase64.
    match goal with |- stats_grow s (fst (?m s)) => cut (preserves stats_grow m) end;
      [intros H; apply H | frame stats_grow_preorder stats_grow_fin].
  - destruct (elReadyFallbackTimer s); [| apply (pre_refl _ stats_grow_preorder)].
    unfold run, on_ready_timeout.
    match goal with |- stats_grow s (fst (?m ?s')) =>
      cut (preserves stats_grow m) end;
      [intros H; apply (H (set_elReadyFallbackTimer false s))
      | frame stats_grow_preorder stats_grow_fin].
  - destruct (elevenLabsWs s); unfold stats_grow, stats_le; cbn; lia.
  - unfold run, on_twilio_message, on_start, on_media, on_stop, startPacer,
      stopPacer, agent_send.
    match goal with |- stats_grow s (fst (?m s)) => cut (preserves stats_grow m) end;
      [intros H; apply H | frame stats_grow_preorder stats_grow_fin].
  - unfold run, on_twilio_close, stopPacer.
    match goal with |- stats_grow s (fst (?m s)) => cut (preserves stats_grow m) end;
      [intros H; apply H | frame stats_grow_preorder stats_grow_fin].
  - unfold run, on_twilio_error.
    match goal with |- stats_grow s (fst (?m s)) => cut (preserves stats_grow m) end;
      [intros H; apply H | frame stats_grow_preorder stats_grow_fin].
  - destruct (pacerTimer s); [| apply (pre_refl _ stats_grow_preorder)].
    unfold run, pacer_tick, twilio_send.
    match goal with |- stats_grow s (fst (?m s)) => cut (preserves stats_grow m) end;
      [intros H; apply H | frame stats_grow_preorder stats_grow_fin].
Qed.

Lemma agent_message_toAgent (s : Session) (parsed : option jsval) :
  toAgent (step s (AgentMessage parsed)) = toAgent s.
Proof.
  cbn [step]. unfold run.
  match goal with |- toAgent (fst (?m s)) = _ =>
    cut (preserves sockets_kept m) end;
    [intros H; apply H |].
  unfold on_agent_message, mark_ready_on_metadata, is_initiation_metadata,
    enqueue_agent_audio, pick_audio, enqueueELBase64.
  frame sockets_kept_preorder sockets_kept_fin.
Qed.

(** ** The telephony callback on the events it does not forward *)

Lemma set_pacerTimer_true_same (s : Session) :
  pacerTimer s = true -> set_pacerTimer true s = s.
Proof. destruct s; cbn; intros ->; reflexivity. Qed.

Lemma startPacer_eval (s : Session) :
  startPacer s = (set_pacerTimer true s, Return tt).
Proof.
  unfold startPacer, bind, gets, modify, ret.
  destruct (pacerTimer s) eqn:E; [| reflexivity].
  now rewrite set_pacerTimer_true_same.
Qed.

(** X11.  A telephony message that does not parse, that parses to [null],
    or whose [event] is none of [start], [media] and [stop] leaves the
    session exactly as it was. *)
Theorem twilio_message_ignored (s : Session) :
  step s (TwilioMessage None) = s
  /\ step s (TwilioMessage (Some JNull)) = s
  /\ (forall data ev,
        get data "event" = Return ev ->
        is_str ev "start" = false ->
        is_str ev "media" = false ->
        is_str ev "stop" = false ->
        step s (TwilioMessage (Some data)) = s).
Proof.
  split; [reflexivity |]. split; [reflexivity |].
  intros data ev Hev H1 H2 H3.
  rewrite (on_twilio_message_dispatch s data ev Hev), H1, H2, H3.
  assert (H : preserves unchanged (log_template [ev]))
    by apply (preserves_log_template _ unchanged_preorder).
  apply H.
Qed.

(** X12.  A [start] event whose fields can be written to the log records
    the stream identifier and sets the pacer's interval, and does nothing
    else: the frames already queued stay queued and nothing is sent. *)
Theorem start_sets_stream (s : Session) (data st sid mf : jsval) :
  get data "event" = Return (JStr "start") ->
  get data "start" = Return st ->
  get st "streamSid" = Return sid ->
  get st "mediaFormat" = Return mf ->
  forallb renders
    [sid; field (js_or mf (JObj [])) "encoding";
     field (js_or mf (JObj [])) "sampleRate";
     field (js_or mf (JObj [])) "channels"] = true ->
  step s (TwilioMessage (Some data)) = set_pacerTimer true (set_streamSid sid s).
Proof.
  intros Hev Hst Hsid Hmf Hlog.
  rewrite (on_twilio_message_dispatch s data _ Hev).
  cbn [is_str String.eqb Ascii.eqb Bool.eqb andb].
  unfold on_start, log_template, bind, lift, modify.
  rewrite Hst, Hsid, Hmf, !get_or_object, Hlog. cbn [ret].
  now rewrite startPacer_eval.
Qed.

(** X13.  A [start] event without a [start] object is caught and ignored:
    the stream identifier is not touched and the pacer is not started. *)
Theorem start_without_body_ignored (s : Session) (data st : jsval) :
  get data "event" = Return (JStr "start") ->
  get data "start" = Return st ->
  st = JUndefined \/ st = JNull ->
  step s (TwilioMessage (Some data)) = s.
Proof.
  intros Hev Hst Hnull.
  rewrite (on_twilio_message_dispatch s data _ Hev).
  cbn [is_str String.eqb Ascii.eqb Bool.eqb andb].
  unfold on_start, bind, lift. rewrite Hst.
  destruct Hnull as [-> | ->]; reflexivity.
Qed.

(** X14.  A [media] event that arrives while the agent socket is absent or
    not open is dropped like one that arrives before readiness: the session
    is unchanged. *)
Theorem media_agent_not_open_dropped (s : Session) (data : jsval) :
  get data "event" = Return (JStr "media") ->
  elevenLabsWs s <> Some OPEN ->
  step s (TwilioMessage (Some data)) = s.
Proof.
  intros Hev Hws. rewrite (on_twilio_message_dispatch s data _ Hev).
  cbn [is_str String.eqb Ascii.eqb Bool.eqb andb].
  assert (Hgate : gate_open s = false).
  { unfold gate_open. destruct (elevenLabsWs s) as [[]|]; cbn;
      try apply andb_false_r. now destruct Hws. }
  unfold on_media, bind, gets, when, ret. rewrite Hgate. cbn [fst].
  rewrite Hgate. reflexivity.
Qed.

(** X15.  A [media] event whose payload cannot be read (no [media] object,
    or a payload that [Buffer.from] rejects) is caught and ignored even when
    the gate is open: nothing is sent and no counter moves. *)
Theorem media_without_payload_ignored (s : Session) (data : jsval) (e : exn) :
  get data "event" = Return (JStr "media") ->
  media_payload data = Throw e ->
  step s (TwilioMessage (Some data)) = s.
Proof.
  intros Hev Hpay. rewrite (on_twilio_message_dispatch s data _ Hev).
  cbn [is_str String.eqb Ascii.eqb Bool.eqb andb].
  unfold on_media. unfold bind at 1. unfold gets at 1.
  destruct (gate_open s) eqn:Hgate.
  - unfold bind at 1. unfold when at 1. unfold media_payload in Hpay.
    unfold bind, lift.
    destruct (get data "media") as [m|e1]; cbn [obind] in Hpay; [| reflexivity].
    destruct (get m "payload") as [p|e2]; cbn [obind] in Hpay; [| reflexivity].
    rewrite Hpay. reflexivity.
  - unfold bind, gets, when, ret. cbn [fst]. rewrite Hgate. reflexivity.
Qed.

(** X16.  The whole effect of a forwarded [media] event: the two identical
    messages go to the agent socket, the frame counter goes up by one and the
    byte counter by the length of the decoded payload, once each although the
    payload is sent twice; nothing else changes. *)
Theorem media_forwarded_state (s : Session) (data : jsval) (buf : Buffer) :
  get data "event" = Return (JStr "media") ->
  media_payload data = Return buf ->
  convoReady s = true ->
  elevenLabsWs s = Some OPEN ->
  step s (TwilioMessage (Some data)) =
  set_toAgent
    (toAgent s ++ [user_audio_message (to_base64 buf);
                   user_audio_message (to_base64 buf)])
    (add_forwardedToELBytes (blen buf) (bump_twilioMediaInFrames s)).
Proof.
  intros Hev Hpay Hready Hws. rewrite (on_twilio_message_dispatch s data _ Hev).
  cbn [is_str String.eqb Ascii.eqb Bool.eqb andb].
  unfold media_payload in Hpay.
  destruct (get data "media") as [m|e1] eqn:Hm; cbn [obind] in Hpay; [| discriminate].
  destruct (get m "payload") as [p|e2] eqn:Hp; cbn [obind] in Hpay; [| discriminate].
  unfold on_media, agent_send, bind, gets, when, gate_open, lift, modify.
  repeat (cbn; rewrite ?Hready, ?Hws, ?Hm, ?Hp, ?Hpay).
  destruct s. cbn in *. now rewrite <- app_assoc.
Qed.

Lemma agent_kept_preorder : preorder agent_kept.
Proof. split; unfold agent_kept; [reflexivity | intros a b c H1 H2; congruence]. Qed.

Ltac agent_kept_fin :=
  unfold agent_kept; cbn;
  repeat match goal with |- context [if ?b then _ else _] => destruct b end;
  reflexivity.

Lemma on_media_gate_closed (data : jsval) (s : Session) :
  gate_open s = false -> on_media data s = (s, Return tt).
Proof.
  intros Hgate. unfold on_media, bind, gets, when, ret. rewrite Hgate.
  cbn. now rewrite Hgate.
Qed.

(** X17.  While the readiness flag is false nothing reaches the agent
    socket except the initiation data sent when that socket opens: no other
    event adds a message to it. *)
Theorem nothing_to_agent_before_ready (s : Session) (e : event) :
  convoReady s = false ->
  e <> AgentOpen ->
  toAgent (step s e) = toAgent s.
Proof.
  intros Hready He. destruct e; cbn [step]; try reflexivity.
  - contradiction.
  - apply agent_message_toAgent.
  - destruct (elReadyFallbackTimer s); [| reflexivity].
    unfold run, on_ready_timeout, bind, gets, when, modify, ret. cbn.
    now destruct (convoReady s).
  - now destruct (elevenLabsWs s).
  - unfold run, on_twilio_message, try_catch. cbn [fst].
    destruct parsed as [data|]; [| reflexivity].
    cbn [JSON_parse]. unfold bind at 1. cbn [ret]. unfold bind at 1. unfold lift at 1.
    destruct (get data "event") as [ev|]; [| reflexivity].
    destruct (is_str ev "start").
    { assert (H : preserves agent_kept (on_start data))
        by (unfold on_start, startPacer; frame agent_kept_preorder agent_kept_fin).
      apply H. }
    destruct (is_str ev "media").
    { rewrite on_media_gate_closed; [reflexivity |].
      unfold gate_open. now rewrite Hready. }
    destruct (is_str ev "stop").
    { assert (H : preserves agent_kept (on_stop data))
        by (unfold on_stop, stopPacer; frame agent_kept_preorder agent_kept_fin).
      apply H. }
    assert (H : preserves agent_kept (log_template [ev]))
      by apply (preserves_log_template _ agent_kept_preorder).
    apply H.
  - unfold run, on_twilio_close, stopPacer.
    match goal with |- toAgent (fst (?m s)) = _ => cut (preserves agent_kept m) end;
      [intros H; apply H | frame agent_kept_preorder agent_kept_fin].
  - unfold run, on_twilio_error.
    match goal with |- toAgent (fst (?m s)) = _ => cut (preserves agent_kept m) end;
      [intros H; apply H | frame agent_kept_preorder agent_kept_fin].
  - destruct (pacerTimer s); [| reflexivity].
    unfold run, pacer_tick, twilio_send.
    match goal with |- toAgent (fst (?m s)) = _ => cut (preserves agent_kept m) end;
      [intros H; apply H | frame agent_kept_preorder agent_kept_fin].
Qed.

(** ** The fallback timer once it is cleared *)

Lemma gate_kept_preorder : preorder gate_kept.
Proof.
  split; unfold gate_kept; [now split |].
  intros a b c [H1 H2] [H3 H4]. split; congruence.
Qed.

Ltac gate_kept_fin :=
  unfold gate_kept; cbn;
  repeat match goal with |- context [if ?b then _ else _] => destruct b end;
  cbn; split; reflexivity.

Lemma step_gate_kept (s : Session) (e : event) :
  elReadyFallbackTimer s = false ->
  (forall parsed, e <> AgentMessage parsed) ->
  convoReady (step s e) = convoReady s /\ elReadyFallbackTimer (step s e) = false.
Proof.
  intros Hoff He.
  assert (Hkept : gate_kept s (step s e) ->
            convoReady (step s e) = convoReady s
            /\ elReadyFallbackTimer (step s e) = false).
  { intros [H1 H2]. split; [exact H1 | now rewrite H2]. }
  destruct e; cbn [step] in *.
  - apply Hkept. unfold run, on_agent_open, agent_send.
    match goal with |- gate_kept s (fst (?m s)) => cut (preserves gate_kept m) end;
      [intros H; apply H | frame gate_kept_preorder gate_kept_fin].
  - now destruct (He parsed).
  - rewrite Hoff. now split.
  - now split.
  - now split.
  - destruct (elevenLabsWs s); now split.
  - apply Hkept.
    unfold run, on_twilio_message, on_start, on_media, on_stop, startPacer,
      stopPacer, agent_send.
    match goal with |- gate_kept s (fst (?m s)) => cut (preserves gate_kept m) end;
      [intros H; apply H | frame gate_kept_preorder gate_kept_fin].
  - apply Hkept. unfold run, on_twilio_close, stopPacer.
    match goal with |- gate_kept s (fst (?m s)) => cut (preserves gate_kept m) end;
      [intros H; apply H | frame gate_kept_preorder gate_kept_fin].
  - apply Hkept. unfold run, on_twilio_error.
    match goal with |- gate_kept s (fst (?m s)) => cut (preserves gate_kept m) end;
      [intros H; apply H | frame gate_kept_preorder gate_kept_fin].
  - now split.
  - destruct (pacerTimer s); [| now split].
    apply Hkept. unfold run, pacer_tick, twilio_send.
    match goal with |- gate_kept s (fst (?m s)) => cut (preserves gate_kept m) end;
      [intros H; apply H | frame gate_kept_preorder gate_kept_fin].
Qed.

(** X18.  When the agent socket closes or fails before readiness, the
    fallback timer is cleared for good: through any later events that are not
    agent messages, the timer's own callback included, the readiness flag
    stays false, so caller audio is never forwarded on that path. *)
Theorem ready_timeout_cancelled (s : Session) (e : event) (es : list event) :
  e = AgentClose \/ e = AgentError ->
  convoReady s = false ->
  Forall (fun e' => forall parsed, e' <> AgentMessage parsed) es ->
  convoReady (steps (step s e) es) = false.
Proof.
  intros He Hready Hes.
  assert (H0 : convoReady (step s e) = false
               /\ elReadyFallbackTimer (step s e) = false)
    by (destruct He as [-> | ->]; cbn; now split).
  revert H0. generalize (step s e). clear s e He Hready.
  induction Hes as [|e' es He' _ IH]; intros s [Hready Hoff]; [exact Hready |].
  cbn [steps fold_left]. apply IH.
  destruct (step_gate_kept s e' Hoff He') as [H1 H2].
  split; [congruence | exact H2].
Qed.

(** ** The pacer and the end of the call *)

Lemma pacer_tick_closed (s : Session) :
  is_open (connection s) = false -> run pacer_tick s = s.
Proof.
  intros H. unfold run, pacer_tick, try_catch, bind, gets, ret. cbn [fst].
  now rewrite H.
Qed.

(** X19.  While the telephony socket is not open the pacer's callback does
    nothing, however often it runs: no frame leaves the queue, nothing is
    sent and nothing is counted. *)
Theorem pacer_waits_for_socket (s : Session) (n : nat) :
  connection s <> OPEN ->
  ticks n s = s /\ steps s (repeat PacerTick n) = s.
Proof.
  intros Hc.
  assert (H : is_open (connection s) = false)
    by (destruct (connection s); [reflexivity | now destruct Hc | reflexivity | reflexivity]).
  split; induction n as [|n IH]; cbn [ticks repeat steps fold_left step];
    try reflexivity.
  - now rewrite pacer_tick_closed.
  - destruct (pacerTimer s); [rewrite pacer_tick_closed by exact H |]; exact IH.
Qed.

(** X20.  When the telephony socket closes, the handler clears the stats
    timer and the pacer's interval and does nothing else: the agent socket
    is not closed, and later ticks of the pacer's timer do nothing. *)
Theorem twilio_close_stops_timers (s : Session) :
  step s TwilioClose = set_pacerTimer false (set_statsTimer false s)
  /\ agentCloseCalls (step s TwilioClose) = agentCloseCalls s
  /\ elevenLabsWs (step s TwilioClose) = elevenLabsWs s
  /\ (forall n, steps (step s TwilioClose) (repeat PacerTick n) = step s TwilioClose).
Proof.
  assert (H : step s TwilioClose = set_pacerTimer false (set_statsTimer false s)).
  { cbn [step]. unfold run, on_twilio_close, bind, modify.
    now rewrite stopPacer_eval. }
  rewrite H. split; [reflexivity |]. split; [reflexivity |]. split; [reflexivity |].
  induction n as [|n IH]; [reflexivity |]. exact IH.
Qed.

(** ** The unused message handler of the relay *)

(** X21.  [handleElevenLabsMessage] on a [ping]: with the agent socket open
    it answers with one [pong] that carries the same event identifier and
    does nothing else; a ping whose identifier is falsy, such as 0, gets no
    answer at all. *)
Theorem handleElevenLabsMessage_ping (s : Session) (msg pe id : jsval) :
  get msg "type" = Return (JStr "ping") ->
  get msg "ping_event" = Return pe ->
  get_opt pe "event_id" = Return id ->
  (truthy id = true -> elevenLabsWs s = Some OPEN ->
   handleElevenLabsMessage msg s =
   (set_toAgent (toAgent s ++ [wire [("type", JStr "pong"); ("event_id", id)]%string]) s,
    Return tt))
  /\ (truthy id = false -> handleElevenLabsMessage msg s = (s, Return tt)).
Proof.
  intros Htype Hpe Hid.
  split; [intros Ht Hws | intros Ht];
    unfold handleElevenLabsMessage, agent_send, bind, lift, gets, when, modify, ret;
    rewrite Htype; cbn; rewrite Hpe, Hid, Ht; [now rewrite Hws | reflexivity].
Qed.

(** X22.  [handleElevenLabsMessage] on an [audio] message with a decodable
    payload counts the chunk and its bytes, and then either keeps the whole
    chunk, unsliced, in the queue (no stream identifier yet) or sends the
    whole chunk at once as a single media message, past the queue. *)
Theorem handleElevenLabsMessage_audio (s : Session) (msg ae b64 : jsval) (buf : Buffer) :
  get msg "type" = Return (JStr "audio") ->
  get msg "audio_event" = Return ae ->
  get_opt ae "audio_base_64" = Return b64 ->
  truthy b64 = true ->
  Buffer_from b64 = Return buf ->
  connection s = OPEN ->
  run (handleElevenLabsMessage msg) s =
  let counted := add_forwardedToTwilioBytes (blen buf) (bump_elAudioFrames s) in
  if truthy (streamSid s)
  then set_toTwilio (toTwilio s ++ [media_message (streamSid s) b64]) counted
  else set_outQueue (outQueue s ++ [b64]) counted.
Proof.
  intros Htype Hae Hb64 Ht Hbuf Hopen.
  unfold run, handleElevenLabsMessage, twilio_send, bind, lift, gets, modify, ret.
  rewrite Htype. cbn. rewrite Hae, Hb64, Ht. cbn. rewrite Hbuf. cbn.
  destruct (truthy (streamSid s)); cbn; [| reflexivity].
  now rewrite Hopen.
Qed.

(** ** The agent callback of the variant in [part_000] *)

Lemma set_toTwilio_same (s : Session) : set_toTwilio (toTwilio s) s = s.
Proof. now destruct s. Qed.

Lemma send_each_open (msgs : list jsval) :
  forall s, connection s = OPEN ->
    send_each msgs s = (set_toTwilio (toTwilio s ++ msgs) s, Return tt).
Proof.
  induction msgs as [|m rest IH]; intros s Hopen; cbn [send_each].
  - unfold ret. now rewrite app_nil_r, set_toTwilio_same.
  - unfold bind, twilio_send, modify. rewrite Hopen. cbn [is_open].
    rewrite IH by exact Hopen. cbn. now rewrite <- app_assoc.
Qed.

Lemma logFirstChunkInfo_string (logged : bool) (b64 : string) (s : Session) :
  logFirstChunkInfo logged (JStr b64) s = (s, Return tt).
Proof.
  unfold logFirstChunkInfo. destruct logged; [reflexivity |].
  unfold bind, lift, ret, js_or. now destruct (truthy (JStr b64)).
Qed.

(** X23.  In the variant of [part_000], an agent audio message whose payload
    the normalizer accepts is sliced into frames of 160 bytes that are all
    sent to the telephony socket at once, in order, one media message per
    frame; nothing is queued and nothing else changes. *)
Theorem part000_audio_sent_at_once (logged : bool) (s : Session)
    (msg ae : jsval) (b64 out : string) (n : note) :
  get msg "type" = Return (JStr "audio") ->
  get msg "audio_event" = Return ae ->
  get_opt ae "audio_base_64" = Return (JStr b64) ->
  b64 <> EmptyString ->
  ensureRawUlawBase64 (JStr b64) = Return (EnsureOk (JStr out) n) ->
  connection s = OPEN ->
  run (on_agent_message_part000 logged (Some msg)) s =
  set_toTwilio
    (toTwilio s ++
     map (fun chunk => media_message (streamSid s) (JStr (to_base64 chunk)))
       (packetize (from_base64 out))) s.
Proof.
  intros Htype Hae Hb64 Hne Hens Hopen.
  unfold run, on_agent_message_part000, try_catch, handleElevenLabsMessage_part000.
  cbn [fst JSON_parse]. unfold bind at 1. cbn [ret].
  unfold bind at 1. unfold lift at 1. rewrite Htype.
  cbn [is_str String.eqb Ascii.eqb Bool.eqb andb].
  unfold bind at 1. unfold lift at 1. rewrite Hae.
  unfold bind at 1. unfold lift at 1. rewrite Hb64.
  rewrite (truthy_JStr b64 Hne). cbn [negb].
  unfold bind at 1. rewrite logFirstChunkInfo_string.
  unfold bind at 1. unfold lift at 1. rewrite Hens.
  unfold bind at 1. unfold lift at 1. cbn [Buffer_from].
  unfold bind at 1. unfold gets at 1.
  now rewrite send_each_open.
Qed.

(** X24.  In the variant of [part_000], an agent audio message whose payload
    the normalizer refuses, or on which it raises, is dropped whole: the
    exception is caught by the callback, nothing is sent to the telephony
    socket and the session is unchanged. *)
Theorem part000_audio_dropped (logged : bool) (s : Session) (msg ae b64In : jsval) :
  get msg "type" = Return (JStr "audio") ->
  get msg "audio_event" = Return ae ->
  get_opt ae "audio_base_64" = Return b64In ->
  (exists r, ensureRawUlawBase64 b64In = Return (EnsureFail r))
  \/ (exists e, ensureRawUlawBase64 b64In = Throw e) ->
  run (on_agent_message_part000 logged (Some msg)) s = s.
Proof.
  intros Htype Hae Hb64 Hens.
  unfold run, on_agent_message_part000, try_catch, handleElevenLabsMessage_part000.
  cbn [fst JSON_parse]. unfold bind at 1. cbn [ret].
  unfold bind at 1. unfold lift at 1. rewrite Htype.
  cbn [is_str String.eqb Ascii.eqb Bool.eqb andb].
  unfold bind at 1. unfold lift at 1. rewrite Hae.
  unfold bind at 1. unfold lift at 1. rewrite Hb64.
  destruct (truthy b64In); cbn [negb]; [| reflexivity].
  unfold bind at 1.
  assert (Hlog : exists o, logFirstChunkInfo logged b64In s = (s, o)).
  { unfold logFirstChunkInfo. destruct logged; [now eexists |].
    unfold bind, lift, ret.
    destruct (Buffer_from (js_or b64In (JStr EmptyString))); now eexists. }
  destruct Hlog as [[[]|e0] ->]; [| reflexivity].
  unfold bind at 1. unfold lift at 1.
  destruct Hens as [[r ->] | [e ->]]; reflexivity.
Qed.

(** ** What reaches the telephony socket *)

Lemma paced_kept_preorder : preorder paced_kept.
Proof. split; unfold paced_kept; auto. Qed.

Ltac paced_kept_fin :=
  unfold paced_kept, paced; cbn;
  repeat match goal with |- context [if ?b then _ else _] => destruct b end;
  solve [auto].

Lemma frames_framed (buf : Buffer) :
  Forall framed (map (fun frame => JStr (to_base64 frame)) (packetize buf)).
Proof.
  apply Forall_forall. intros v Hin. apply in_map_iff in Hin as [f [<- Hf]].
  exists f. split; [reflexivity | now apply (packetize_In buf)].
Qed.

Lemma pacer_tick_paced (s : Session) : paced s -> paced (run pacer_tick s).
Proof.
  intros [Hq Ht].
  unfold run, pacer_tick, try_catch, queue_shift, twilio_send, log_template,
    bind, gets, modify, ret, lift, throw.
  cbn [fst].
  destruct (is_open (connection s)) eqn:Hopen; cbn [negb]; [| now split].
  destruct (truthy (streamSid s)); cbn [negb]; [| now split].
  destruct (outQueue s) as [|x rest] eqn:Eq.
  { cbn. split; [rewrite Eq; constructor | exact Ht]. }
  inversion Hq as [|? ? Hx Hrest]; subst.
  assert (Hsent : paced (set_toTwilio (toTwilio s ++ [media_message (streamSid s) x])
                           (set_outQueue rest s))).
  { split; cbn; [exact Hrest |].
    apply Forall_app. split; [exact Ht |].
    constructor; [| constructor]. now exists (streamSid s), x. }
  assert (Hkept : paced (set_outQueue rest s)) by (split; cbn; assumption).
  cbn [fst snd]. destruct (truthy x); cbn [negb]; [| exact Hkept].
  destruct (forallb renders _); cbn [fst snd]; [| exact Hkept].
  cbn [connection set_outQueue]. rewrite Hopen.
  destruct (Buffer_from x); cbn [fst]; [| exact Hsent].
  destruct Hsent as [H1 H2]. split; cbn; assumption.
Qed.

Lemma step_paced (s : Session) (e : event) : paced_kept s (step s e).
Proof.
  destruct e; cbn [step].
  - unfold run, on_agent_open, agent_send.
    match goal with |- paced_kept s (fst (?m s)) => cut (preserves paced_kept m) end;
      [intros H; apply H | frame paced_kept_preorder paced_kept_fin].
  - unfold run, on_agent_message, mark_ready_on_metadata, is_initiation_metadata,
      enqueue_agent_audio, pick_audio, enqueueELBase64.
    match goal with |- paced_kept s (fst (?m s)) => cut (preserves paced_kept m) end;
      [intros H; apply H |].
    frame paced_kept_preorder paced_kept_fin.
    apply (preserves_modify _ paced_kept_preorder). intros s0 [Hq Ht].
    split; cbn; [| exact Ht].
    apply Forall_app. split; [exact Hq | apply frames_framed].
  - destruct (elReadyFallbackTimer s); [| now intros H].
    unfold run, on_ready_timeout, bind, gets, when, modify, ret.
    cbn. destruct (convoReady s); cbn; now intros H.
  - now intros H.
  - now intros H.
  - destruct (elevenLabsWs s); now intros H.
  - unfold run, on_twilio_message, on_start, on_media, on_stop, startPacer,
      stopPacer, agent_send.
    match goal with |- paced_kept s (fst (?m s)) => cut (preserves paced_kept m) end;
      [intros H; apply H | frame paced_kept_preorder paced_kept_fin].
  - unfold run, on_twilio_close, stopPacer.
    match goal with |- paced_kept s (fst (?m s)) => cut (preserves paced_kept m) end;
      [intros H; apply H | frame paced_kept_preorder paced_kept_fin].
  - unfold run, on_twilio_error.
    match goal with |- paced_kept s (fst (?m s)) => cut (preserves paced_kept m) end;
      [intros H; apply H | frame paced_kept_preorder paced_kept_fin].
  - now intros H.
  - destruct (pacerTimer s); [| now intros H].
    intros H. now apply pacer_tick_paced.
Qed.

(** X25.  In every run of the relay, whatever the events and their order,
    the telephony socket is only ever handed media messages, each with the
    base64 text of a frame of 1 to 160 bytes cut by the packetizer, and the
    queue holds only such frames: the relay sends no [clear], no [mark] and
    no frame longer than 20 ms. *)
Theorem relay_sends_only_frames (date time name contact : jsval) (es : list event) :
  paced (steps (initial date time name contact) es).
Proof.
  unfold steps. rewrite <- fold_left_rev_right.
  induction (rev es) as [|e es' IH]; cbn [fold_right].
  - split; constructor.
  - now apply step_paced.
Qed.

End Relay.

(** * The mu-law encoder of the beep *)

Lemma forallb_Zrange (p : Z -> bool) (n : nat) :
  forall lo, forallb p (Zrange lo n) = true ->
    forall z, lo <= z < lo + Z.of_nat n -> p z = true.
Proof.
  induction n as [|n IH]; intros lo H z Hz; [lia |].
  cbn [Zrange forallb] in H. apply andb_true_iff in H as [H0 H1].
  destruct (Z.eq_dec z lo) as [-> | Hne]; [exact H0 |].
  apply (IH (lo + 1)); [exact H1 | lia].
Qed.

(** The encoder is run on every sample from 0 to 32767. *)
Lemma mulaw_range_checked :
  forallb (fun s => (128 <=? linearToMuLawSample s) && (linearToMuLawSample s <=? 255))
    (Zrange 0 (Z.to_nat 32768)) = true.
Proof. vm_compute. reflexivity. Qed.

Lemma mulaw_mirror_checked :
  forallb (fun s => linearToMuLawSample (- s) =? linearToMuLawSample s - 128)
    (Zrange 1 (Z.to_nat 32767)) = true.
Proof. vm_compute. reflexivity. Qed.

Lemma mulaw_step_checked :
  forallb (fun s => linearToMuLawSample (s + 1) <=? linearToMuLawSample s)
    (Zrange 0 (Z.to_nat 32767)) = true.
Proof. vm_compute. reflexivity. Qed.

Lemma mulaw_cell_checked :
  forallb (fun a =>
             let b := a + (a + 116) / 16 + 1 in
             (32767 <? b) || (linearToMuLawSample b <? linearToMuLawSample a))
    (Zrange 0 (Z.to_nat 32768)) = true.
Proof. vm_compute. reflexivity. Qed.

Lemma mulaw_range (s : Z) :
  0 <= s <= 32767 -> 128 <= linearToMuLawSample s <= 255.
Proof.
  intros Hs.
  pose proof (forallb_Zrange _ _ _ mulaw_range_checked s ltac:(lia)) as H.
  cbv beta in H. apply andb_true_iff in H as [H1 H2]. lia.
Qed.

Lemma mulaw_mirror (s : Z) :
  1 <= s <= 32767 -> linearToMuLawSample (- s) = linearToMuLawSample s - 128.
Proof.
  intros Hs.
  pose proof (forallb_Zrange _ _ _ mulaw_mirror_checked s ltac:(lia)) as H.
  cbv beta in H. lia.
Qed.

Lemma mulaw_antitone (a b : Z) :
  0 <= a <= b -> b <= 32767 -> linearToMuLawSample b <= linearToMuLawSample a.
Proof.
  intros Hab Hb.
  replace b with (a + Z.of_nat (Z.to_nat (b - a))) in * by lia.
  induction (Z.to_nat (b - a)) as [|n IH].
  - rewrite Z.add_0_r. lia.
  - assert (Hn : linearToMuLawSample (a + Z.of_nat n) <= linearToMuLawSample a)
      by (apply IH; lia).
    pose proof (forallb_Zrange _ _ _ mulaw_step_checked (a + Z.of_nat n) ltac:(lia)) as H.
    cbv beta in H.
    replace (a + Z.of_nat (S n)) with (a + Z.of_nat n + 1) by lia. lia.
Qed.

(** X26.  On 16-bit samples the top bit of the mu-law byte is the sign and
    the other seven depend on the magnitude alone: a sample of 0 or more
    gives 128 to 255, a negative sample gives 0 to 127, and negating a
    sample of 1 to 32767 takes exactly 128 off its byte. *)
Theorem linearToMuLawSample_sign (s : Z) :
  int16 s ->
  (0 <= s -> 128 <= linearToMuLawSample s <= 255)
  /\ (s < 0 -> 0 <= linearToMuLawSample s <= 127)
  /\ (1 <= s -> linearToMuLawSample (- s) = linearToMuLawSample s - 128).
Proof.
  intros [Hlo Hhi]. split; [| split].
  - intros H. apply mulaw_range. lia.
  - intros H. destruct (Z.eq_dec s (-32768)) as [-> | Hne].
    + vm_compute. split; discriminate.
    + pose proof (mulaw_mirror (- s) ltac:(lia)) as Hm.
      pose proof (mulaw_range (- s) ltac:(lia)) as Hr.
      rewrite Z.opp_involutive in Hm. lia.
  - intros H. apply mulaw_mirror. lia.
Qed.

(** X27.  The encoder keeps the order of 16-bit samples on each side of
    zero: of two samples of 0 or more the larger never gets the larger
    byte, and of two negative samples the larger never gets the smaller
    byte. *)
Theorem linearToMuLawSample_monotone (a b : Z) :
  int16 a -> int16 b -> a <= b ->
  (0 <= a -> linearToMuLawSample b <= linearToMuLawSample a)
  /\ (b < 0 -> linearToMuLawSample a <= linearToMuLawSample b).
Proof.
  intros [Ha1 Ha2] [Hb1 Hb2] Hab. split; intros H.
  - apply mulaw_antitone; lia.
  - destruct (Z.eq_dec b (-32768)) as [-> | Hb]; [replace a with (-32768) by lia; lia |].
    pose proof (mulaw_mirror (- b) ltac:(lia)) as Hmb.
    rewrite Z.opp_involutive in Hmb.
    destruct (Z.eq_dec a (-32768)) as [-> | Hne].
    + pose proof (mulaw_range (- b) ltac:(lia)) as Hr.
      change (linearToMuLawSample (-32768)) with 0. lia.
    + pose proof (mulaw_mirror (- a) ltac:(lia)) as Hma.
      rewrite Z.opp_involutive in Hma.
      pose proof (mulaw_antitone (- b) (- a) ltac:(lia) ltac:(lia)). lia.
Qed.

(** X28.  The quantisation is logarithmic: two samples from 0 to 32767 that
    get the same byte differ by at most a sixteenth of the smaller one plus
    116, so the encoder keeps about four bits of each sample's magnitude at
    every loudness. *)
Theorem linearToMuLawSample_resolution (a b : Z) :
  0 <= a -> a <= b -> b <= 32767 ->
  linearToMuLawSample a = linearToMuLawSample b ->
  16 * (b - a) <= a + 116.
Proof.
  intros Ha Hab Hb Heq.
  destruct (Z_le_gt_dec (16 * (b - a)) (a + 116)) as [Hle | Hgt]; [exact Hle |].
  exfalso.
  pose proof (forallb_Zrange _ _ _ mulaw_cell_checked a ltac:(lia)) as H.
  cbv beta zeta in H.
  assert (Hb0 : a + (a + 116) / 16 + 1 <= b).
  { pose proof (Z.mul_div_le (a + 116) 16 ltac:(lia)).
    assert ((a + 116) / 16 < b - a) by nia. lia. }
  apply orb_true_iff in H as [H | H]; [lia |].
  assert (Hq : 0 <= (a + 116) / 16) by (apply Z.div_pos; lia).
  apply Z.ltb_lt in H.
  assert (Hm : linearToMuLawSample b <= linearToMuLawSample (a + (a + 116) / 16 + 1))
    by (apply mulaw_antitone; [split; [| exact Hb0] | exact Hb]; lia).
  lia.
Qed.

(** * The relay on concrete messages *)

Lemma base64_encode_nonempty (b : Buffer) : b <> [] -> Base64.encode b <> EmptyString.
Proof.
  destruct b as [|x [|y [|z rest]]]; intros H; [contradiction | | |]; discriminate.
Qed.

(** The slicing of the end-to-end scenario: 400 bytes give frames of 160,
    160 and 80 bytes. *)
Lemma packetize_frames_witness :
  Z.of_nat (List.length (packetize (repeat x00 400))) = 3
  /\ List.concat (packetize (repeat x00 400)) = repeat x00 400
  /\ map blen (packetize (repeat x00 400)) = [160; 160; 80].
Proof.
  destruct (packetize_frames (repeat x00 400)) as (Hn & Hcat & _ & _).
  split; [exact Hn |]. split; [exact Hcat | reflexivity].
Defined.

(** Three ticks on the queue A, B, C send A, B, C for [CA123] and empty the
    queue. *)
Lemma pacer_one_frame_per_tick_witness :
  connection Demo.streaming = OPEN
  /\ renders (streamSid Demo.streaming) = true
  /\ all_truthy (outQueue Demo.streaming)
  /\ toTwilio (ticks Base64.decode Demo.no_array_like 3 Demo.streaming) =
     [media_message (JStr "CA123") Demo.frameA;
      media_message (JStr "CA123") Demo.frameB;
      media_message (JStr "CA123") Demo.frameC]
  /\ outQueue (ticks Base64.decode Demo.no_array_like 3 Demo.streaming) = [].
Proof.
  assert (H1 : connection Demo.streaming = OPEN) by reflexivity.
  assert (H2 : renders (streamSid Demo.streaming) = true) by reflexivity.
  assert (H3 : all_truthy (outQueue Demo.streaming))
    by (repeat constructor).
  split; [exact H1 |]. split; [exact H2 |]. split; [exact H3 |].
  destruct (pacer_one_frame_per_tick Base64.decode Demo.no_array_like
              Demo.streaming H1 H2 H3) as (_ & _ & _ & Hfifo).
  exact (Hfifo eq_refl 3%nat).
Defined.

(** An initiation message of the type-tag shape opens the gate. *)
Lemma readiness_latch_witness :
  initiation_shape Demo.initiation = true
  /\ forallb renders (logged_formats Demo.initiation) = true
  /\ convoReady Demo.streaming = false
  /\ convoReady
       (step Base64.decode Base64.encode Demo.no_array_like Demo.streaming
          (AgentMessage (Some Demo.initiation))) = true.
Proof.
  split; [reflexivity |]. split; [reflexivity |]. split; [reflexivity |].
  destruct (readiness_latch Base64.decode Base64.encode Demo.no_array_like)
    as (_ & _ & Hset & _).
  apply Hset; reflexivity.
Defined.

Lemma media_before_ready_dropped_witness :
  convoReady Demo.streaming = false
  /\ get Demo.media "event" = Return (JStr "media")
  /\ step Base64.decode Base64.encode Demo.no_array_like Demo.streaming
       (TwilioMessage (Some Demo.media)) = Demo.streaming.
Proof.
  split; [reflexivity |]. split; [reflexivity |].
  apply media_before_ready_dropped; reflexivity.
Defined.

Lemma media_forwarded_twice_witness :
  convoReady Demo.ready = true
  /\ elevenLabsWs Demo.ready = Some OPEN
  /\ toAgent
       (step Base64.decode Base64.encode Demo.no_array_like Demo.ready
          (TwilioMessage (Some Demo.media))) =
     [user_audio_message "AQID"; user_audio_message "AQID"].
Proof.
  split; [reflexivity |]. split; [reflexivity |].
  exact (media_forwarded_twice Base64.decode Base64.encode Demo.no_array_like
           Demo.ready Demo.media
           (JObj [("payload", JStr "AQID")]%string) "AQID"
           eq_refl eq_refl eq_refl eq_refl eq_refl).
Defined.

Lemma stop_only_stops_pacer_witness :
  get Demo.stop "event" = Return (JStr "stop")
  /\ pacerTimer Demo.ready = true
  /\ step Base64.decode Base64.encode Demo.no_array_like Demo.ready
       (TwilioMessage (Some Demo.stop)) = set_pacerTimer false Demo.ready.
Proof.
  split; [reflexivity |]. split; [reflexivity |].
  exact (proj1 (stop_only_stops_pacer Base64.decode Base64.encode
                  Demo.no_array_like Demo.ready Demo.stop eq_refl)).
Defined.

Lemma other_chunk_fact : other_chunk Demo.fact.
Proof.
  unfold other_chunk. split; [reflexivity |].
  split; [discriminate |]. split; [discriminate | reflexivity].
Defined.

(** A mu-law WAV comes back as its three samples; the same file with the
    PCM tag is refused. *)
Lemma ensureRawUlawBase64_wav_witness :
  Base64.decode (Base64.encode Demo.wav_ulaw) = Demo.wav_ulaw
  /\ fmt_tag Demo.fmt_ulaw = 7%N
  /\ fmt_tag Demo.fmt_pcm <> 7%N
  /\ ensureRawUlawBase64 Base64.decode Base64.encode Demo.no_array_like
       (JStr (Base64.encode Demo.wav_ulaw)) =
     Return (EnsureOk (JStr (Base64.encode Demo.samples)) NoteStrippedWav)
  /\ ensureRawUlawBase64 Base64.decode Base64.encode Demo.no_array_like
       (JStr (Base64.encode Demo.wav_pcm)) =
     Return (EnsureFail (ReasonWavNotUlaw (Some 1%N))).
Proof.
  split; [reflexivity |]. split; [reflexivity |]. split; [discriminate |].
  assert (Hmid : Forall other_chunk [Demo.fact])
    by (constructor; [exact other_chunk_fact | constructor]).
  split.
  - refine (proj1 (ensureRawUlawBase64_wav Base64.decode Base64.encode
                     Demo.no_array_like (Base64.encode Demo.wav_ulaw)
                     Demo.riff_size [] [Demo.fact] Demo.fmt_ulaw
                     Demo.samples [x00] _ eq_refl eq_refl
                     (Forall_nil _) Hmid _ _) eq_refl).
    + discriminate.
    + split; [discriminate | reflexivity].
    + reflexivity.
  - refine (proj2 (ensureRawUlawBase64_wav Base64.decode Base64.encode
                     Demo.no_array_like (Base64.encode Demo.wav_pcm)
                     Demo.riff_size [] [Demo.fact] Demo.fmt_pcm
                     Demo.samples [x00] _ eq_refl eq_refl
                     (Forall_nil _) Hmid _ _) _).
    + discriminate.
    + split; [discriminate | reflexivity].
    + reflexivity.
    + discriminate.
Defined.

(** A RIFF/WAVE header with a [fact] chunk and no data chunk. *)
Lemma ensureRawUlawBase64_raises_witness :
  Base64.decode (Base64.encode Demo.wav_headless) = Demo.wav_headless
  /\ ensureRawUlawBase64 Base64.decode Base64.encode Demo.no_array_like
       (JStr (Base64.encode Demo.wav_headless)) =
     Throw (Error "WAV has no data chunk").
Proof.
  split; [reflexivity |].
  refine (ensureRawUlawBase64_raises Base64.decode Base64.encode
            Demo.no_array_like (Base64.encode Demo.wav_headless)
            Demo.riff_size [Demo.fact] [] _ eq_refl eq_refl _ _).
  - discriminate.
  - constructor; [exact other_chunk_fact | constructor].
  - reflexivity.
Defined.

Lemma mp3_frame_signature : mp3_signature (Base64.decode Demo.mp3_frame).
Proof.
  right. exists xff, xfb, [x90; x00]. repeat split.
Defined.

(** The first four bytes of an MPEG audio frame are refused. *)
Lemma ensureRawUlawBase64_refuses_witness :
  3 <= blen (Base64.decode Demo.mp3_frame)
  /\ mp3_signature (Base64.decode Demo.mp3_frame)
  /\ ensureRawUlawBase64 Base64.decode Base64.encode Demo.no_array_like
       (JStr Demo.mp3_frame) = Return (EnsureFail ReasonMp3Container).
Proof.
  split; [discriminate |]. split; [exact mp3_frame_signature |].
  assert (H : is_failure
                (ensureRawUlawBase64 Base64.decode Base64.encode
                   Demo.no_array_like (JStr Demo.mp3_frame))).
  { apply ensureRawUlawBase64_refuses.
    - discriminate.
    - discriminate.
    - left. exact mp3_frame_signature. }
  destruct H as [H | H]; [exact H | discriminate H].
Defined.

(** C6 as stated fails on a buffer of two bytes: [ff e0] carries the frame
    sync, and the normalizer returns it as raw audio. *)
Lemma ensureRawUlawBase64_refuses_counterexample :
  Demo.sync_only <> EmptyString
  /\ mp3_signature (Base64.decode Demo.sync_only)
  /\ ensureRawUlawBase64 Base64.decode Base64.encode Demo.no_array_like
       (JStr Demo.sync_only) = Return (EnsureOk (JStr Demo.sync_only) NoteRaw)
  /\ ~ is_failure
         (ensureRawUlawBase64 Base64.decode Base64.encode Demo.no_array_like
            (JStr Demo.sync_only)).
Proof.
  split; [discriminate |]. split.
  - right. exists xff, xe0, []. repeat split.
  - split; [reflexivity |]. intros [H | H]; discriminate H.
Qed.

(** C7, on the code.  With the stream identifier [CA123] known and both
    sockets open, the message [{"type":"interruption"}] arriving on the agent
    socket leaves the session as it is: no [clear] and nothing else goes to
    the telephony socket.  The function that would send it,
    [handleElevenLabsMessage], sends exactly one [clear] for [CA123] when it
    is run on the same message, but no callback runs it. *)
Theorem interruption_sends_no_clear :
  step Base64.decode Base64.encode Demo.no_array_like Demo.ready
    (AgentMessage (Some Demo.interruption)) = Demo.ready
  /\ toTwilio
       (step Base64.decode Base64.encode Demo.no_array_like Demo.ready
          (AgentMessage (Some Demo.interruption))) = []
  /\ toTwilio
       (run (handleElevenLabsMessage Base64.decode Demo.no_array_like
               Demo.interruption) Demo.ready) =
     [clear_message (JStr "CA123")].
Proof.
  split; [reflexivity |]. split; reflexivity.
Qed.

(** The end-to-end scenario: [start] with [CA123], an agent audio message of
    400 raw bytes, three ticks: three media messages for [CA123] carrying
    160, 160 and 80 bytes, in that order, and an empty queue. *)
Lemma end_to_end_scenario :
  let s :=
    steps Base64.decode Base64.encode Demo.no_array_like
      (initial (JStr "2025-01-01") (JStr "10:00") (JStr "Caller") (JStr ""))
      [TwilioMessage (Some Demo.start); AgentMessage (Some Demo.audio400);
       PacerTick; PacerTick; PacerTick] in
  toTwilio s =
    map (fun n => media_message (JStr "CA123") (JStr (Base64.encode (repeat x55 n))))
      [160; 160; 80]%nat
  /\ outQueue s = [].
Proof.
  split; reflexivity.
Qed.

(** The relay of [inbound-calls.js] has no container test of its own: an
    agent audio chunk that starts like an MPEG frame is queued for the
    telephony socket, and a WAV file is cut after its first [data] header
    whatever its format tag, the pad byte included. *)
Lemma relay_queues_any_container :
  outQueue
    (step Base64.decode Base64.encode Demo.no_array_like
       (set_outQueue [] Demo.ready)
       (AgentMessage (Some (JObj [("agent_audio_chunk", JStr Demo.mp3_frame)]%string))))
  = [JStr Demo.mp3_frame]
  /\ stripWaveIfNeeded Demo.wav_pcm = Demo.samples ++ [x00].
Proof.
  split; reflexivity.
Qed.

(** * The rest of the code on concrete inputs *)

(** A mu-law WAV with the data chunk in front comes back as its samples. *)
Lemma ensureRawUlawBase64_data_first_witness :
  Base64.decode (Base64.encode Sample.wav_reordered) = Sample.wav_reordered
  /\ fmt_tag Demo.fmt_ulaw = 7%N
  /\ ensureRawUlawBase64 Base64.decode Base64.encode Demo.no_array_like
       (JStr (Base64.encode Sample.wav_reordered)) =
     Return (EnsureOk (JStr (Base64.encode Demo.samples)) NoteStrippedWav).
Proof.
  split; [reflexivity |]. split; [reflexivity |].
  refine (ensureRawUlawBase64_data_first Base64.decode Base64.encode
            Demo.no_array_like (Base64.encode Sample.wav_reordered)
            Demo.riff_size [] [Demo.fact] Demo.samples Demo.fmt_ulaw []
            _ eq_refl eq_refl (Forall_nil _) _ _ _ eq_refl).
  - discriminate.
  - constructor; [| constructor]. unfold other_chunk. split; [reflexivity |].
    split; [discriminate |]. split; [discriminate | reflexivity].
  - reflexivity.
  - split; [discriminate | reflexivity].
Defined.

(** Three bytes behind a data header that declares [0xffffffff]. *)
Lemma ensureRawUlawBase64_declared_size_witness :
  Base64.decode (Base64.encode Sample.wav_streamed) = Sample.wav_streamed
  /\ ensureRawUlawBase64 Base64.decode Base64.encode Demo.no_array_like
       (JStr (Base64.encode Sample.wav_streamed)) =
     Return (EnsureOk (JStr (Base64.encode Demo.samples)) NoteStrippedWav).
Proof.
  split; [reflexivity |].
  refine (ensureRawUlawBase64_declared_size Base64.decode Base64.encode
            Demo.no_array_like (Base64.encode Sample.wav_streamed)
            Demo.riff_size [] [] Demo.fmt_ulaw Demo.samples 4294967295
            _ eq_refl eq_refl (Forall_nil _) (Forall_nil _) _ _ eq_refl).
  - discriminate.
  - split; [discriminate | reflexivity].
  - reflexivity.
Defined.

Lemma ensureRawUlawBase64_without_fmt_witness :
  Base64.decode (Base64.encode Sample.wav_fmtless) = Sample.wav_fmtless
  /\ ensureRawUlawBase64 Base64.decode Base64.encode Demo.no_array_like
       (JStr (Base64.encode Sample.wav_fmtless)) =
     Return (EnsureFail (ReasonWavNotUlaw None)).
Proof.
  split; [reflexivity |].
  refine (proj2 (ensureRawUlawBase64_without_fmt Base64.decode Base64.encode
                   Demo.no_array_like (Base64.encode Sample.wav_fmtless)
                   Demo.riff_size [] [Demo.fact] Demo.samples []
                   _ eq_refl eq_refl (Forall_nil _) _ _ _)).
  - discriminate.
  - constructor; [| constructor]. unfold other_chunk. split; [reflexivity |].
    split; [discriminate |]. split; [discriminate | reflexivity].
  - reflexivity.
  - reflexivity.
Defined.

(** A format chunk of which fourteen bytes arrived. *)
Lemma ensureRawUlawBase64_short_fmt_witness :
  Base64.decode (Base64.encode Sample.wav_cut) = Sample.wav_cut
  /\ exists msg,
       ensureRawUlawBase64 Base64.decode Base64.encode Demo.no_array_like
         (JStr (Base64.encode Sample.wav_cut)) = Throw (RangeError msg).
Proof.
  split; [reflexivity |].
  refine (ensureRawUlawBase64_short_fmt Base64.decode Base64.encode
            Demo.no_array_like (Base64.encode Sample.wav_cut)
            Demo.riff_size [Demo.fact] 16 (firstn 14 Demo.fmt_ulaw)
            _ eq_refl eq_refl _ _ _).
  - discriminate.
  - constructor; [| constructor]. unfold other_chunk. split; [reflexivity |].
    split; [discriminate |]. split; [discriminate | reflexivity].
  - reflexivity.
  - reflexivity.
Defined.

(** The three bytes 1, 2, 3 come back as they were given. *)
Lemma ensureRawUlawBase64_not_riff_witness :
  ~ starts_with (list_byte_of_string "RIFF") (Base64.decode "AQID")
  /\ (ensureRawUlawBase64 Base64.decode Base64.encode Demo.no_array_like (JStr "AQID") =
        Return (EnsureFail ReasonMp3Container)
      \/ ensureRawUlawBase64 Base64.decode Base64.encode Demo.no_array_like (JStr "AQID") =
           Return (EnsureFail ReasonOggContainer)
      \/ ensureRawUlawBase64 Base64.decode Base64.encode Demo.no_array_like (JStr "AQID") =
           Return (EnsureOk (JStr "AQID") NoteRaw)).
Proof.
  assert (H : ~ starts_with (list_byte_of_string "RIFF") (Base64.decode "AQID"))
    by (intros [rest Hrest]; discriminate Hrest).
  split; [exact H |].
  apply ensureRawUlawBase64_not_riff; [discriminate | exact H].
Defined.

Lemma stripWaveIfNeeded_suffix_witness :
  blen [x01; x02; x03] < 12
  /\ stripWaveIfNeeded [x01; x02; x03] = [x01; x02; x03].
Proof.
  split; [reflexivity |].
  apply (proj2 (stripWaveIfNeeded_suffix [x01; x02; x03])). left. reflexivity.
Defined.

(** The PCM file of the examples: everything up to the size field of its
    data chunk is cut, the pad byte stays. *)
Lemma stripWaveIfNeeded_cuts_witness :
  Demo.wav_pcm =
    (riff_wave Demo.riff_size
       ++ chunk_bytes (list_byte_of_string "fmt ", Demo.fmt_pcm)
       ++ chunk_bytes Demo.fact)
    ++ list_byte_of_string "data" ++ le_bytes 4 3 ++ (Demo.samples ++ [x00])
  /\ stripWaveIfNeeded Demo.wav_pcm = Demo.samples ++ [x00].
Proof.
  split; [reflexivity |].
  refine (stripWaveIfNeeded_cuts
            (riff_wave Demo.riff_size
               ++ chunk_bytes (list_byte_of_string "fmt ", Demo.fmt_pcm)
               ++ chunk_bytes Demo.fact)
            (le_bytes 4 3) (Demo.samples ++ [x00]) _ _ eq_refl _).
  - exists (skipn 4 Demo.wav_pcm). reflexivity.
  - discriminate.
  - intros i Hi.
    do 48 (destruct i as [|i]; [reflexivity |]).
    exfalso. cbn in Hi. lia.
Defined.

(** 400 raw bytes behind the three frames of the queue. *)
Lemma enqueueELBase64_appends_witness :
  exists frames,
    enqueueELBase64 Base64.decode Base64.encode Demo.no_array_like
      (JStr (Base64.encode (repeat x55 400))) Demo.streaming =
      (set_outQueue
         ([Demo.frameA; Demo.frameB; Demo.frameC]
            ++ map (fun f => JStr (Base64.encode f)) frames) Demo.streaming,
       Return tt)
    /\ List.concat frames = repeat x55 400
    /\ Z.of_nat (List.length frames) = 3.
Proof.
  destruct (enqueueELBase64_appends Base64.decode Base64.encode Demo.no_array_like
              (JStr (Base64.encode (repeat x55 400))) (repeat x55 400)
              Demo.streaming eq_refl)
    as (frames & H1 & H2 & H3 & _).
  exists frames. split; [exact H1 |]. split; [exact H2 | exact H3].
Defined.

(** A [dtmf] event is logged and otherwise ignored. *)
Lemma twilio_message_ignored_witness :
  get Sample.dtmf "event" = Return (JStr "dtmf")
  /\ step Base64.decode Base64.encode Demo.no_array_like Demo.ready
       (TwilioMessage (Some Sample.dtmf)) = Demo.ready.
Proof.
  split; [reflexivity |].
  destruct (twilio_message_ignored Base64.decode Base64.encode Demo.no_array_like
              Demo.ready) as (_ & _ & H).
  apply (H Sample.dtmf (JStr "dtmf")); reflexivity.
Defined.

(** The [start] event of the examples on a fresh session. *)
Lemma start_sets_stream_witness :
  step Base64.decode Base64.encode Demo.no_array_like
    (initial (JStr "2025-01-01") (JStr "10:00") (JStr "Caller") (JStr ""))
    (TwilioMessage (Some Demo.start)) =
  set_pacerTimer true
    (set_streamSid (JStr "CA123")
       (initial (JStr "2025-01-01") (JStr "10:00") (JStr "Caller") (JStr ""))).
Proof.
  refine (start_sets_stream Base64.decode Base64.encode Demo.no_array_like _
            Demo.start _ (JStr "CA123") _ eq_refl eq_refl eq_refl eq_refl eq_refl).
Defined.

Lemma start_without_body_ignored_witness :
  get Sample.start_without_body "start" = Return JUndefined
  /\ step Base64.decode Base64.encode Demo.no_array_like Demo.ready
       (TwilioMessage (Some Sample.start_without_body)) = Demo.ready.
Proof.
  split; [reflexivity |].
  apply (start_without_body_ignored Base64.decode Base64.encode Demo.no_array_like
           Demo.ready Sample.start_without_body JUndefined);
    [reflexivity | reflexivity | now left].
Defined.

(** The flag is set but the agent socket is still connecting. *)
Lemma media_agent_not_open_dropped_witness :
  convoReady Sample.connecting = true
  /\ elevenLabsWs Sample.connecting = Some CONNECTING
  /\ step Base64.decode Base64.encode Demo.no_array_like Sample.connecting
       (TwilioMessage (Some Demo.media)) = Sample.connecting.
Proof.
  split; [reflexivity |]. split; [reflexivity |].
  apply media_agent_not_open_dropped; [reflexivity | discriminate].
Defined.

Lemma media_without_payload_ignored_witness :
  convoReady Demo.ready = true
  /\ elevenLabsWs Demo.ready = Some OPEN
  /\ step Base64.decode Base64.encode Demo.no_array_like Demo.ready
       (TwilioMessage (Some Sample.media_without_body)) = Demo.ready.
Proof.
  split; [reflexivity |]. split; [reflexivity |].
  refine (media_without_payload_ignored Base64.decode Base64.encode
            Demo.no_array_like Demo.ready Sample.media_without_body _
            eq_refl eq_refl).
Defined.

(** Three bytes of caller audio: two messages, one frame and three bytes
    counted. *)
Lemma media_forwarded_state_witness :
  media_payload Base64.decode Demo.no_array_like Demo.media = Return [x01; x02; x03]
  /\ step Base64.decode Base64.encode Demo.no_array_like Demo.ready
       (TwilioMessage (Some Demo.media)) =
     set_toAgent [user_audio_message "AQID"; user_audio_message "AQID"]
       (set_stats (mkStats 1 3 0 0) Demo.ready).
Proof.
  split; [reflexivity |].
  exact (media_forwarded_state Base64.decode Base64.encode Demo.no_array_like
           Demo.ready Demo.media [x01; x02; x03] eq_refl eq_refl eq_refl eq_refl).
Defined.

Lemma nothing_to_agent_before_ready_witness :
  convoReady Demo.streaming = false
  /\ toAgent
       (step Base64.decode Base64.encode Demo.no_array_like Demo.streaming
          (TwilioMessage (Some Demo.media))) = [].
Proof.
  split; [reflexivity |].
  apply (nothing_to_agent_before_ready Base64.decode Base64.encode
           Demo.no_array_like Demo.streaming (TwilioMessage (Some Demo.media)));
    [reflexivity | discriminate].
Defined.

(** The agent socket closes, the timer's callback is delivered all the same,
    then caller audio arrives. *)
Lemma ready_timeout_cancelled_witness :
  convoReady
    (steps Base64.decode Base64.encode Demo.no_array_like
       (step Base64.decode Base64.encode Demo.no_array_like Demo.streaming AgentClose)
       [AgentReadyTimeout; TwilioMessage (Some Demo.media)]) = false.
Proof.
  apply ready_timeout_cancelled; [now left | reflexivity |].
  repeat constructor; discriminate.
Defined.

Lemma pacer_waits_for_socket_witness :
  connection Sample.closing = CLOSING
  /\ ticks Base64.decode Demo.no_array_like 3 Sample.closing = Sample.closing.
Proof.
  split; [reflexivity |].
  apply (proj1 (pacer_waits_for_socket Base64.decode Base64.encode
                  Demo.no_array_like Sample.closing 3 ltac:(discriminate))).
Defined.

(** A ping with event identifier 7 is answered with a pong for 7. *)
Lemma handleElevenLabsMessage_ping_witness :
  toAgent
    (run (handleElevenLabsMessage Base64.decode Demo.no_array_like Sample.ping)
       Demo.ready) =
  [JObj [("type", JStr "pong"); ("event_id", JNum 7)]%string].
Proof.
  pose proof (proj1 (handleElevenLabsMessage_ping Base64.decode Demo.no_array_like
                       Demo.ready Sample.ping
                       (JObj [("event_id", JNum 7)]%string) (JNum 7)
                       eq_refl eq_refl eq_refl) eq_refl eq_refl) as H.
  unfold run. rewrite H. reflexivity.
Defined.

(** With the stream identifier known, a chunk of three bytes goes out at
    once. *)
Lemma handleElevenLabsMessage_audio_witness :
  toTwilio
    (run (handleElevenLabsMessage Base64.decode Demo.no_array_like
            (Sample.audio "AQID")) Demo.ready) =
  [media_message (JStr "CA123") (JStr "AQID")].
Proof.
  rewrite (handleElevenLabsMessage_audio Base64.decode Demo.no_array_like
             Demo.ready (Sample.audio "AQID")
             (JObj [("audio_base_64", JStr "AQID")]%string) (JStr "AQID")
             [x01; x02; x03] eq_refl eq_refl eq_refl eq_refl eq_refl eq_refl).
  reflexivity.
Defined.

(** A mu-law WAV of three samples goes out as one media message that
    carries the three samples. *)
Lemma part000_audio_sent_at_once_witness :
  ensureRawUlawBase64 Base64.decode Base64.encode Demo.no_array_like
    (JStr (Base64.encode Demo.wav_ulaw)) =
  Return (EnsureOk (JStr (Base64.encode Demo.samples)) NoteStrippedWav)
  /\ toTwilio
       (run (on_agent_message_part000 Base64.decode Base64.encode Demo.no_array_like
               false (Some (Sample.audio (Base64.encode Demo.wav_ulaw))))
          Demo.ready) =
     [media_message (JStr "CA123") (JStr (Base64.encode Demo.samples))].
Proof.
  split; [reflexivity |].
  rewrite (part000_audio_sent_at_once Base64.decode Base64.encode Demo.no_array_like
             false Demo.ready (Sample.audio (Base64.encode Demo.wav_ulaw))
             (JObj [("audio_base_64", JStr (Base64.encode Demo.wav_ulaw))]%string)
             (Base64.encode Demo.wav_ulaw) (Base64.encode Demo.samples)
             NoteStrippedWav eq_refl eq_refl eq_refl ltac:(discriminate)
             eq_refl eq_refl).
  reflexivity.
Defined.

(** The start of an MPEG frame is not sent on. *)
Lemma part000_audio_dropped_witness :
  ensureRawUlawBase64 Base64.decode Base64.encode Demo.no_array_like
    (JStr Demo.mp3_frame) = Return (EnsureFail ReasonMp3Container)
  /\ run (on_agent_message_part000 Base64.decode Base64.encode Demo.no_array_like
            false (Some (Sample.audio Demo.mp3_frame))) Demo.ready = Demo.ready.
Proof.
  split; [reflexivity |].
  apply (part000_audio_dropped Base64.decode Base64.encode Demo.no_array_like
           false Demo.ready (Sample.audio Demo.mp3_frame)
           (JObj [("audio_base_64", JStr Demo.mp3_frame)]%string)
           (JStr Demo.mp3_frame) eq_refl eq_refl eq_refl).
  left. exists ReasonMp3Container. reflexivity.
Defined.

Lemma linearToMuLawSample_sign_witness :
  int16 1000
  /\ linearToMuLawSample 1000 = 206
  /\ linearToMuLawSample (- 1000) = linearToMuLawSample 1000 - 128.
Proof.
  assert (H : int16 1000) by (unfold int16; lia).
  split; [exact H |]. split; [reflexivity |].
  destruct (linearToMuLawSample_sign 1000 H) as (_ & _ & Hm).
  apply Hm. lia.
Defined.

Lemma linearToMuLawSample_monotone_witness :
  int16 100 /\ int16 1000
  /\ linearToMuLawSample 1000 <= linearToMuLawSample 100.
Proof.
  assert (Ha : int16 100) by (unfold int16; lia).
  assert (Hb : int16 1000) by (unfold int16; lia).
  split; [exact Ha |]. split; [exact Hb |].
  apply (proj1 (linearToMuLawSample_monotone 100 1000 Ha Hb ltac:(lia))). lia.
Defined.

(** 1000 and 1010 get the same byte. *)
Lemma linearToMuLawSample_resolution_witness :
  linearToMuLawSample 1000 = linearToMuLawSample 1010
  /\ 16 * (1010 - 1000) <= 1000 + 116.
Proof.
  split; [reflexivity |].
  apply linearToMuLawSample_resolution; [lia | lia | lia | reflexivity].
Defined.
